(** * MarkItDownFileIndexer: the catalog store and the indexing engine

    A shallow embedding of [schema.py] (the SQLite schema and its seed data)
    and of [create_index.py] (class [FileIndexer]), followed by the
    properties of the catalog that the design document states.

    Conventions of the embedding.
    - A table is the list of its rows in insertion order; a row is a record
      with one field per column.  [INTEGER PRIMARY KEY] columns are SQLite
      rowids: a fresh row gets one more than the largest rowid in the table
      at the time of the insert.
    - [NULL] and Python's [None] are [None]; a nullable column is an [option].
    - Foreign keys are declared by the schema but the code never issues
      [PRAGMA foreign_keys = ON], so SQLite does not enforce them.
    - A connection holds the committed database and the working copy of the
      open transaction; [commit] publishes the working copy, [rollback]
      restores it, closing the connection drops what was not committed.
    - A statement may raise for reasons outside the program (locked or
      damaged database file): the connection carries the index of the
      statement at which SQLite raises, if any.
    - Time stamps are natural numbers handed to each operation. *)

From Stdlib Require Import List String Ascii Arith Bool Lia.
Import ListNotations.
Local Open Scope string_scope.
Local Open Scope list_scope.

(* ===================================================================== *)
(** ** Python string and path helpers *)
(* ===================================================================== *)

(** Paths are their texts.  [Path(p)] parses the text into a root and a list
    of components, dropping empty components and ["."]; the properties
    [name], [suffix], [parent] and [parts] and [str] are computed from the
    parsed form, so they agree on every text of the same path. *)

Module Py.

(** [str.isascii]: every code unit is below 128. *)
Definition isascii_char (c : ascii) : bool := Nat.ltb (nat_of_ascii c) 128.

Fixpoint isascii (s : string) : bool :=
  match s with
  | EmptyString => true
  | String c r => andb (isascii_char c) (isascii r)
  end.

(** [str.lower] on ASCII text, where it maps [A-Z] to [a-z] and nothing
    else.  On other text [str.lower] follows the Unicode case tables, which
    are not modelled: what is proved of the result of [lower] is proved for
    text that satisfies [isascii]. *)
Definition lower_ascii (c : ascii) : ascii :=
  let n := nat_of_ascii c in
  if andb (Nat.leb 65 n) (Nat.leb n 90) then ascii_of_nat (n + 32) else c.

Fixpoint lower (s : string) : string :=
  match s with
  | EmptyString => EmptyString
  | String c r => String (lower_ascii c) (lower r)
  end.

(** [s.lstrip('.')]: drops every leading dot. *)
Fixpoint lstrip_dot (s : string) : string :=
  match s with
  | String "."%char r => lstrip_dot r
  | _ => s
  end.

(** [s.rfind(c)], scanning from index [i] with [last] the best so far. *)
Fixpoint rfind_from (c : ascii) (s : string) (i : nat) (last : option nat)
  : option nat :=
  match s with
  | EmptyString => last
  | String a r =>
      rfind_from c r (S i) (if Ascii.eqb a c then Some i else last)
  end.

Definition rfind (c : ascii) (s : string) : option nat :=
  rfind_from c s 0 None.

(** [s[i:]] *)
Definition slice_from (i : nat) (s : string) : string :=
  substring i (String.length s - i) s.

(** [s.split('/')] *)
Fixpoint split_sep (s : string) : list string :=
  match s with
  | EmptyString => [EmptyString]
  | String c r =>
      if Ascii.eqb c "/"%char then EmptyString :: split_sep r
      else match split_sep r with
           | x :: xs => String c x :: xs
           | [] => [String c EmptyString]
           end
  end.

(** The components pathlib keeps when it parses a path: neither empty nor
    ["."]. *)
Definition kept_part (x : string) : bool :=
  negb (orb (String.eqb x EmptyString) (String.eqb x ".")).

(** [PurePosixPath(p)] in parsed form: the root, and the components after
    it.  A path that starts with exactly two slashes has the root ["//"],
    one that starts with one slash or with three or more has the root
    ["/"]. *)
Definition root (p : string) : string :=
  match p with
  | String "/"%char (String "/"%char (String "/"%char _)) => "/"
  | String "/"%char (String "/"%char _) => "//"
  | String "/"%char _ => "/"
  | _ => EmptyString
  end.

Definition components (p : string) : list string :=
  filter kept_part (split_sep p).

(** [str] of the path with the given root and components: the root, then
    the components joined by the separator; ["."] for the empty relative
    path. *)
Definition format (root : string) (parts : list string) : string :=
  if String.eqb root EmptyString then
    match parts with
    | [] => "."
    | _ => String.concat "/" parts
    end
  else String.append root (String.concat "/" parts).


(** [PurePosixPath(p).name]: the last component, [''] when there is none. *)
Definition name (p : string) : string := last (components p) EmptyString.

(** [PurePath.suffix]:
    [i = name.rfind('.'); name[i:] if 0 < i < len(name) - 1 else ''] *)
Definition suffix (p : string) : string :=
  let n := name p in
  match rfind "."%char n with
  | Some i =>
      if andb (Nat.ltb 0 i) (Nat.ltb i (String.length n - 1)) then slice_from i n
      else EmptyString
  | None => EmptyString
  end.

(** [str(PurePosixPath(p).parent)]: the path without its last component;
    a root and the empty relative path are their own parents. *)
Definition parent (p : string) : string :=
  format (root p) (removelast (components p)).

(** [len(PurePosixPath(p).parts)]: the root (if any) and every component. *)
Definition parts_len (p : string) : nat :=
  (if String.eqb (root p) EmptyString then 0 else 1) + List.length (components p).

(** [str(PurePosixPath(p)._make_child_relpath(name))]: the entry [name] of
    the directory [p], as [Path.rglob] builds it; [name] is a single
    component. *)
Definition make_child_relpath (p name : string) : string :=
  format (root p) (components p ++ [name]).

(** [x in formats] for a set of strings. *)
Definition mem (x : string) (l : list string) : bool :=
  existsb (String.eqb x) l.

End Py.

(* ===================================================================== *)
(** ** schema.py: the tables *)
(* ===================================================================== *)

Definition time := nat.

(** [processing_status] takes the three texts ['processed'], ['skipped'] and
    ['failed']. *)
Inductive processing_status_t := processed | skipped | failed.

Definition processing_status_eqb (a b : processing_status_t) : bool :=
  match a, b with
  | processed, processed | skipped, skipped | failed, failed => true
  | _, _ => false
  end.

(** Table [files]. *)
Record files_row := {
  f_id : nat;
  f_file_path : string;                    (* NOT NULL UNIQUE *)
  f_file_name : string;                    (* NOT NULL *)
  f_file_extension : option string;
  f_file_size : option nat;
  f_created_at : option time;
  f_modified_at : option time;
  f_indexed_at : option time;
  f_checksum : option string;
  f_markdown_content : option string;
  f_content_summary : option string;
  f_processing_status : option processing_status_t;
  f_error_message : option string;
  f_last_summary_update : option time
}.

(** Table [directories]. *)
Record directories_row := {
  d_id : nat;
  d_dir_path : string;                     (* NOT NULL UNIQUE *)
  d_dir_name : string;                     (* NOT NULL *)
  d_parent_dir_path : option string;
  d_depth : option nat;
  d_created_at : option time;
  d_modified_at : option time;
  d_indexed_at : option time;
  d_title : option string;
  d_status : option string;                (* DEFAULT 'active' *)
  d_owner : option string;
  d_last_documented_at : option time
}.

(** Table [directory_docs]; UNIQUE (directory_id, version). *)
Record directory_docs_row := {
  dd_id : nat;
  dd_directory_id : nat;
  dd_version : nat;
  dd_title : string;                       (* NOT NULL *)
  dd_description : option string;
  dd_purpose : option string;
  dd_guidelines : option string;
  dd_created_at : option time;
  dd_created_by : option string;
  dd_is_current : bool;
  dd_metadata : option string
}.

(** Table [directory_tags]; UNIQUE (directory_id, tag_name). *)
Record directory_tags_row := {
  dt_id : nat;
  dt_directory_id : nat;
  dt_tag_name : string;
  dt_created_at : option time;
  dt_created_by : option string
}.

(** Table [directory_relations]. *)
Record directory_relations_row := {
  dr_id : nat;
  dr_source_dir_id : nat;
  dr_target_dir_id : nat;
  dr_relation_type : string;               (* NOT NULL *)
  dr_description : option string;
  dr_created_at : option time
}.

(** Table [file_formats]. *)
Record file_formats_row := {
  ff_id : nat;
  ff_extension : string;                   (* NOT NULL UNIQUE *)
  ff_category : string;
  ff_description : option string;
  ff_is_enabled : bool;                    (* DEFAULT TRUE *)
  ff_processing_options : option string
}.

(** Table [processing_queue]. *)
Record processing_queue_row := {
  q_id : nat;
  q_file_id : nat;                         (* NOT NULL, REFERENCES files(id) *)
  q_priority : nat;                        (* DEFAULT 0 *)
  q_status : string;                       (* DEFAULT 'pending' *)
  q_created_at : option time;
  q_started_at : option time;
  q_completed_at : option time;
  q_error_message : option string
}.

(** The database file. *)
Record db := {
  files : list files_row;
  directories : list directories_row;
  directory_docs : list directory_docs_row;
  directory_tags : list directory_tags_row;
  directory_relations : list directory_relations_row;
  file_formats : list file_formats_row;
  processing_queue : list processing_queue_row
}.

Definition set_files (v : list files_row) (s : db) : db :=
  {| files := v; directories := directories s;
     directory_docs := directory_docs s; directory_tags := directory_tags s;
     directory_relations := directory_relations s;
     file_formats := file_formats s; processing_queue := processing_queue s |}.

Definition set_directories (v : list directories_row) (s : db) : db :=
  {| files := files s; directories := v;
     directory_docs := directory_docs s; directory_tags := directory_tags s;
     directory_relations := directory_relations s;
     file_formats := file_formats s; processing_queue := processing_queue s |}.

Definition set_directory_docs (v : list directory_docs_row) (s : db) : db :=
  {| files := files s; directories := directories s;
     directory_docs := v; directory_tags := directory_tags s;
     directory_relations := directory_relations s;
     file_formats := file_formats s; processing_queue := processing_queue s |}.

Definition set_directory_tags (v : list directory_tags_row) (s : db) : db :=
  {| files := files s; directories := directories s;
     directory_docs := directory_docs s; directory_tags := v;
     directory_relations := directory_relations s;
     file_formats := file_formats s; processing_queue := processing_queue s |}.

Definition set_directory_relations (v : list directory_relations_row) (s : db)
  : db :=
  {| files := files s; directories := directories s;
     directory_docs := directory_docs s; directory_tags := directory_tags s;
     directory_relations := v;
     file_formats := file_formats s; processing_queue := processing_queue s |}.

Definition set_file_formats (v : list file_formats_row) (s : db) : db :=
  {| files := files s; directories := directories s;
     directory_docs := directory_docs s; directory_tags := directory_tags s;
     directory_relations := directory_relations s;
     file_formats := v; processing_queue := processing_queue s |}.

Definition set_processing_queue (v : list processing_queue_row) (s : db) : db :=
  {| files := files s; directories := directories s;
     directory_docs := directory_docs s; directory_tags := directory_tags s;
     directory_relations := directory_relations s;
     file_formats := file_formats s; processing_queue := v |}.

(** The rowid SQLite gives to a row inserted without one: one more than the
    largest rowid present (1 in an empty table). *)
Definition max_rowid {A} (id : A -> nat) (rows : list A) : nat :=
  fold_right (fun r m => Nat.max (id r) m) 0 rows.

Definition new_rowid {A} (id : A -> nat) (rows : list A) : nat :=
  S (max_rowid id rows).

(** [get_supported_formats()] *)
Definition get_supported_formats : list (string * string * string) :=
  [ ("pdf", "document", "PDF Document");
    ("pptx", "presentation", "PowerPoint");
    ("ppt", "presentation", "PowerPoint Legacy");
    ("docx", "document", "Word Document");
    ("doc", "document", "Word Legacy");
    ("xlsx", "spreadsheet", "Excel Workbook");
    ("xls", "spreadsheet", "Excel Legacy");
    ("jpg", "image", "JPEG Image");
    ("jpeg", "image", "JPEG Image");
    ("png", "image", "PNG Image");
    ("gif", "image", "GIF Image");
    ("mp3", "audio", "MP3 Audio");
    ("wav", "audio", "WAV Audio");
    ("html", "web", "HTML Document");
    ("htm", "web", "HTML Document");
    ("csv", "data", "CSV Data");
    ("json", "data", "JSON Data");
    ("xml", "data", "XML Data");
    ("zip", "archive", "ZIP Archive");
    ("txt", "text", "Text Document") ].

(** [INSERT OR IGNORE INTO file_formats (extension, category, description)]:
    a row whose extension is already present is dropped. *)
Definition insert_or_ignore_format (fmt : string * string * string)
    (rows : list file_formats_row) : list file_formats_row :=
  let '(ext, category, description) := fmt in
  if existsb (fun r => String.eqb (ff_extension r) ext) rows then rows
  else rows ++ [ {| ff_id := new_rowid ff_id rows; ff_extension := ext;
                    ff_category := category;
                    ff_description := Some description;
                    ff_is_enabled := true;
                    ff_processing_options := None |} ].

Definition empty_db : db :=
  {| files := []; directories := []; directory_docs := [];
     directory_tags := []; directory_relations := []; file_formats := [];
     processing_queue := [] |}.

(** [init_database] on a database file that does not exist yet: the tables
    are created empty and the format registry is seeded. *)
Definition init_database : db :=
  set_file_formats
    (fold_left (fun rows fmt => insert_or_ignore_format fmt rows)
               get_supported_formats [])
    empty_db.

(* ===================================================================== *)
(** ** Exceptions, the log and the connection *)
(* ===================================================================== *)

(** The exceptions the embedded code can meet; all derive from
    [Exception]. *)
Inductive exn :=
| IntegrityError (constraint : string)     (* sqlite3.IntegrityError *)
| OperationalError                         (* sqlite3.OperationalError *)
| OSError.                                 (* os.stat, the path probes *)

Inductive log_level := DEBUG | INFO | WARNING | ERROR.

(** One constructor per [logging] call of [create_index.py]; the wording of
    the messages is not part of the model. *)
Inductive log_event :=
| ChecksumError (file_path : string)
| SkippingUnsupported (file_path : string)
| ConvertError (file_path : string)
| SkippingFormat (file_path : string)
| ProcessFileError (file_path : string)
| SaveError (e : exn)
| ProcessDirectoryError (dir_path : string) (e : exn)
| PathDoesNotExist (root_path : string)
| StartingIndexing (root_path : string)
| TotalFilesFound (total_files : nat)
| IndexingCompleted
| Summary (total_files processed_n skipped_n failed_n : nat)
| DirectoryNotFound (dir_path : string)
| AddedDocumentation (next_version : nat) (dir_path : string)
| DocumentationError (e : exn)
| AddedTags (tags : list string) (dir_path : string)
| TagsError (e : exn)
| AddedRelation (relation_type : option string) (source_path target_path : string)
| RelationError (e : exn).

Definition log_t := list (log_level * log_event).

(** A [sqlite3] connection together with the process log. *)
Record session := {
  committed : db;             (* what the database file holds *)
  working : db;               (* what the open transaction sees *)
  executed : nat;             (* statements issued so far *)
  raises_at : option nat;     (* the statement at which SQLite raises *)
  log : log_t
}.

Definition connect (s : db) (fault : option nat) (l : log_t) : session :=
  {| committed := s; working := s; executed := 0; raises_at := fault;
     log := l |}.

(** Computations over a connection that return or raise. *)
Definition M (A : Type) : Type := session -> (A + exn) * session.

Definition ret {A} (a : A) : M A := fun c => (inl a, c).

Definition raise {A} (e : exn) : M A := fun c => (inr e, c).

Definition bind {A B} (m : M A) (k : A -> M B) : M B :=
  fun c =>
    match m c with
    | (inl a, c') => k a c'
    | (inr e, c') => (inr e, c')
    end.

Notation "x <- m ;; k" := (bind m (fun x => k))
  (at level 61, m at next level, right associativity).
Notation "m ;; k" := (bind m (fun _ => k))
  (at level 61, right associativity).

(** [try: body except Exception as e: handler(e)] *)
Definition try_except {A} (body : M A) (handler : exn -> M A) : M A :=
  fun c =>
    match body c with
    | (inl a, c') => (inl a, c')
    | (inr e, c') => handler e c'
    end.

(** Every call into SQLite counts as a statement and raises when it is the
    one the connection is set to fail at. *)
Definition statement : M unit :=
  fun c =>
    let c' := {| committed := committed c; working := working c;
                 executed := S (executed c); raises_at := raises_at c;
                 log := log c |} in
    match raises_at c with
    | Some k => if Nat.eqb k (executed c) then (inr OperationalError, c')
                else (inl tt, c')
    | None => (inl tt, c')
    end.

Definition set_working (w : db) : M unit :=
  fun c => (inl tt, {| committed := committed c; working := w;
                       executed := executed c; raises_at := raises_at c;
                       log := log c |}).

(** [cursor.execute] of a SELECT, then [fetchone]. *)
Definition query {A} (q : db -> A) : M A :=
  statement ;; fun c => (inl (q (working c)), c).

(** [cursor.execute] of a statement that writes; the statement either
    yields the new tables or violates a constraint. *)
Definition execute (stmt : db -> db + exn) : M unit :=
  statement ;;
  fun c =>
    match stmt (working c) with
    | inl w => set_working w c
    | inr e => (inr e, c)
    end.

(** [conn.commit()] *)
Definition commit : M unit :=
  statement ;;
  fun c => (inl tt, {| committed := working c; working := working c;
                       executed := executed c; raises_at := raises_at c;
                       log := log c |}).

(** [conn.rollback()] *)
Definition rollback : M unit :=
  fun c => (inl tt, {| committed := committed c; working := committed c;
                       executed := executed c; raises_at := raises_at c;
                       log := log c |}).

(** [logging.<level>(...)] *)
Definition logging (lvl : log_level) (ev : log_event) : M unit :=
  fun c => (inl tt, {| committed := committed c; working := working c;
                       executed := executed c; raises_at := raises_at c;
                       log := log c ++ [(lvl, ev)] |}).

(** [for x in l: body(x)] *)
Fixpoint for_each {A} (l : list A) (body : A -> M unit) : M unit :=
  match l with
  | [] => ret tt
  | x :: r => body x ;; for_each r body
  end.

(** What a call leaves behind once its connection is closed, or, for the
    long-lived [self.conn], once the call has committed or rolled back. *)
Record outcome (A : Type) := {
  result : A + exn;           (* the returned value, or the exception that
                                 escapes the call *)
  db_after : db;
  log_after : log_t
}.
Arguments result {A} _.
Arguments db_after {A} _.
Arguments log_after {A} _.

Definition run {A} (m : M A) (fault : option nat) (s : db) (l : log_t)
  : outcome A :=
  let '(r, c) := m (connect s fault l) in
  {| result := r; db_after := committed c; log_after := log c |}.

(* ===================================================================== *)
(** ** The SQL statements of create_index.py *)
(* ===================================================================== *)

(** The dictionary [file_info] built by [_process_file]. *)
Module file_info.
Record t := {
  file_path : string;
  file_name : string;
  file_extension : string;
  file_size : nat;
  created_at : time;
  modified_at : time;
  indexed_at : time;
  checksum : option string;
  processing_status : processing_status_t;
  markdown_content : option string;
  error_message : option string
}.
End file_info.

(** The dictionary [dir_info] built by [_process_directory]. *)
Module dir_info.
Record t := {
  dir_path : string;
  dir_name : string;
  parent_dir_path : string;
  depth : nat;
  created_at : time;
  modified_at : time;
  indexed_at : time
}.
End dir_info.

(** [INSERT OR REPLACE] on a table with a UNIQUE path column: the row that
    holds the path [p] is deleted and the row [new] is written. *)
Definition replace_row {A} (key : A -> string) (p : string) (new : A)
    (rows : list A) : list A :=
  filter (fun r => negb (String.eqb (key r) p)) rows ++ [new].


Module Sql.

(** [SELECT extension FROM file_formats WHERE is_enabled = TRUE] *)
Definition select_enabled_extensions (s : db) : list string :=
  map ff_extension (filter ff_is_enabled (file_formats s)).

(** The row that [INSERT OR REPLACE INTO files (file_path, file_name,
    file_extension, file_size, created_at, modified_at, indexed_at, checksum,
    markdown_content, processing_status, error_message) VALUES (...)] writes;
    the columns not listed are NULL. *)
Definition files_values (id : nat) (fi : file_info.t) : files_row :=
  {| f_id := id;
     f_file_path := file_info.file_path fi;
     f_file_name := file_info.file_name fi;
     f_file_extension := Some (file_info.file_extension fi);
     f_file_size := Some (file_info.file_size fi);
     f_created_at := Some (file_info.created_at fi);
     f_modified_at := Some (file_info.modified_at fi);
     f_indexed_at := Some (file_info.indexed_at fi);
     f_checksum := file_info.checksum fi;
     f_markdown_content := file_info.markdown_content fi;
     f_content_summary := None;
     f_processing_status := Some (file_info.processing_status fi);
     f_error_message := file_info.error_message fi;
     f_last_summary_update := None |}.

(** [INSERT OR REPLACE INTO files]: the rowid is chosen first, then the row
    that holds the same [file_path] is deleted, then the new row is
    written. *)
Definition insert_or_replace_file (fi : file_info.t) (s : db) : db :=
  let id := new_rowid f_id (files s) in
  set_files
    (replace_row f_file_path (file_info.file_path fi) (files_values id fi)
                 (files s))
    s.

(** [SELECT id FROM files WHERE file_path = ?] *)
Definition select_file_id (path : string) (s : db) : option nat :=
  option_map f_id
    (find (fun r => String.eqb (f_file_path r) path) (files s)).

(** [SELECT * FROM files WHERE file_path = ?] *)
Definition select_file (path : string) (s : db) : option files_row :=
  find (fun r => String.eqb (f_file_path r) path) (files s).

(** [SELECT * FROM directories WHERE dir_path = ?] *)
Definition select_directory (path : string) (s : db)
  : option directories_row :=
  find (fun r => String.eqb (d_dir_path r) path) (directories s).

(** The row that [INSERT INTO processing_queue (file_id, status, created_at)
    VALUES (?, 'pending', ?)] writes; [priority] takes its default, the other
    columns not listed are NULL. *)
Definition queue_values (id file_id : nat) (now : time)
  : processing_queue_row :=
  {| q_id := id; q_file_id := file_id; q_priority := 0; q_status := "pending";
     q_created_at := Some now; q_started_at := None; q_completed_at := None;
     q_error_message := None |}.


(** [INSERT INTO processing_queue (file_id, status, created_at)
     VALUES ((SELECT id FROM files WHERE file_path = ?), 'pending', ?)] *)
Definition insert_queue (path : string) (now : time) (s : db) : db + exn :=
  match select_file_id path s with
  | None =>
      inr (IntegrityError "NOT NULL constraint failed: processing_queue.file_id")
  | Some fid =>
      inl (set_processing_queue
             (processing_queue s
              ++ [queue_values (new_rowid q_id (processing_queue s)) fid now])
             s)
  end.

(** The row that [INSERT OR REPLACE INTO directories (dir_path, dir_name,
    parent_dir_path, depth, created_at, modified_at, indexed_at)
    VALUES (...)] writes; [status] takes its default, the other columns not
    listed are NULL. *)
Definition directories_values (id : nat) (di : dir_info.t) : directories_row :=
  {| d_id := id;
     d_dir_path := dir_info.dir_path di;
     d_dir_name := dir_info.dir_name di;
     d_parent_dir_path := Some (dir_info.parent_dir_path di);
     d_depth := Some (dir_info.depth di);
     d_created_at := Some (dir_info.created_at di);
     d_modified_at := Some (dir_info.modified_at di);
     d_indexed_at := Some (dir_info.indexed_at di);
     d_title := None;
     d_status := Some "active";
     d_owner := None;
     d_last_documented_at := None |}.

(** [INSERT OR REPLACE INTO directories]: as for [files]. *)
Definition insert_or_replace_directory (di : dir_info.t) (s : db) : db :=
  let id := new_rowid d_id (directories s) in
  set_directories
    (replace_row d_dir_path (dir_info.dir_path di) (directories_values id di)
                 (directories s))
    s.

(** [SELECT id FROM directories WHERE dir_path = ?], then [fetchone()] *)
Definition select_directory_id (path : string) (s : db) : option nat :=
  option_map d_id
    (find (fun r => String.eqb (d_dir_path r) path) (directories s)).

Definition docs_of (dir_id : nat) (s : db) : list directory_docs_row :=
  filter (fun r => Nat.eqb (dd_directory_id r) dir_id) (directory_docs s).

(** [SELECT MAX(version) FROM directory_docs WHERE directory_id = ?]:
    NULL when no row matches. *)
Definition select_max_version (dir_id : nat) (s : db) : option nat :=
  match docs_of dir_id s with
  | [] => None
  | rows => Some (max_rowid dd_version rows)
  end.

Definition clear_current (r : directory_docs_row) : directory_docs_row :=
  {| dd_id := dd_id r; dd_directory_id := dd_directory_id r;
     dd_version := dd_version r; dd_title := dd_title r;
     dd_description := dd_description r; dd_purpose := dd_purpose r;
     dd_guidelines := dd_guidelines r; dd_created_at := dd_created_at r;
     dd_created_by := dd_created_by r; dd_is_current := false;
     dd_metadata := dd_metadata r |}.

(** [UPDATE directory_docs SET is_current = FALSE WHERE directory_id = ?] *)
Definition update_not_current (dir_id : nat) (s : db) : db :=
  set_directory_docs
    (map (fun r => if Nat.eqb (dd_directory_id r) dir_id
                   then clear_current r else r)
         (directory_docs s))
    s.

(** [INSERT INTO directory_docs (directory_id, version, title, description,
     purpose, guidelines, created_at, created_by, is_current)
     VALUES (?, ?, ?, ?, ?, ?, ?, ?, TRUE)] *)
Definition insert_directory_doc (dir_id version : nat)
    (title description purpose guidelines : option string) (now : time)
    (created_by : option string) (s : db) : db + exn :=
  match title with
  | None => inr (IntegrityError "NOT NULL constraint failed: directory_docs.title")
  | Some t =>
      if existsb (fun r => andb (Nat.eqb (dd_directory_id r) dir_id)
                                (Nat.eqb (dd_version r) version))
                 (directory_docs s)
      then inr (IntegrityError
                  "UNIQUE constraint failed: directory_docs.directory_id, directory_docs.version")
      else
        inl (set_directory_docs
               (directory_docs s
                ++ [ {| dd_id := new_rowid dd_id (directory_docs s);
                        dd_directory_id := dir_id;
                        dd_version := version;
                        dd_title := t;
                        dd_description := description;
                        dd_purpose := purpose;
                        dd_guidelines := guidelines;
                        dd_created_at := Some now;
                        dd_created_by := created_by;
                        dd_is_current := true;
                        dd_metadata := None |} ])
               s)
  end.

Definition stamp (now : time) (r : directories_row) : directories_row :=
  {| d_id := d_id r; d_dir_path := d_dir_path r; d_dir_name := d_dir_name r;
     d_parent_dir_path := d_parent_dir_path r; d_depth := d_depth r;
     d_created_at := d_created_at r; d_modified_at := d_modified_at r;
     d_indexed_at := d_indexed_at r; d_title := d_title r;
     d_status := d_status r; d_owner := d_owner r;
     d_last_documented_at := Some now |}.

(** [UPDATE directories SET last_documented_at = ? WHERE id = ?] *)
Definition update_last_documented_at (now : time) (dir_id : nat) (s : db)
  : db :=
  set_directories
    (map (fun r => if Nat.eqb (d_id r) dir_id then stamp now r else r)
         (directories s))
    s.

(** [INSERT OR IGNORE INTO directory_tags (directory_id, tag_name,
     created_at, created_by) VALUES (?, ?, ?, ?)]: a row that would break
    UNIQUE (directory_id, tag_name) is dropped without an error. *)
Definition insert_or_ignore_tag (dir_id : nat) (tag : string) (now : time)
    (created_by : option string) (s : db) : db :=
  if existsb (fun r => andb (Nat.eqb (dt_directory_id r) dir_id)
                            (String.eqb (dt_tag_name r) tag))
             (directory_tags s)
  then s
  else set_directory_tags
         (directory_tags s
          ++ [ {| dt_id := new_rowid dt_id (directory_tags s);
                  dt_directory_id := dir_id;
                  dt_tag_name := tag;
                  dt_created_at := Some now;
                  dt_created_by := created_by |} ])
         s.

(** The rows of [SELECT d1.id, d2.id FROM directories d1, directories d2
    WHERE d1.dir_path = ? AND d2.dir_path = ?]. *)
Definition select_endpoints (source_path target_path : string) (s : db)
  : list (nat * nat) :=
  flat_map
    (fun d1 =>
       map (fun d2 => (d_id d1, d_id d2))
           (filter (fun r => String.eqb (d_dir_path r) target_path)
                   (directories s)))
    (filter (fun r => String.eqb (d_dir_path r) source_path)
            (directories s)).

Definition append_relation (relation_type : string)
    (description : option string) (now : time)
    (rows : list directory_relations_row) (ends : nat * nat)
  : list directory_relations_row :=
  rows ++ [ {| dr_id := new_rowid dr_id rows;
               dr_source_dir_id := fst ends;
               dr_target_dir_id := snd ends;
               dr_relation_type := relation_type;
               dr_description := description;
               dr_created_at := Some now |} ].

(** [INSERT INTO directory_relations (source_dir_id, target_dir_id,
     relation_type, description, created_at)
     SELECT d1.id, d2.id, ?, ?, ? FROM directories d1, directories d2
     WHERE d1.dir_path = ? AND d2.dir_path = ?]: one row per selected
    pair; the NOT NULL check on [relation_type] runs per inserted row. *)
Definition insert_select_relation (relation_type description : option string)
    (now : time) (source_path target_path : string) (s : db) : db + exn :=
  match select_endpoints source_path target_path s, relation_type with
  | [], _ => inl s
  | _ :: _, None =>
      inr (IntegrityError
             "NOT NULL constraint failed: directory_relations.relation_type")
  | ends, Some t =>
      inl (set_directory_relations
             (fold_left (append_relation t description now) ends
                        (directory_relations s))
             s)
  end.

End Sql.

(* ===================================================================== *)
(** ** The world outside: file system and converter *)
(* ===================================================================== *)

(** The fields of [os.stat_result] the code reads. *)
Record stat_result := {
  st_size : nat;
  st_ctime : time;
  st_mtime : time
}.

(** What [self.md.convert(path)] does: it returns a result whose
    [text_content] is stored, or raises the converter's
    [UnsupportedFormatException], or raises something else.  The text is the
    [str] of the exception. *)
Inductive convert_outcome :=
| Converted (text_content : string)
| UnsupportedFormatException (e : string)
| ConvertException (e : string).

(** What the program observes of the file system during one run.  The
    path probes [exists], [rglob], [is_file] and [is_dir] are given by their
    answers; the runs in which one of them raises instead are those of
    [index_directory_probed] below. *)
Record filesystem := {
  path_exists : string -> bool;            (* Path.exists() *)
  rglob : string -> list string;           (* Path.rglob('*'), in its order *)
  is_file : string -> bool;                (* Path.is_file() *)
  is_dir : string -> bool;                 (* Path.is_dir() *)
  os_stat : string -> option stat_result;  (* None: os.stat raises *)
  md5_hexdigest : string -> option string; (* None: open or read raises *)
  md_convert : string -> convert_outcome
}.

(* ===================================================================== *)
(** ** class FileIndexer *)
(* ===================================================================== *)

(** [FileIndexer._get_supported_formats]: a set of extensions. *)
Definition _get_supported_formats (s : db) : list string :=
  Sql.select_enabled_extensions s.

(** The attributes of a [FileIndexer] that the methods read;
    [self.conn] and [self.db_path] are the database threaded below. *)
Record FileIndexer := {
  supported_formats : list string
}.

(** [FileIndexer.__init__]: the database is created when its file does not
    exist, then the enabled formats are loaded once. *)
Definition FileIndexer_init (existing : option db) : FileIndexer * db :=
  let s := match existing with Some s => s | None => init_database end in
  ({| supported_formats := _get_supported_formats s |}, s).

(** [FileIndexer._calculate_checksum] *)
Definition _calculate_checksum (fs : filesystem) (file_path : string)
  : option string * log_t :=
  match md5_hexdigest fs file_path with
  | Some digest => (Some digest, [])
  | None => (None, [(ERROR, ChecksumError file_path)])
  end.

Definition with_outcome (fi : file_info.t) (status : processing_status_t)
    (markdown : option string) (error : option string) : file_info.t :=
  {| file_info.file_path := file_info.file_path fi;
     file_info.file_name := file_info.file_name fi;
     file_info.file_extension := file_info.file_extension fi;
     file_info.file_size := file_info.file_size fi;
     file_info.created_at := file_info.created_at fi;
     file_info.modified_at := file_info.modified_at fi;
     file_info.indexed_at := file_info.indexed_at fi;
     file_info.checksum := file_info.checksum fi;
     file_info.processing_status := status;
     file_info.markdown_content := markdown;
     file_info.error_message := error |}.

(** [FileIndexer._process_file]: [None] is the [return None] of the outer
    handler (lines 108-110).

    When [self.md.convert] raises, Python looks for a handler and first
    evaluates the expression of line 93, [self.md.UnsupportedFormatException].
    [self.md] is a [MarkItDown] instance, and the exception classes of the
    package are module-level names, not attributes of that class: the
    attribute lookup raises [AttributeError].  An exception raised while a
    handler is being selected leaves the whole [try] statement, so neither
    handler body (lines 94-96 and 98-100) runs; the outer handler logs the
    error and returns [None], whatever the converter raised. *)
Definition _process_file (fs : filesystem) (self : FileIndexer)
    (file_path : string) (now : time) : option file_info.t * log_t :=
  match os_stat fs file_path with
  | None => (None, [(ERROR, ProcessFileError file_path)])
  | Some file_stat =>
      let file_ext := Py.lstrip_dot (Py.lower (Py.suffix file_path)) in
      let '(digest, l) := _calculate_checksum fs file_path in
      let file_info :=
        {| file_info.file_path := file_path;
           file_info.file_name := Py.name file_path;
           file_info.file_extension := file_ext;
           file_info.file_size := st_size file_stat;
           file_info.created_at := st_ctime file_stat;
           file_info.modified_at := st_mtime file_stat;
           file_info.indexed_at := now;
           file_info.checksum := digest;
           file_info.processing_status := skipped;
           file_info.markdown_content := None;
           file_info.error_message := None |} in
      if Py.mem file_ext (supported_formats self) then
        match md_convert fs file_path with
        | Converted text_content =>
            (Some (with_outcome file_info processed (Some text_content) None),
             l)
        | UnsupportedFormatException _ | ConvertException _ =>
            (None, l ++ [(ERROR, ProcessFileError file_path)])
        end
      else
        (Some (with_outcome file_info skipped None
                 (Some (String.append "Unsupported file format: ." file_ext))),
         l ++ [(DEBUG, SkippingFormat file_path)])
  end.

(** [FileIndexer._save_to_db] *)
Definition _save_to_db (fi : file_info.t) (now : time) : M unit :=
  try_except
    (execute (fun s => inl (Sql.insert_or_replace_file fi s)) ;;
     (if processing_status_eqb (file_info.processing_status fi) processed
      then execute (Sql.insert_queue (file_info.file_path fi) now)
      else ret tt) ;;
     commit)
    (fun e => logging ERROR (SaveError e) ;; rollback).

(** [FileIndexer._process_directory] *)
Definition _process_directory (fs : filesystem) (dir_path : string)
    (now : time) : M unit :=
  try_except
    (match os_stat fs dir_path with
     | None => raise OSError
     | Some dir_stat =>
         let dir_info :=
           {| dir_info.dir_path := dir_path;
              dir_info.dir_name := Py.name dir_path;
              dir_info.parent_dir_path := Py.parent dir_path;
              dir_info.depth := Py.parts_len dir_path;
              dir_info.created_at := st_ctime dir_stat;
              dir_info.modified_at := st_mtime dir_stat;
              dir_info.indexed_at := now |} in
         execute (fun s => inl (Sql.insert_or_replace_directory dir_info s)) ;;
         commit
     end)
    (fun e => logging ERROR (ProcessDirectoryError dir_path e) ;; rollback).

(** The state of the loop of [index_directory]. *)
Record run_state := {
  rs_db : db;
  rs_log : log_t;
  rs_processed : nat;
  rs_skipped : nat;
  rs_failed : nat
}.

Definition count_status (status : processing_status_t) (r : run_state)
    (s : db) (l : log_t) : run_state :=
  match status with
  | processed =>
      {| rs_db := s; rs_log := l; rs_processed := S (rs_processed r);
         rs_skipped := rs_skipped r; rs_failed := rs_failed r |}
  | skipped =>
      {| rs_db := s; rs_log := l; rs_processed := rs_processed r;
         rs_skipped := S (rs_skipped r); rs_failed := rs_failed r |}
  | failed =>
      {| rs_db := s; rs_log := l; rs_processed := rs_processed r;
         rs_skipped := rs_skipped r; rs_failed := S (rs_failed r) |}
  end.

Definition with_db_log (r : run_state) (s : db) (l : log_t) : run_state :=
  {| rs_db := s; rs_log := l; rs_processed := rs_processed r;
     rs_skipped := rs_skipped r; rs_failed := rs_failed r |}.

(** The body of [for path in root_path.rglob('*')].  [faults path] is the
    statement at which SQLite raises while [path] is written, if any; the
    clock advances by one reading per entry.  The result is [inr e] when an
    exception leaves the body. *)
Definition index_entry (fs : filesystem) (self : FileIndexer)
    (faults : string -> option nat) (path : string) (now : time)
    (r : run_state) : (unit + exn) * run_state :=
  if is_file fs path then
    let '(file_info, l) := _process_file fs self path now in
    match file_info with
    | Some fi =>
        let o := run (_save_to_db fi now) (faults path) (rs_db r)
                     (rs_log r ++ l) in
        (result o,
         match result o with
         | inl _ => count_status (file_info.processing_status fi) r
                                 (db_after o) (log_after o)
         | inr _ => with_db_log r (db_after o) (log_after o)
         end)
    | None => (inl tt, with_db_log r (rs_db r) (rs_log r ++ l))
    end
  else if is_dir fs path then
    let o := run (_process_directory fs path now) (faults path) (rs_db r)
                 (rs_log r) in
    (result o, with_db_log r (db_after o) (log_after o))
  else (inl tt, r).

Fixpoint index_loop (fs : filesystem) (self : FileIndexer)
    (faults : string -> option nat) (paths : list string) (now : time)
    (r : run_state) : (unit + exn) * run_state :=
  match paths with
  | [] => (inl tt, r)
  | path :: rest =>
      match index_entry fs self faults path now r with
      | (inl _, r') => index_loop fs self faults rest (S now) r'
      | (inr e, r') => (inr e, r')
      end
  end.

(** [FileIndexer.index_directory], the path probes returning. *)
Definition index_directory (fs : filesystem) (self : FileIndexer)
    (faults : string -> option nat) (root_path : string) (now : time)
    (s : db) (l : log_t) : (unit + exn) * run_state :=
  let r0 := {| rs_db := s; rs_log := l; rs_processed := 0; rs_skipped := 0;
               rs_failed := 0 |} in
  if negb (path_exists fs root_path) then
    (inl tt, with_db_log r0 s (l ++ [(ERROR, PathDoesNotExist root_path)]))
  else
    let total_files := List.length (filter (is_file fs) (rglob fs root_path)) in
    let l1 := l ++ [(INFO, StartingIndexing root_path);
                    (INFO, TotalFilesFound total_files)] in
    match index_loop fs self faults (rglob fs root_path) now
                     (with_db_log r0 s l1) with
    | (inl _, r) =>
        (inl tt,
         with_db_log r (rs_db r)
           (rs_log r ++ [(INFO, IndexingCompleted);
                         (INFO, Summary total_files (rs_processed r)
                                        (rs_skipped r) (rs_failed r))]))
    | (inr e, r) => (inr e, r)
    end.

(** [FileIndexer.add_directory_documentation] *)
Definition add_directory_documentation (dir_path : string)
    (title description purpose guidelines created_by : option string)
    (now : time) : M bool :=
  try_except
    (found <- query (Sql.select_directory_id dir_path) ;;
     match found with
     | None => logging ERROR (DirectoryNotFound dir_path) ;; ret false
     | Some dir_id =>
         max_version <- query (Sql.select_max_version dir_id) ;;
         let current_version :=
           match max_version with Some v => v | None => 0 end in
         let next_version := current_version + 1 in
         execute (fun s => inl (Sql.update_not_current dir_id s)) ;;
         execute (Sql.insert_directory_doc dir_id next_version title
                    description purpose guidelines now created_by) ;;
         execute (fun s => inl (Sql.update_last_documented_at now dir_id s)) ;;
         commit ;;
         logging INFO (AddedDocumentation next_version dir_path) ;;
         ret true
     end)
    (fun e => logging ERROR (DocumentationError e) ;; rollback ;; ret false).

(** [FileIndexer.add_directory_tags] *)
Definition add_directory_tags (dir_path : string) (tags : list string)
    (created_by : option string) (now : time) : M bool :=
  try_except
    (found <- query (Sql.select_directory_id dir_path) ;;
     match found with
     | None => logging ERROR (DirectoryNotFound dir_path) ;; ret false
     | Some dir_id =>
         for_each tags
           (fun tag =>
              execute (fun s =>
                         inl (Sql.insert_or_ignore_tag dir_id tag now
                                                       created_by s))) ;;
         commit ;;
         logging INFO (AddedTags tags dir_path) ;;
         ret true
     end)
    (fun e => logging ERROR (TagsError e) ;; rollback ;; ret false).

(** [FileIndexer.add_directory_relation] *)
Definition add_directory_relation (source_path target_path : string)
    (relation_type description : option string) (now : time) : M bool :=
  try_except
    (execute (Sql.insert_select_relation relation_type description now
                source_path target_path) ;;
     commit ;;
     logging INFO (AddedRelation relation_type source_path target_path) ;;
     ret true)
    (fun e => logging ERROR (RelationError e) ;; rollback ;; ret false).

(* ===================================================================== *)
(** ** What each call leaves in the database *)
(* ===================================================================== *)

(** The tables after a [_save_to_db] that commits. *)
Definition saved (fi : file_info.t) (now : time) (s : db) : db :=
  let s1 := Sql.insert_or_replace_file fi s in
  if processing_status_eqb (file_info.processing_status fi) processed then
    set_processing_queue
      (processing_queue s
       ++ [Sql.queue_values (new_rowid q_id (processing_queue s))
                            (new_rowid f_id (files s)) now])
      s1
  else s1.

(** The tables after a [_process_directory] that commits. *)
Definition directory_saved (dir_path : string) (dir_stat : stat_result)
    (now : time) (s : db) : db :=
  Sql.insert_or_replace_directory
    {| dir_info.dir_path := dir_path;
       dir_info.dir_name := Py.name dir_path;
       dir_info.parent_dir_path := Py.parent dir_path;
       dir_info.depth := Py.parts_len dir_path;
       dir_info.created_at := st_ctime dir_stat;
       dir_info.modified_at := st_mtime dir_stat;
       dir_info.indexed_at := now |} s.

(** The tables after [add_directory_tags] has run its loop and committed. *)
Definition tagged (dir_id : nat) (tags : list string) (now : time)
    (created_by : option string) (s : db) : db :=
  fold_left (fun w tag => Sql.insert_or_ignore_tag dir_id tag now created_by w)
            tags s.

(** The version number [add_directory_documentation] gives to its row. *)
Definition next_version (dir_id : nat) (s : db) : nat :=
  match Sql.select_max_version dir_id s with Some v => v | None => 0 end + 1.

(** The connection after one more statement that left [w] in the working copy. *)
Definition after_statement (c : session) (w : db) : session :=
  {| committed := committed c; working := w; executed := S (executed c);
     raises_at := raises_at c; log := log c |}.

(* ===================================================================== *)
(** ** A small tree used to run the model *)
(* ===================================================================== *)

(** [/data] holds a text file, a file of an unknown format, a text file whose
    content cannot be read, a file that vanishes before [os.stat], and a
    sub-directory. *)
Definition demo_fs : filesystem :=
  {| path_exists := fun p => String.eqb p "/data";
     rglob := fun _ => ["/data/a.txt"; "/data/b.xyz"; "/data/locked.txt";
                        "/data/gone.txt"; "/data/docs"];
     is_file := fun p => negb (String.eqb p "/data/docs");
     is_dir := fun p => String.eqb p "/data/docs";
     os_stat := fun p =>
       if String.eqb p "/data/gone.txt" then None
       else Some {| st_size := 3; st_ctime := 10; st_mtime := 20 |};
     md5_hexdigest := fun p =>
       if String.eqb p "/data/locked.txt" then None
       else Some "900150983cd24fb0d6963f7d28e17f72";
     md_convert := fun _ => Converted "abc" |}.


(** A fresh indexer: no database file yet. *)
Definition demo_indexer : FileIndexer := fst (FileIndexer_init None).

Definition no_faults : string -> option nat := fun _ => None.

(** The catalog after one run, and after a second run, over [demo_fs]. *)
Definition demo_run1 : run_state :=
  snd (index_directory demo_fs demo_indexer no_faults "/data" 100
                       init_database []).

Definition demo_run2 : run_state :=
  snd (index_directory demo_fs demo_indexer no_faults "/data" 200
                       (rs_db demo_run1) (rs_log demo_run1)).



(** Every queue row points at a row of [files]: the foreign key
    [processing_queue.file_id REFERENCES files(id)], as a check. *)
Definition queue_references_files (s : db) : bool :=
  forallb (fun q => existsb (fun f => Nat.eqb (f_id f) (q_file_id q)) (files s))
          (processing_queue s).


(** [SELECT COUNT( * ) FROM directory_tags
     WHERE directory_id = ? AND tag_name = ?] *)
Definition count_tag (dir_id : nat) (tag : string) (s : db) : nat :=
  List.length
    (filter (fun r => andb (Nat.eqb (dt_directory_id r) dir_id)
                           (String.eqb (dt_tag_name r) tag))
            (directory_tags s)).

(** The constraint UNIQUE (directory_id, tag_name) of [directory_tags]. *)
Definition tags_unique (s : db) : Prop :=
  forall dir_id tag, count_tag dir_id tag s <= 1.


(** The arguments of one call of [add_directory_documentation] and the clock
    reading of the call. *)
Record doc_call := {
  dc_title : option string;
  dc_description : option string;
  dc_purpose : option string;
  dc_guidelines : option string;
  dc_created_by : option string;
  dc_now : time
}.

(** Successive calls of [add_directory_documentation] for one path, SQLite
    never raising: what each call returned, and the database in the end. *)
Fixpoint document (dir_path : string) (calls : list doc_call) (s : db)
  : list (bool + exn) * db :=
  match calls with
  | [] => ([], s)
  | c :: rest =>
      let o := run (add_directory_documentation dir_path (dc_title c)
                      (dc_description c) (dc_purpose c) (dc_guidelines c)
                      (dc_created_by c) (dc_now c)) None s [] in
      let '(results, s') := document dir_path rest (db_after o) in
      (result o :: results, s')
  end.

(** Version and current flag of the documentation rows of a directory, in
    insertion order. *)
Definition versions_of (dir_id : nat) (s : db) : list (nat * bool) :=
  map (fun r => (dd_version r, dd_is_current r)) (Sql.docs_of dir_id s).

(** Versions [1..n] with only version [n] current. *)
Definition versions_upto (n : nat) : list (nat * bool) :=
  map (fun v => (v, Nat.eqb v n)) (seq 1 n).

(** [SELECT title FROM directory_docs
     WHERE directory_id = ? AND is_current = TRUE] *)
Definition current_titles (dir_id : nat) (s : db) : list string :=
  map dd_title (filter dd_is_current (Sql.docs_of dir_id s)).


(** Three calls used to run [document]. *)
Definition demo_calls : list doc_call :=
  [ {| dc_title := Some "First"; dc_description := None; dc_purpose := None;
       dc_guidelines := None; dc_created_by := Some "system"; dc_now := 300 |};
    {| dc_title := Some "Second"; dc_description := Some "notes";
       dc_purpose := None; dc_guidelines := None;
       dc_created_by := Some "system"; dc_now := 310 |};
    {| dc_title := Some "Third"; dc_description := None; dc_purpose := None;
       dc_guidelines := None; dc_created_by := Some "system"; dc_now := 320 |} ].

(** The catalog states the program can produce: the freshly initialised
    database, and what any call of a writing method leaves behind, whatever
    its arguments and whether or not SQLite raises during the call. *)
Inductive reachable : db -> Prop :=
| reach_init : reachable init_database
| reach_save_to_db (fi : file_info.t) (now : time) (fault : option nat)
    (s : db) (l : log_t) :
    reachable s ->
    reachable (db_after (run (_save_to_db fi now) fault s l))
| reach_process_directory (fs : filesystem) (dir_path : string) (now : time)
    (fault : option nat) (s : db) (l : log_t) :
    reachable s ->
    reachable (db_after (run (_process_directory fs dir_path now) fault s l))
| reach_documentation (dir_path : string)
    (title description purpose guidelines created_by : option string)
    (now : time) (fault : option nat) (s : db) (l : log_t) :
    reachable s ->
    reachable (db_after (run (add_directory_documentation dir_path title
                                description purpose guidelines created_by now)
                             fault s l))
| reach_tags (dir_path : string) (tags : list string)
    (created_by : option string) (now : time) (fault : option nat) (s : db)
    (l : log_t) :
    reachable s ->
    reachable (db_after (run (add_directory_tags dir_path tags created_by now)
                             fault s l))
| reach_relation (source_path target_path : string)
    (relation_type description : option string) (now : time)
    (fault : option nat) (s : db) (l : log_t) :
    reachable s ->
    reachable (db_after (run (add_directory_relation source_path target_path
                                relation_type description now) fault s l)).

(** The UNIQUE constraints on paths and on tags. *)
Definition paths_unique (s : db) : Prop :=
  NoDup (map f_file_path (files s)) /\ NoDup (map d_dir_path (directories s)).

(** [SELECT checksum FROM files WHERE file_path = ?] *)
Definition checksum_of (path : string) (s : db) : option (option string) :=
  option_map f_checksum (Sql.select_file path s).

(** A loop that visits the paths [L] in order, one clock reading per path,
    and applies [step] to one table. *)
Fixpoint steps {A} (step : string -> time -> list A -> list A)
    (L : list string) (t : time) (rows : list A) : list A :=
  match L with
  | [] => rows
  | p :: rest => steps step rest (S t) (step p t rows)
  end.

(** What one entry of a run does to [files] when SQLite does not raise. *)
Definition file_step (fs : filesystem) (self : FileIndexer) (p : string)
    (t : time) (rows : list files_row) : list files_row :=
  if is_file fs p then
    match fst (_process_file fs self p t) with
    | Some fi =>
        replace_row f_file_path (file_info.file_path fi)
                    (Sql.files_values (new_rowid f_id rows) fi) rows
    | None => rows
    end
  else rows.

(** What one entry of a run does to [directories] when SQLite does not
    raise. *)
Definition dir_step (fs : filesystem) (p : string) (t : time)
    (rows : list directories_row) : list directories_row :=
  if is_file fs p then rows
  else if is_dir fs p then
    match os_stat fs p with
    | Some dir_stat =>
        replace_row d_dir_path p
          (Sql.directories_values (new_rowid d_id rows)
             {| dir_info.dir_path := p;
                dir_info.dir_name := Py.name p;
                dir_info.parent_dir_path := Py.parent p;
                dir_info.depth := Py.parts_len p;
                dir_info.created_at := st_ctime dir_stat;
                dir_info.modified_at := st_mtime dir_stat;
                dir_info.indexed_at := t |})
          rows
    | None => rows
    end
  else rows.

(** [file_ext in self.supported_formats] for the extension of [p]. *)
Definition enabled_format (self : FileIndexer) (p : string) : bool :=
  Py.mem (Py.lstrip_dot (Py.lower (Py.suffix p))) (supported_formats self).

(** [convertible fs self p]: [_process_file] gets past the conversion, the
    extension of [p] being disabled or the converter returning. *)
Definition convertible (fs : filesystem) (self : FileIndexer) (p : string)
  : bool :=
  if enabled_format self p
  then match md_convert fs p with Converted _ => true | _ => false end
  else true.

(** The entries of a run that end in a row of [files], and those that end in
    a row of [directories]. *)
Definition file_touch (fs : filesystem) (self : FileIndexer) (p : string)
  : bool :=
  andb (is_file fs p)
       (andb (match os_stat fs p with Some _ => true | None => false end)
             (convertible fs self p)).

Definition dir_touch (fs : filesystem) (p : string) : bool :=
  andb (negb (is_file fs p))
       (andb (is_dir fs p)
             (match os_stat fs p with Some _ => true | None => false end)).

(** The entries for which a run gets a ['processed'] record, and those for
    which it gets a ['skipped'] one. *)
Definition counted_processed (fs : filesystem) (self : FileIndexer)
    (p : string) : bool :=
  andb (file_touch fs self p) (enabled_format self p).

Definition counted_skipped (fs : filesystem) (self : FileIndexer)
    (p : string) : bool :=
  andb (file_touch fs self p) (negb (enabled_format self p)).


(* ===================================================================== *)
(** ** schema.py: init_database as a call on any database file *)
(* ===================================================================== *)

Module Schema.

(** The statements that build the schema.  All are IF NOT EXISTS: a table
    or index that is there is left as it is. *)
Inductive ddl :=
| CreateTable (table : string)
| CreateIndex (index table : string).

Definition schema_ddl : list ddl :=
  [ CreateTable "files"; CreateTable "directories";
    CreateTable "directory_docs"; CreateTable "directory_tags";
    CreateTable "directory_relations"; CreateTable "file_formats";
    CreateTable "processing_queue";
    CreateIndex "idx_file_path" "files";
    CreateIndex "idx_file_ext" "files";
    CreateIndex "idx_dir_path" "directories";
    CreateIndex "idx_parent_dir" "directories";
    CreateIndex "idx_dir_docs" "directory_docs";
    CreateIndex "idx_dir_tags" "directory_tags";
    CreateIndex "idx_dir_relations" "directory_relations" ].

(** [c.execute('CREATE ... IF NOT EXISTS ...')]: the tables of the model are
    always there, so the statement changes no row. *)
Definition execute_ddl (d : ddl) : M unit := execute (fun s => inl s).

(** [INSERT OR IGNORE INTO file_formats (extension, category, description)
     VALUES (?, ?, ?)] *)
Definition seed_format (fmt : string * string * string) (s : db) : db :=
  set_file_formats (insert_or_ignore_format fmt (file_formats s)) s.

(** [init_database(db_path)]: the schema, the seeding loop, the commit, then
    the count read back for the report.  [True] is returned at the end,
    [False] by the handler; the console output is left out. *)
Definition init_database : M bool :=
  try_except
    (for_each schema_ddl execute_ddl ;;
     for_each get_supported_formats
       (fun fmt => execute (fun s => inl (seed_format fmt s))) ;;
     commit ;;
     format_count <- query (fun s => List.length (file_formats s)) ;;
     ret true)
    (fun e => ret false).

End Schema.

(** The database after the seeding loop of [init_database] has committed. *)
Definition seeded (s : db) : db :=
  fold_left (fun w fmt => Schema.seed_format fmt w) get_supported_formats s.

(** [ext in {row.extension for row in file_formats}] *)
Definition registered (ext : string) (rows : list file_formats_row) : bool :=
  existsb (fun r => String.eqb (ff_extension r) ext) rows.

(** The extensions of the built-in list. *)
Definition builtin_extensions : list string :=
  map (fun fmt => fst (fst fmt)) get_supported_formats.


(** [c in s] for a character and a string. *)
Fixpoint has_char (c : ascii) (s : string) : bool :=
  match s with
  | EmptyString => false
  | String a r => orb (Ascii.eqb a c) (has_char c r)
  end.

(** A single component: text without separator that pathlib keeps. *)
Definition component (x : string) : Prop :=
  has_char "/"%char x = false /\ Py.kept_part x = true.

(** A registry in which the PDF format has been switched off. *)
Definition demo_registry_off : db :=
  set_file_formats
    [ {| ff_id := 1; ff_extension := "pdf"; ff_category := "document";
         ff_description := Some "PDF Document"; ff_is_enabled := false;
         ff_processing_options := None |} ]
    empty_db.


(** The record of a converted text file. *)
Definition demo_info : file_info.t :=
  {| file_info.file_path := "/data/new.txt";
     file_info.file_name := "new.txt";
     file_info.file_extension := "txt";
     file_info.file_size := 3;
     file_info.created_at := 10;
     file_info.modified_at := 20;
     file_info.indexed_at := 300;
     file_info.checksum := None;
     file_info.processing_status := processed;
     file_info.markdown_content := Some "abc";
     file_info.error_message := None |}.




(** The three counters of a run. *)
Definition counters (r : run_state) : nat * nat * nat :=
  (rs_processed r, rs_skipped r, rs_failed r).

(** What a run leaves alone: the annotation tables and the registry are the
    same, every path that had a row still has one, and the queue has only
    grown at its end. *)
Definition kept (s s' : db) : Prop :=
  directory_docs s' = directory_docs s
  /\ directory_tags s' = directory_tags s
  /\ directory_relations s' = directory_relations s
  /\ file_formats s' = file_formats s
  /\ (forall q, In q (map f_file_path (files s)) ->
                In q (map f_file_path (files s')))
  /\ (forall q, In q (map d_dir_path (directories s)) ->
                In q (map d_dir_path (directories s')))
  /\ exists extra, processing_queue s' = processing_queue s ++ extra.


(* ===================================================================== *)
(** ** Path probes that raise *)
(* ===================================================================== *)

(** [index_directory] calls [Path.exists] (line 189), walks [Path.rglob]
    twice (lines 194 and 205) and asks [Path.is_file] and [Path.is_dir] of
    the entries (lines 194, 206, 217), all outside any [try].  pathlib
    answers [False] for an entry that is not there (ENOENT, ENOTDIR, EBADF,
    ELOOP) and re-raises every other [OSError], [PermissionError] among
    them.  [filesystem] holds the answers of the probes that return;
    [probe_errors] tells where a probe raises instead: at
    [root_path.exists()], at an entry of the counting pass (the step of the
    walk that would yield it, or its [is_file]), or at an entry of the loop
    (the step of the walk, its [is_file] or its [is_dir], all of which come
    before anything is done for the entry).  Entries are numbered from 0 in
    the order of the walk; the number of entries stands for the last step of
    the walk, the one that finds no further entry. *)
Record probe_errors := {
  exists_raises : bool;
  counting_raises : option nat;
  loop_raises : option nat
}.

(** No probe raises. *)
Definition quiet : probe_errors :=
  {| exists_raises := false; counting_raises := None; loop_raises := None |}.

(** The walk over [entries] reaches the probe that raises. *)
Definition raises_within (at_entry : option nat) (entries : list string)
  : bool :=
  match at_entry with
  | Some i => Nat.leb i (List.length entries)
  | None => false
  end.

(** The entries the loop gets to. *)
Definition visited (at_entry : option nat) (entries : list string)
  : list string :=
  match at_entry with
  | Some i => firstn i entries
  | None => entries
  end.

(** [FileIndexer.index_directory] with probes that may raise: [inr OSError]
    is the exception of the probe leaving the call.  With [quiet] probes
    this is [index_directory]. *)
Definition index_directory_probed (fs : filesystem) (pe : probe_errors)
    (self : FileIndexer) (faults : string -> option nat) (root_path : string)
    (now : time) (s : db) (l : log_t) : (unit + exn) * run_state :=
  let r0 := {| rs_db := s; rs_log := l; rs_processed := 0; rs_skipped := 0;
               rs_failed := 0 |} in
  if exists_raises pe then (inr OSError, r0)
  else if negb (path_exists fs root_path) then
    (inl tt, with_db_log r0 s (l ++ [(ERROR, PathDoesNotExist root_path)]))
  else if raises_within (counting_raises pe) (rglob fs root_path) then
    (inr OSError, r0)
  else
    let total_files := List.length (filter (is_file fs) (rglob fs root_path)) in
    let l1 := l ++ [(INFO, StartingIndexing root_path);
                    (INFO, TotalFilesFound total_files)] in
    match index_loop fs self faults
                     (visited (loop_raises pe) (rglob fs root_path)) now
                     (with_db_log r0 s l1) with
    | (inl _, r) =>
        if raises_within (loop_raises pe) (rglob fs root_path) then
          (inr OSError, r)
        else
          (inl tt,
           with_db_log r (rs_db r)
             (rs_log r ++ [(INFO, IndexingCompleted);
                           (INFO, Summary total_files (rs_processed r)
                                          (rs_skipped r) (rs_failed r))]))
    | (inr e, r) => (inr e, r)
    end.

(** The walk of [demo_fs] fails at its second entry, in the loop. *)
Definition demo_probes : probe_errors :=
  {| exists_raises := false; counting_raises := None; loop_raises := Some 1 |}.

(* ===================================================================== *)
(** ** Properties *)
(* ===================================================================== *)

Ltac run_conn :=
  cbv beta iota zeta delta
    [run connect try_except bind execute query commit rollback logging ret
     raise statement set_working committed working executed raises_at log
     Nat.eqb];
  simpl.

Ltac fault_cases f :=
  destruct f as [[|[|[|[|[|[|?]]]]]]|]; simpl.

Section Lookup.

Context {A : Type} (key : A -> string).

Lemma find_filter_other (p : string) (rows : list A) :
  find (fun r => String.eqb (key r) p)
       (filter (fun r => negb (String.eqb (key r) p)) rows) = None.
Proof.
  induction rows as [|r rows IH]; simpl; [reflexivity|].
  destruct (String.eqb (key r) p) eqn:E; simpl; [exact IH|].
  rewrite E. exact IH.
Qed.

Lemma find_app_none (f : A -> bool) (l1 l2 : list A) :
  find f l1 = None -> find f (l1 ++ l2) = find f l2.
Proof.
  induction l1 as [|r l1 IH]; simpl; [reflexivity|].
  destruct (f r); [discriminate|exact IH].
Qed.

Lemma find_app_some (f : A -> bool) (l1 l2 : list A) (x : A) :
  find f l1 = Some x -> find f (l1 ++ l2) = Some x.
Proof.
  induction l1 as [|r l1 IH]; simpl; [discriminate|].
  destruct (f r); [trivial|exact IH].
Qed.

Lemma find_none_filter (f : A -> bool) (l : list A) :
  find f l = None -> filter f l = [].
Proof.
  induction l as [|r l IH]; simpl; [reflexivity|].
  destruct (f r); [discriminate|exact IH].
Qed.

(** Replacing the row of [p] leaves the row found for another path. *)
Lemma find_replace_other (p q : string) (rows : list A) (new : A) :
  key new = p -> q <> p ->
  find (fun r => String.eqb (key r) q) (replace_row key p new rows)
  = find (fun r => String.eqb (key r) q) rows.
Proof.
  intros Hnew Hq. unfold replace_row.
  induction rows as [|r rows IH]; simpl.
  - rewrite Hnew. destruct (String.eqb_spec p q); [congruence|reflexivity].
  - destruct (String.eqb_spec (key r) p) as [E|E]; simpl.
    + destruct (String.eqb_spec (key r) q); [congruence|exact IH].
    + destruct (String.eqb (key r) q); [reflexivity|exact IH].
Qed.

Lemma find_replace_same (p : string) (rows : list A) (new : A) :
  key new = p ->
  find (fun r => String.eqb (key r) p) (replace_row key p new rows)
  = Some new.
Proof.
  intros Hnew. unfold replace_row. rewrite find_app_none by apply find_filter_other.
  simpl. rewrite Hnew, String.eqb_refl. reflexivity.
Qed.

End Lookup.

Lemma select_file_id_replaced (fi : file_info.t) (s : db) :
  Sql.select_file_id (file_info.file_path fi) (Sql.insert_or_replace_file fi s)
  = Some (new_rowid f_id (files s)).
Proof.
  unfold Sql.select_file_id, Sql.insert_or_replace_file; simpl.
  rewrite (find_replace_same f_file_path); reflexivity.
Qed.

(** [_save_to_db] never lets an exception out; it either commits both
    statements or leaves the database as it was, and it commits when SQLite
    does not raise. *)
Lemma save_to_db_outcome (fi : file_info.t) (now : time) (fault : option nat)
    (s : db) (l : log_t) :
  let o := run (_save_to_db fi now) fault s l in
  result o = inl tt /\
  (db_after o = saved fi now s \/ db_after o = s) /\
  (fault = None -> db_after o = saved fi now s /\ log_after o = l).
Proof.
  unfold _save_to_db, saved.
  destruct (processing_status_eqb (file_info.processing_status fi) processed)
    eqn:E.
  - fault_cases fault; run_conn; unfold Sql.insert_queue;
      rewrite ?select_file_id_replaced; simpl;
      repeat split; auto; try discriminate.
  - fault_cases fault; run_conn; repeat split; auto; try discriminate.
Qed.

Lemma process_directory_outcome (fs : filesystem) (dir_path : string)
    (now : time) (fault : option nat) (s : db) (l : log_t) :
  let o := run (_process_directory fs dir_path now) fault s l in
  result o = inl tt /\
  match os_stat fs dir_path with
  | Some dir_stat =>
      (db_after o = directory_saved dir_path dir_stat now s \/ db_after o = s)
      /\ (fault = None ->
          db_after o = directory_saved dir_path dir_stat now s
          /\ log_after o = l)
  | None => db_after o = s
  end.
Proof.
  unfold _process_directory, directory_saved.
  destruct (os_stat fs dir_path) as [dir_stat|].
  - fault_cases fault; run_conn; repeat split; auto; try discriminate.
  - run_conn. auto.
Qed.

(** [add_directory_documentation] returns a boolean in every case; the
    database is either left as it was, with [False] returned, or holds all
    of the cleared flags, the new row and the time stamp, with [True]
    returned. *)
Lemma add_directory_documentation_outcome (dir_path : string)
    (title description purpose guidelines created_by : option string)
    (now : time) (fault : option nat) (s : db) (l : log_t) :
  let o := run (add_directory_documentation dir_path title description purpose
                  guidelines created_by now) fault s l in
  match Sql.select_directory_id dir_path s with
  | None => result o = inl false /\ db_after o = s
  | Some dir_id =>
      match Sql.insert_directory_doc dir_id (next_version dir_id s) title
              description purpose guidelines now created_by
              (Sql.update_not_current dir_id s) with
      | inl s1 =>
          ((result o = inl true
            /\ db_after o = Sql.update_last_documented_at now dir_id s1)
           \/ (result o = inl false /\ db_after o = s))
          /\ (fault = None ->
              result o = inl true
              /\ db_after o = Sql.update_last_documented_at now dir_id s1)
      | inr _ => result o = inl false /\ db_after o = s
      end
  end.
Proof.
  unfold add_directory_documentation, next_version.
  fault_cases fault; run_conn;
    destruct (Sql.select_directory_id dir_path s) as [dir_id|]; simpl; auto;
    destruct (Sql.insert_directory_doc _ _ _ _ _ _ _ _ _); simpl; auto;
    repeat split; auto; discriminate.
Qed.

Lemma execute_total (f : db -> db) (c : session) :
  execute (fun s => inl (f s)) c =
  match raises_at c with
  | Some k =>
      if Nat.eqb k (executed c)
      then (inr OperationalError, after_statement c (working c))
      else (inl tt, after_statement c (f (working c)))
  | None => (inl tt, after_statement c (f (working c)))
  end.
Proof.
  unfold execute, bind, statement, set_working, after_statement.
  destruct (raises_at c) as [k|]; [destruct (Nat.eqb k (executed c))|];
    reflexivity.
Qed.

(** The loop of [add_directory_tags] touches only the working copy. *)
Lemma for_each_insert_tag (dir_id : nat) (now : time)
    (created_by : option string) (tags : list string) :
  forall (c c' : session) (r : unit + exn),
    for_each tags
      (fun tag =>
         execute (fun s => inl (Sql.insert_or_ignore_tag dir_id tag now
                                                         created_by s))) c
    = (r, c') ->
    committed c' = committed c /\ log c' = log c
    /\ raises_at c' = raises_at c
    /\ (r = inl tt ->
        working c' = tagged dir_id tags now created_by (working c))
    /\ (raises_at c = None -> r = inl tt).
Proof.
  induction tags as [|tag tags IH]; intros c c' r H.
  - cbv [for_each ret] in H. inversion H; subst. simpl. auto.
  - cbn [for_each] in H. unfold bind in H. rewrite execute_total in H.
    destruct (raises_at c) as [k|] eqn:Hk.
    + destruct (Nat.eqb k (executed c)).
      * inversion H; subst; simpl. repeat split; auto; discriminate.
      * apply IH in H. simpl in H.
        destruct H as (H1 & H2 & H3 & H4 & H5).
        repeat split; auto; congruence.
    + apply IH in H. simpl in H.
      destruct H as (H1 & H2 & H3 & H4 & H5).
      repeat split; auto; congruence.
Qed.

Lemma query_total {A} (q : db -> A) (c : session) :
  query q c =
  match raises_at c with
  | Some k =>
      if Nat.eqb k (executed c)
      then (inr OperationalError, after_statement c (working c))
      else (inl (q (working c)), after_statement c (working c))
  | None => (inl (q (working c)), after_statement c (working c))
  end.
Proof.
  unfold query, bind, statement, after_statement.
  destruct (raises_at c) as [k|]; [destruct (Nat.eqb k (executed c))|];
    reflexivity.
Qed.

Lemma commit_total (c : session) :
  commit c =
  match raises_at c with
  | Some k =>
      if Nat.eqb k (executed c)
      then (inr OperationalError, after_statement c (working c))
      else (inl tt, {| committed := working c; working := working c;
                       executed := S (executed c); raises_at := raises_at c;
                       log := log c |})
  | None => (inl tt, {| committed := working c; working := working c;
                        executed := S (executed c); raises_at := raises_at c;
                        log := log c |})
  end.
Proof.
  unfold commit, bind, statement, after_statement.
  destruct (raises_at c) as [k|]; [destruct (Nat.eqb k (executed c))|];
    reflexivity.
Qed.

Lemma add_directory_tags_session (dir_path : string) (tags : list string)
    (created_by : option string) (now : time) (c c' : session)
    (r : bool + exn) :
  add_directory_tags dir_path tags created_by now c = (r, c') ->
  committed c = working c ->
  match Sql.select_directory_id dir_path (working c) with
  | None => r = inl false /\ committed c' = committed c
  | Some dir_id =>
      ((r = inl true
        /\ committed c' = tagged dir_id tags now created_by (working c))
       \/ (r = inl false /\ committed c' = committed c))
      /\ (raises_at c = None ->
          r = inl true
          /\ committed c' = tagged dir_id tags now created_by (working c))
  end.
Proof.
  intros H Hcw.
  unfold add_directory_tags, try_except, bind in H.
  rewrite query_total in H.
  destruct (raises_at c) as [k|] eqn:Hf;
    [destruct (Nat.eqb k (executed c)) eqn:Hk|].
  - cbv [logging rollback ret] in H. simpl in H.
    inversion H; subst; simpl.
    destruct (Sql.select_directory_id dir_path (working c)); auto.
    split; auto. discriminate.
  - destruct (Sql.select_directory_id dir_path (working c)) as [dir_id|].
    + destruct (for_each tags _ _) as [r1 c1] eqn:Hloop in H.
      apply for_each_insert_tag in Hloop.
      cbn [after_statement committed working raises_at log] in Hloop.
      destruct Hloop as (H1 & H2 & H3 & H4 & H5).
      destruct r1 as [[]|e].
      * rewrite commit_total, H3, Hf in H.
        destruct (Nat.eqb k (executed c1));
          cbv [logging rollback ret] in H; simpl in H;
          inversion H; subst; simpl;
          rewrite ?H1, ?H4; split; auto; discriminate.
      * cbv [logging rollback ret] in H; simpl in H.
        inversion H; subst; simpl. rewrite H1. split; auto. discriminate.
    + cbv [logging rollback ret] in H; simpl in H.
      inversion H; subst; simpl. auto.
  - destruct (Sql.select_directory_id dir_path (working c)) as [dir_id|].
    + destruct (for_each tags _ _) as [r1 c1] eqn:Hloop in H.
      apply for_each_insert_tag in Hloop.
      cbn [after_statement committed working raises_at log] in Hloop.
      destruct Hloop as (H1 & H2 & H3 & H4 & H5).
      rewrite (H5 Hf) in H. rewrite commit_total, H3, Hf in H.
      cbv [logging rollback ret] in H; simpl in H.
      inversion H; subst; simpl. rewrite (H4 (H5 Hf)). auto.
    + cbv [logging rollback ret] in H; simpl in H.
      inversion H; subst; simpl. auto.
Qed.

Lemma add_directory_tags_outcome (dir_path : string) (tags : list string)
    (created_by : option string) (now : time) (fault : option nat) (s : db)
    (l : log_t) :
  let o := run (add_directory_tags dir_path tags created_by now) fault s l in
  match Sql.select_directory_id dir_path s with
  | None => result o = inl false /\ db_after o = s
  | Some dir_id =>
      ((result o = inl true
        /\ db_after o = tagged dir_id tags now created_by s)
       \/ (result o = inl false /\ db_after o = s))
      /\ (fault = None ->
          result o = inl true
          /\ db_after o = tagged dir_id tags now created_by s)
  end.
Proof.
  unfold run.
  destruct (add_directory_tags dir_path tags created_by now
              (connect s fault l)) as [r c'] eqn:H.
  apply add_directory_tags_session in H; [|reflexivity].
  exact H.
Qed.

Lemma add_directory_relation_outcome (source_path target_path : string)
    (relation_type description : option string) (now : time)
    (fault : option nat) (s : db) (l : log_t) :
  let o := run (add_directory_relation source_path target_path relation_type
                  description now) fault s l in
  match Sql.insert_select_relation relation_type description now source_path
          target_path s with
  | inl s1 =>
      ((result o = inl true /\ db_after o = s1)
       \/ (result o = inl false /\ db_after o = s))
      /\ (fault = None -> result o = inl true /\ db_after o = s1)
  | inr _ => result o = inl false /\ db_after o = s
  end.
Proof.
  unfold add_directory_relation.
  fault_cases fault; run_conn;
    destruct (Sql.insert_select_relation _ _ _ _ _ _); simpl; auto;
    repeat split; auto; discriminate.
Qed.

(* --------------------------------------------------------------------- *)
(** *** Rows written by [_save_to_db] *)

Lemma files_saved (fi : file_info.t) (now : time) (s : db) :
  files (saved fi now s) = files (Sql.insert_or_replace_file fi s).
Proof.
  unfold saved.
  destruct (processing_status_eqb (file_info.processing_status fi) processed);
    reflexivity.
Qed.

Lemma select_file_saved (fi : file_info.t) (now : time) (s : db) :
  Sql.select_file (file_info.file_path fi) (saved fi now s)
  = Some (Sql.files_values (new_rowid f_id (files s)) fi).
Proof.
  unfold Sql.select_file. rewrite files_saved.
  unfold Sql.insert_or_replace_file; simpl.
  apply (find_replace_same f_file_path). reflexivity.
Qed.

Lemma select_file_saved_other (fi : file_info.t) (now : time) (s : db)
    (q : string) :
  q <> file_info.file_path fi ->
  Sql.select_file q (saved fi now s) = Sql.select_file q s.
Proof.
  intros Hq. unfold Sql.select_file. rewrite files_saved.
  unfold Sql.insert_or_replace_file; simpl.
  apply (find_replace_other f_file_path); [reflexivity|exact Hq].
Qed.

(** One file entry of a run in which SQLite does not raise. *)
Lemma index_entry_file (fs : filesystem) (self : FileIndexer) (path : string)
    (now : time) (r : run_state) :
  is_file fs path = true ->
  index_entry fs self no_faults path now r =
  match _process_file fs self path now with
  | (Some fi, l) =>
      (inl tt, count_status (file_info.processing_status fi) r
                 (saved fi now (rs_db r)) (rs_log r ++ l))
  | (None, l) => (inl tt, with_db_log r (rs_db r) (rs_log r ++ l))
  end.
Proof.
  intros Hf. unfold index_entry. rewrite Hf.
  destruct (_process_file fs self path now) as [[fi|] l]; [|reflexivity].
  destruct (save_to_db_outcome fi now None (rs_db r) (rs_log r ++ l))
    as (Hr & _ & Hdb).
  destruct (Hdb eq_refl) as [Hs Hl].
  unfold no_faults. rewrite Hr, Hs, Hl. reflexivity.
Qed.

(** What [_process_file] returns once [os.stat] has succeeded. *)
Lemma process_file_path (fs : filesystem) (self : FileIndexer) (path : string)
    (now : time) (fi : file_info.t) (l : log_t) :
  _process_file fs self path now = (Some fi, l) ->
  file_info.file_path fi = path
  /\ file_info.checksum fi = md5_hexdigest fs path
  /\ file_info.file_name fi = Py.name path
  /\ file_info.file_extension fi = Py.lstrip_dot (Py.lower (Py.suffix path))
  /\ exists file_stat,
       os_stat fs path = Some file_stat
       /\ file_info.file_size fi = st_size file_stat
       /\ file_info.created_at fi = st_ctime file_stat
       /\ file_info.modified_at fi = st_mtime file_stat.
Proof.
  unfold _process_file, _calculate_checksum.
  destruct (os_stat fs path) as [file_stat|]; [|discriminate].
  destruct (md5_hexdigest fs path) as [digest|];
    (destruct (Py.mem _ _); [destruct (md_convert fs path)|]);
    intros H; inversion H; subst; simpl; eauto 10.
Qed.

(** A record is returned exactly when [os.stat] succeeds and the conversion
    is not attempted or returns. *)
Lemma process_file_some (fs : filesystem) (self : FileIndexer) (path : string)
    (now : time) :
  (os_stat fs path <> None /\ convertible fs self path = true) <->
  exists fi l, _process_file fs self path now = (Some fi, l).
Proof.
  unfold _process_file, _calculate_checksum, convertible, enabled_format.
  destruct (os_stat fs path) as [file_stat|].
  - destruct (md5_hexdigest fs path);
      (destruct (Py.mem _ _); [destruct (md_convert fs path)|]);
      (split; [intros [_ H]; first [discriminate H|eauto]
              |intros (fi & l & H);
               first [discriminate H|split; [discriminate|reflexivity]]]).
  - split; [intros [H _]; congruence|]. intros (fi & l & H). discriminate.
Qed.

(** The status of a record follows the registry alone. *)
Lemma process_file_status (fs : filesystem) (self : FileIndexer)
    (path : string) (now : time) (fi : file_info.t) (l : log_t) :
  _process_file fs self path now = (Some fi, l) ->
  file_info.processing_status fi
  = if enabled_format self path then processed else skipped.
Proof.
  unfold _process_file, _calculate_checksum, enabled_format.
  destruct (os_stat fs path) as [file_stat|]; [|discriminate].
  destruct (md5_hexdigest fs path);
    (destruct (Py.mem _ _); [destruct (md_convert fs path)|]);
    intros H; first [discriminate H|injection H as <- _; reflexivity].
Qed.

Lemma process_file_none (fs : filesystem) (self : FileIndexer) (path : string)
    (now : time) :
  os_stat fs path = None \/ convertible fs self path = false ->
  exists l, _process_file fs self path now = (None, l)
            /\ In (ERROR, ProcessFileError path) l.
Proof.
  unfold _process_file, _calculate_checksum, convertible, enabled_format.
  destruct (os_stat fs path) as [file_stat|].
  - intros [H|H]; [discriminate|].
    destruct (md5_hexdigest fs path);
      (destruct (Py.mem _ _); [destruct (md_convert fs path)|]);
      try discriminate H; eexists; (split; [reflexivity|]);
      simpl; auto.
  - intros _. eexists. split; [reflexivity|]. simpl. auto.
Qed.

(* --------------------------------------------------------------------- *)
(** *** Format classification *)



(* --------------------------------------------------------------------- *)
(** *** Failures of [os.stat] and of the checksum read *)






(* --------------------------------------------------------------------- *)
(** *** Relations and documentation of directories that are not cataloged *)

Lemma select_directory_id_none (path : string) (s : db) :
  Sql.select_directory_id path s = None ->
  filter (fun r => String.eqb (d_dir_path r) path) (directories s) = [].
Proof.
  unfold Sql.select_directory_id. intros H.
  apply find_none_filter.
  destruct (find _ (directories s)); [discriminate|reflexivity].
Qed.

Lemma select_endpoints_missing (source_path target_path : string) (s : db) :
  Sql.select_directory_id source_path s = None
  \/ Sql.select_directory_id target_path s = None ->
  Sql.select_endpoints source_path target_path s = [].
Proof.
  unfold Sql.select_endpoints. intros [H|H];
    rewrite (select_directory_id_none _ _ H); [reflexivity|].
  induction (filter _ (directories s)) as [|d1 l IH]; simpl; auto.
Qed.

(** C6.  When an endpoint of the relation has no row in [directories], the
    call inserts no [directory_relations] row (the database is left as it
    was), no exception leaves the call, and, when SQLite itself does not
    raise, the call returns [True]. *)
Theorem C6_relation_with_missing_endpoint (source_path target_path : string)
    (relation_type description : option string) (now : time)
    (fault : option nat) (s : db) (l : log_t) :
  Sql.select_directory_id source_path s = None
  \/ Sql.select_directory_id target_path s = None ->
  let o := run (add_directory_relation source_path target_path relation_type
                  description now) fault s l in
  directory_relations (db_after o) = directory_relations s
  /\ db_after o = s
  /\ (exists b, result o = inl b)
  /\ (fault = None -> result o = inl true).
Proof.
  intros Hmissing o.
  pose proof (add_directory_relation_outcome source_path target_path
                relation_type description now fault s l) as H.
  fold o in H. unfold Sql.insert_select_relation in H.
  rewrite (select_endpoints_missing _ _ _ Hmissing) in H.
  destruct H as [[[Hr Hdb]|[Hr Hdb]] Hnone].
  - rewrite Hdb. repeat split; eauto.
  - rewrite Hdb. repeat split; eauto. intros Hf. apply (Hnone Hf).
Qed.

Lemma C6_relation_with_missing_endpoint_witness :
  let o := run (add_directory_relation "/data/docs" "/data/never" (Some "uses")
                  None 300) None (rs_db demo_run1) [] in
  directory_relations (db_after o) = directory_relations (rs_db demo_run1)
  /\ result o = inl true.
Proof.
  intros o.
  destruct (C6_relation_with_missing_endpoint "/data/docs" "/data/never"
              (Some "uses") None 300 None (rs_db demo_run1) [])
    as (H1 & H2 & H3 & H4).
  - right. vm_compute. reflexivity.
  - split; [exact H1|exact (H4 eq_refl)].
Defined.

(** C8.  For a path without a row in [directories] the call returns [False]
    (nothing is raised), the database is left as it was, and the error
    "directory not found" is logged.  For a cataloged directory the call
    either returns [True] with the flags cleared, the new row inserted under
    the next version and the time stamp set, or returns [False] with the
    database as it was; the second is what happens whenever a statement of
    the transaction or the commit raises, and whenever the title is NULL. *)
Theorem C8_documentation_not_found_or_atomic (dir_path : string)
    (title description purpose guidelines created_by : option string)
    (now : time) (s : db) (l : log_t) :
  (Sql.select_directory_id dir_path s = None ->
   forall fault,
     let o := run (add_directory_documentation dir_path title description
                     purpose guidelines created_by now) fault s l in
     result o = inl false /\ db_after o = s
     /\ (fault = None ->
         log_after o = l ++ [(ERROR, DirectoryNotFound dir_path)]))
  /\ (forall dir_id,
         Sql.select_directory_id dir_path s = Some dir_id ->
         forall fault,
           let o := run (add_directory_documentation dir_path title
                           description purpose guidelines created_by now)
                        fault s l in
           ((result o = inl true
             /\ exists s1,
                 Sql.insert_directory_doc dir_id (next_version dir_id s) title
                   description purpose guidelines now created_by
                   (Sql.update_not_current dir_id s) = inl s1
                 /\ db_after o = Sql.update_last_documented_at now dir_id s1)
            \/ (result o = inl false /\ db_after o = s))
           /\ ((title = None \/ exists k, fault = Some k /\ k <= 5) ->
               result o = inl false /\ db_after o = s)).
Proof.
  split.
  - intros Hnone fault o.
    pose proof (add_directory_documentation_outcome dir_path title description
                  purpose guidelines created_by now fault s l) as H.
    fold o in H. rewrite Hnone in H. destruct H as [Hr Hdb].
    repeat split; auto.
    intros ->. subst o. unfold add_directory_documentation. run_conn.
    rewrite Hnone. reflexivity.
  - intros dir_id Hsome fault o. split.
    + pose proof (add_directory_documentation_outcome dir_path title
                    description purpose guidelines created_by now fault s l)
        as H.
      fold o in H. rewrite Hsome in H.
      destruct (Sql.insert_directory_doc _ _ _ _ _ _ _ _ _) as [s1|e].
      * destruct H as [[[Hr Hdb]|[Hr Hdb]] _]; [left|right]; eauto.
      * right. exact H.
    + subst o. unfold add_directory_documentation.
      intros [Htitle|(k & Hk & Hle)]; subst.
      * fault_cases fault; run_conn; rewrite ?Hsome; simpl; auto.
      * do 6 (destruct k as [|k]; [run_conn; rewrite ?Hsome; simpl;
                 try destruct (Sql.insert_directory_doc _ _ _ _ _ _ _ _ _);
                 simpl; auto|]).
        lia.
Qed.

Lemma C8_documentation_not_found_or_atomic_witness :
  (let o := run (add_directory_documentation "/data/never" (Some "Title") None
                   None None (Some "system") 300) None (rs_db demo_run1) [] in
   result o = inl false /\ db_after o = rs_db demo_run1
   /\ log_after o = [(ERROR, DirectoryNotFound "/data/never")])
  /\ (let o := run (add_directory_documentation "/data/docs" (Some "Title")
                      None None None (Some "system") 300) (Some 3)
                   (rs_db demo_run1) [] in
      result o = inl false /\ db_after o = rs_db demo_run1).
Proof.
  assert (Hn : Sql.select_directory_id "/data/never" (rs_db demo_run1) = None)
    by (vm_compute; reflexivity).
  assert (Hs : Sql.select_directory_id "/data/docs" (rs_db demo_run1) = Some 1)
    by (vm_compute; reflexivity).
  split.
  - destruct (proj1 (C8_documentation_not_found_or_atomic "/data/never"
                       (Some "Title") None None None (Some "system") 300
                       (rs_db demo_run1) []) Hn None)
      as (H1 & H2 & H3).
    split; [exact H1|split; [exact H2|exact (H3 eq_refl)]].
  - apply (proj2 (proj2 (C8_documentation_not_found_or_atomic "/data/docs"
                           (Some "Title") None None None (Some "system") 300
                           (rs_db demo_run1) []) 1 Hs (Some 3))).
    right. exists 3. split; [reflexivity|lia].
Defined.

(* --------------------------------------------------------------------- *)
(** *** The processing queue *)



Lemma max_rowid_ge {A} (id : A -> nat) (l : list A) (x : A) :
  In x l -> id x <= max_rowid id l.
Proof.
  induction l as [|y l IH]; simpl; [tauto|].
  intros [->|H]; [lia|]. specialize (IH H). lia.
Qed.




(** C1, at the failing input.  After the tree [demo_fs] is indexed once every
    queue row points at a row of [files]; after it is indexed again the queue
    row written by the first run for [/data/a.txt] holds a [file_id] that no
    row of [files] has: the replace gave the file a new rowid. *)
Theorem C1_reindex_leaves_dangling_queue_row :
  queue_references_files (rs_db demo_run1) = true
  /\ queue_references_files (rs_db demo_run2) = false
  /\ exists q,
      In q (processing_queue (rs_db demo_run2))
      /\ q_file_id q = 1
      /\ Sql.select_file_id "/data/a.txt" (rs_db demo_run1) = Some 1
      /\ Sql.select_file_id "/data/a.txt" (rs_db demo_run2) = Some 4
      /\ forall f, In f (files (rs_db demo_run2)) -> f_id f <> q_file_id q.
Proof.
  split; [vm_compute; reflexivity|].
  split; [vm_compute; reflexivity|].
  exists (Sql.queue_values 1 1 100).
  split; [vm_compute; auto|].
  split; [reflexivity|].
  split; [vm_compute; reflexivity|].
  split; [vm_compute; reflexivity|].
  assert (Hids : map f_id (files (rs_db demo_run2)) = [4; 5; 6])
    by (vm_compute; reflexivity).
  intros f Hf. apply (in_map f_id) in Hf. rewrite Hids in Hf.
  clear Hids. cbn [q_file_id Sql.queue_values]. simpl in Hf. lia.
Qed.



(* --------------------------------------------------------------------- *)
(** *** Tags *)

Lemma existsb_filter_length {A} (f : A -> bool) (l : list A) :
  existsb f l = negb (Nat.eqb (List.length (filter f l)) 0).
Proof.
  induction l as [|x l IH]; simpl; [reflexivity|].
  destruct (f x); simpl; [reflexivity|exact IH].
Qed.

(** One [INSERT OR IGNORE]: the count of a pair moves from 0 to 1 when that
    pair is inserted, and never otherwise. *)
Lemma count_tag_insert (dir_id d : nat) (tag t : string) (now : time)
    (created_by : option string) (s : db) :
  count_tag d t (Sql.insert_or_ignore_tag dir_id tag now created_by s)
  = if andb (andb (Nat.eqb dir_id d) (String.eqb tag t))
            (Nat.eqb (count_tag d t s) 0)
    then 1 else count_tag d t s.
Proof.
  unfold Sql.insert_or_ignore_tag.
  rewrite existsb_filter_length. fold (count_tag dir_id tag s).
  destruct (Nat.eqb_spec dir_id d) as [->|Hd];
    [destruct (String.eqb_spec tag t) as [->|Ht]|]; simpl.
  - destruct (Nat.eqb (count_tag d t s) 0) eqn:E; simpl; [|reflexivity].
    unfold count_tag in *; simpl. rewrite filter_app, length_app; simpl.
    rewrite Nat.eqb_refl, String.eqb_refl; simpl.
    apply Nat.eqb_eq in E. lia.
  - destruct (Nat.eqb (count_tag d tag s) 0); simpl; [|reflexivity].
    unfold count_tag; simpl. rewrite filter_app, length_app; simpl.
    destruct (String.eqb_spec tag t); [congruence|].
    rewrite andb_false_r. simpl. lia.
  - destruct (Nat.eqb (count_tag dir_id tag s) 0); simpl; [|reflexivity].
    unfold count_tag; simpl. rewrite filter_app, length_app; simpl.
    destruct (Nat.eqb_spec dir_id d); [congruence|]. simpl. lia.
Qed.

Lemma tags_unique_insert (dir_id : nat) (tag : string) (now : time)
    (created_by : option string) (s : db) :
  tags_unique s ->
  tags_unique (Sql.insert_or_ignore_tag dir_id tag now created_by s).
Proof.
  intros H d t. rewrite count_tag_insert.
  destruct (andb _ _); [lia|apply H].
Qed.

Lemma tags_unique_tagged (dir_id : nat) (tags : list string) (now : time)
    (created_by : option string) (s : db) :
  tags_unique s -> tags_unique (tagged dir_id tags now created_by s).
Proof.
  revert s. unfold tagged.
  induction tags as [|tag tags IH]; intros s H; simpl; [exact H|].
  apply IH, tags_unique_insert, H.
Qed.

(** After the loop over [tags] a pair that was attached stays attached once,
    and a tag of [tags] is attached once. *)
Lemma count_tag_tagged (dir_id : nat) (tags : list string) (now : time)
    (created_by : option string) (tag : string) :
  forall s,
    count_tag dir_id tag s <= 1 ->
    (In tag tags \/ count_tag dir_id tag s = 1) ->
    count_tag dir_id tag (tagged dir_id tags now created_by s) = 1.
Proof.
  unfold tagged.
  induction tags as [|t tags IH]; intros s Hle Hone; simpl.
  - destruct Hone as [[]|H]; exact H.
  - apply IH.
    + rewrite count_tag_insert. destruct (andb _ _); [lia|exact Hle].
    + rewrite count_tag_insert.
      destruct Hone as [[->|Hin]|H1].
      * right. rewrite Nat.eqb_refl, String.eqb_refl. simpl.
        destruct (Nat.eqb_spec (count_tag dir_id tag s) 0); lia.
      * left. exact Hin.
      * right. rewrite H1. simpl. rewrite andb_false_r. reflexivity.
Qed.

Lemma directories_tagged (dir_id : nat) (tags : list string) (now : time)
    (created_by : option string) (s : db) :
  directories (tagged dir_id tags now created_by s) = directories s.
Proof.
  revert s. unfold tagged.
  induction tags as [|t tags IH]; intros s; simpl; [reflexivity|].
  rewrite IH. unfold Sql.insert_or_ignore_tag.
  destruct (existsb _ _); reflexivity.
Qed.

(** C5.  In a catalog that meets UNIQUE (directory_id, tag_name), attaching
    a tag to a cataloged directory leaves exactly one [directory_tags] row
    for the pair, however often the tag occurs in the list of the call and
    also when a second call attaches it again; both calls return [True]. *)
Theorem C5_tag_attached_once (s : db) (dir_path : string) (dir_id : nat)
    (tag : string) (l : log_t) :
  tags_unique s ->
  Sql.select_directory_id dir_path s = Some dir_id ->
  (forall tags created_by now,
      In tag tags ->
      let o := run (add_directory_tags dir_path tags created_by now) None s l in
      result o = inl true /\ count_tag dir_id tag (db_after o) = 1)
  /\ (forall tags1 tags2 created_by1 created_by2 now1 now2,
         In tag tags1 ->
         In tag tags2 ->
         let o1 := run (add_directory_tags dir_path tags1 created_by1 now1)
                       None s l in
         let o2 := run (add_directory_tags dir_path tags2 created_by2 now2)
                       None (db_after o1) (log_after o1) in
         result o1 = inl true /\ result o2 = inl true
         /\ count_tag dir_id tag (db_after o2) = 1).
Proof.
  intros Huniq Hsel.
  assert (Hone : forall tags created_by now l0 s0,
             tags_unique s0 ->
             Sql.select_directory_id dir_path s0 = Some dir_id ->
             (In tag tags \/ count_tag dir_id tag s0 = 1) ->
             let o := run (add_directory_tags dir_path tags created_by now)
                          None s0 l0 in
             result o = inl true
             /\ db_after o = tagged dir_id tags now created_by s0
             /\ count_tag dir_id tag (db_after o) = 1).
  { intros tags created_by now l0 s0 Hu Hs Hin o.
    pose proof (add_directory_tags_outcome dir_path tags created_by now None
                  s0 l0) as H.
    fold o in H. rewrite Hs in H. destruct H as [_ H].
    destruct (H eq_refl) as [Hr Hdb].
    split; [exact Hr|]. split; [exact Hdb|].
    rewrite Hdb. apply count_tag_tagged; [apply Hu|exact Hin]. }
  split.
  - intros tags created_by now Hin o.
    destruct (Hone tags created_by now l s Huniq Hsel (or_introl Hin))
      as (Hr & _ & Hc).
    split; assumption.
  - intros tags1 tags2 created_by1 created_by2 now1 now2 Hin1 Hin2 o1 o2.
    destruct (Hone tags1 created_by1 now1 l s Huniq Hsel (or_introl Hin1))
      as (Hr1 & Hdb1 & Hc1).
    fold o1 in Hr1, Hdb1, Hc1.
    assert (Hu1 : tags_unique (db_after o1))
      by (rewrite Hdb1; apply tags_unique_tagged, Huniq).
    assert (Hs1 : Sql.select_directory_id dir_path (db_after o1) = Some dir_id).
    { rewrite Hdb1. unfold Sql.select_directory_id.
      rewrite directories_tagged. exact Hsel. }
    destruct (Hone tags2 created_by2 now2 (log_after o1) (db_after o1) Hu1 Hs1
                (or_introl Hin2)) as (Hr2 & _ & Hc2).
    split; [exact Hr1|]. split; assumption.
Qed.


Lemma C5_tag_attached_once_witness :
  let o := run (add_directory_tags "/data/docs" ["a"; "b"; "a"] (Some "system")
                  300) None (rs_db demo_run1) [] in
  result o = inl true /\ count_tag 1 "a" (db_after o) = 1.
Proof.
  assert (Hu : tags_unique (rs_db demo_run1)).
  { assert (H : directory_tags (rs_db demo_run1) = [])
      by (vm_compute; reflexivity).
    intros d t. unfold count_tag. rewrite H. simpl. lia. }
  assert (Hs : Sql.select_directory_id "/data/docs" (rs_db demo_run1) = Some 1)
    by (vm_compute; reflexivity).
  apply (proj1 (C5_tag_attached_once (rs_db demo_run1) "/data/docs" 1 "a" []
                  Hu Hs)).
  simpl. auto.
Defined.

(* --------------------------------------------------------------------- *)
(** *** Versions of the documentation *)

Lemma max_rowid_map {A} (id : A -> nat) (l : list A) :
  max_rowid id l = fold_right Nat.max 0 (map id l).
Proof.
  induction l as [|x l IH]; simpl; [reflexivity|]. rewrite IH. reflexivity.
Qed.

Lemma max_seq (a n : nat) :
  fold_right Nat.max 0 (seq a (S n)) = a + n.
Proof.
  revert a. induction n as [|n IH]; intros a.
  - simpl. lia.
  - change (seq a (S (S n))) with (a :: seq (S a) (S n)).
    cbn [fold_right]. rewrite IH. lia.
Qed.

Lemma versions_upto_S (n : nat) :
  versions_upto (S n)
  = map (fun v => (v, false)) (seq 1 n) ++ [(S n, true)].
Proof.
  unfold versions_upto. rewrite seq_S, map_app. simpl.
  rewrite Nat.eqb_refl. f_equal.
  apply map_ext_in. intros v Hv. apply in_seq in Hv.
  destruct (Nat.eqb_spec v (S n)); [lia|reflexivity].
Qed.

Section DocumentationStep.

Variables (dir_path : string) (dir_id : nat) (s : db) (n : nat).
Hypothesis Hdir : Sql.select_directory_id dir_path s = Some dir_id.
Hypothesis Hversions : versions_of dir_id s = versions_upto n.

Lemma versions_list : map dd_version (Sql.docs_of dir_id s) = seq 1 n.
Proof.
  assert (H : map fst (versions_of dir_id s) = map fst (versions_upto n))
    by (rewrite Hversions; reflexivity).
  unfold versions_of, versions_upto in H. rewrite !map_map in H. simpl in H.
  rewrite map_id in H. exact H.
Qed.

Lemma next_version_is_S : next_version dir_id s = S n.
Proof.
  unfold next_version, Sql.select_max_version.
  pose proof versions_list as H.
  destruct (Sql.docs_of dir_id s) as [|r rows] eqn:E.
  - destruct n; [reflexivity|discriminate].
  - rewrite max_rowid_map, H.
    destruct n as [|m]; [discriminate|]. rewrite max_seq. lia.
Qed.

Lemma version_is_free :
  existsb (fun r => andb (Nat.eqb (dd_directory_id r) dir_id)
                         (Nat.eqb (dd_version r) (S n)))
          (directory_docs (Sql.update_not_current dir_id s)) = false.
Proof.
  apply not_true_is_false. intros H.
  apply existsb_exists in H. destruct H as (r & Hin & Hr).
  apply andb_prop in Hr. destruct Hr as [Hd Hv].
  simpl in Hin. apply in_map_iff in Hin. destruct Hin as (r0 & Hr0 & Hin0).
  assert (Hsame : dd_directory_id r = dd_directory_id r0
                  /\ dd_version r = dd_version r0).
  { subst r. destruct (Nat.eqb (dd_directory_id r0) dir_id); auto. }
  destruct Hsame as [Hsd Hsv]. rewrite Hsd in Hd. rewrite Hsv in Hv.
  assert (Hdoc : In r0 (Sql.docs_of dir_id s))
    by (apply filter_In; auto).
  apply (in_map dd_version) in Hdoc. rewrite versions_list in Hdoc.
  apply in_seq in Hdoc. apply Nat.eqb_eq in Hv. lia.
Qed.

Lemma docs_of_cleared (rows : list directory_docs_row) :
  filter (fun r => Nat.eqb (dd_directory_id r) dir_id)
         (map (fun r => if Nat.eqb (dd_directory_id r) dir_id
                        then Sql.clear_current r else r) rows)
  = map Sql.clear_current
        (filter (fun r => Nat.eqb (dd_directory_id r) dir_id) rows).
Proof.
  induction rows as [|r rows IH]; simpl; [reflexivity|].
  destruct (Nat.eqb (dd_directory_id r) dir_id) eqn:E; simpl; rewrite ?E;
    simpl; rewrite IH; reflexivity.
Qed.

(** One successful call on a directory that holds versions [1..n]. *)
Lemma documentation_step (title : string)
    (description purpose guidelines created_by : option string) (now : time)
    (l : log_t) :
  let o := run (add_directory_documentation dir_path (Some title) description
                  purpose guidelines created_by now) None s l in
  result o = inl true
  /\ Sql.select_directory_id dir_path (db_after o) = Some dir_id
  /\ versions_of dir_id (db_after o) = versions_upto (S n)
  /\ current_titles dir_id (db_after o) = [title]
  /\ (exists row,
         Sql.select_directory dir_path (db_after o) = Some row
         /\ d_id row = dir_id /\ d_last_documented_at row = Some now)
  /\ List.length (directory_docs (db_after o))
     = S (List.length (directory_docs s)).
Proof.
  intros o.
  pose proof (add_directory_documentation_outcome dir_path (Some title)
                description purpose guidelines created_by now None s l) as H.
  fold o in H. rewrite Hdir, next_version_is_S in H.
  unfold Sql.insert_directory_doc in H. rewrite version_is_free in H.
  destruct H as [_ H]. destruct (H eq_refl) as [Hr Hdb]. clear H.
  split; [exact Hr|]. rewrite Hdb. clear Hr Hdb o.
  assert (Hfind : exists row,
             find (fun r => String.eqb (d_dir_path r) dir_path) (directories s)
             = Some row /\ d_id row = dir_id).
  { unfold Sql.select_directory_id in Hdir.
    destruct (find _ (directories s)) as [row|]; [|discriminate].
    exists row. split; [reflexivity|]. simpl in Hdir. congruence. }
  destruct Hfind as (row & Hrow & Hid).
  assert (Hfound : Sql.select_directory dir_path
                     (Sql.update_last_documented_at now dir_id
                        (set_directory_docs
                           (directory_docs (Sql.update_not_current dir_id s)
                            ++ [ {| dd_id := new_rowid dd_id
                                               (directory_docs
                                                  (Sql.update_not_current
                                                     dir_id s));
                                    dd_directory_id := dir_id;
                                    dd_version := S n;
                                    dd_title := title;
                                    dd_description := description;
                                    dd_purpose := purpose;
                                    dd_guidelines := guidelines;
                                    dd_created_at := Some now;
                                    dd_created_by := created_by;
                                    dd_is_current := true;
                                    dd_metadata := None |} ])
                           (Sql.update_not_current dir_id s)))
                   = Some (Sql.stamp now row)).
  { unfold Sql.select_directory; simpl.
    clear Hdir Hversions. revert Hrow.
    induction (directories s) as [|r rows IH]; simpl; [discriminate|].
    destruct (Nat.eqb (d_id r) dir_id) eqn:E; simpl;
      destruct (String.eqb (d_dir_path r) dir_path) eqn:Ep; auto;
      intros Hr; inversion Hr; subst r.
    - reflexivity.
    - rewrite Hid, Nat.eqb_refl in E. discriminate. }
  split; [|split; [|split; [|split]]].
  - unfold Sql.select_directory_id.
    unfold Sql.select_directory in Hfound. rewrite Hfound. simpl. congruence.
  - unfold versions_of, Sql.docs_of; simpl.
    rewrite filter_app, docs_of_cleared; simpl.
    rewrite Nat.eqb_refl. rewrite map_app, map_map; simpl.
    rewrite versions_upto_S. f_equal.
    rewrite <- versions_list, map_map. reflexivity.
  - unfold current_titles, Sql.docs_of; simpl.
    rewrite filter_app, docs_of_cleared; simpl.
    rewrite Nat.eqb_refl. rewrite filter_app; simpl.
    assert (Hnone : forall rows,
               filter dd_is_current (map Sql.clear_current rows) = []).
    { induction rows; simpl; auto. }
    rewrite Hnone. reflexivity.
  - exists (Sql.stamp now row). split; [exact Hfound|]. split; [exact Hid|].
    reflexivity.
  - simpl. rewrite length_app, length_map. simpl. lia.
Qed.

End DocumentationStep.


Lemma document_app (dir_path : string) (calls : list doc_call) (c : doc_call) :
  forall s,
    document dir_path (calls ++ [c]) s
    = let o := run (add_directory_documentation dir_path (dc_title c)
                      (dc_description c) (dc_purpose c) (dc_guidelines c)
                      (dc_created_by c) (dc_now c)) None
                   (snd (document dir_path calls s)) [] in
      (fst (document dir_path calls s) ++ [result o], db_after o).
Proof.
  induction calls as [|c0 calls IH]; intros s; simpl.
  - reflexivity.
  - rewrite IH.
    destruct (document dir_path calls _) as [results s']. reflexivity.
Qed.

Lemma firstn_snoc {A} (l : list A) :
  forall k x, nth_error l k = Some x -> firstn (S k) l = firstn k l ++ [x].
Proof.
  induction l as [|y l IH]; intros [|k] x H; simpl in *; try discriminate.
  - congruence.
  - rewrite (IH k x H). reflexivity.
Qed.

Lemma firstn_incl {A} (l : list A) :
  forall k x, In x (firstn k l) -> In x l.
Proof.
  induction l as [|y l IH]; intros [|k] x H; simpl in *; try tauto.
  destruct H as [H|H]; [auto|right; exact (IH k x H)].
Qed.

(** Any number of successful calls on a directory without documentation. *)
Lemma document_all (dir_path : string) (dir_id : nat) (s : db)
    (calls : list doc_call) :
  Sql.select_directory_id dir_path s = Some dir_id ->
  Sql.docs_of dir_id s = [] ->
  Forall (fun c => dc_title c <> None) calls ->
  fst (document dir_path calls s) = repeat (inl true) (List.length calls)
  /\ Sql.select_directory_id dir_path (snd (document dir_path calls s))
     = Some dir_id
  /\ versions_of dir_id (snd (document dir_path calls s))
     = versions_upto (List.length calls).
Proof.
  intros Hdir Hnone.
  induction calls as [|c calls IH] using rev_ind; intros Hok.
  - simpl. unfold versions_of. rewrite Hnone. auto.
  - apply Forall_app in Hok. destruct Hok as [Hok Hc].
    inversion Hc as [|? ? Htitle _]; subst.
    destruct (IH Hok) as (Hres & Hsel & Hver).
    destruct (dc_title c) as [title|] eqn:Et; [|congruence].
    rewrite document_app, Et. cbn zeta.
    destruct (documentation_step dir_path dir_id _ _ Hsel Hver title
                (dc_description c) (dc_purpose c) (dc_guidelines c)
                (dc_created_by c) (dc_now c) [])
      as (Hr & Hs & Hv & _).
    cbn [fst snd]. rewrite Hr, Hres, length_app. simpl.
    rewrite Nat.add_1_r. split; [|split; assumption].
    rewrite <- repeat_cons. reflexivity.
Qed.

(** C2.  On a cataloged directory that has no documentation yet, after the
    [k]-th of any [N] calls with a title ([1 <= k <= N]), SQLite never
    raising: every call so far returned [True]; the directory has exactly
    [k] rows in [directory_docs], with versions [1..k] in insertion order;
    exactly one of them is current, the one of version [k], which carries the
    title of the [k]-th call; and the directory's [last_documented_at] is the
    time of the [k]-th call. *)
Theorem C2_documentation_versions (dir_path : string) (dir_id : nat) (s : db)
    (calls : list doc_call) (k : nat) :
  Sql.select_directory_id dir_path s = Some dir_id ->
  Sql.docs_of dir_id s = [] ->
  Forall (fun c => dc_title c <> None) calls ->
  1 <= k <= List.length calls ->
  let results := fst (document dir_path (firstn k calls) s) in
  let s_k := snd (document dir_path (firstn k calls) s) in
  results = repeat (inl true) k
  /\ List.length (Sql.docs_of dir_id s_k) = k
  /\ versions_of dir_id s_k = versions_upto k
  /\ List.length (filter dd_is_current (Sql.docs_of dir_id s_k)) = 1
  /\ exists c title row,
      nth_error calls (k - 1) = Some c
      /\ dc_title c = Some title
      /\ current_titles dir_id s_k = [title]
      /\ Sql.select_directory dir_path s_k = Some row
      /\ d_id row = dir_id
      /\ d_last_documented_at row = Some (dc_now c).
Proof.
  intros Hdir Hnone Hok Hk results s_k.
  destruct k as [|j]; [lia|].
  destruct (nth_error calls j) as [c|] eqn:Hnth;
    [|apply nth_error_None in Hnth; lia].
  assert (Hpre : Forall (fun c => dc_title c <> None) (firstn j calls))
    by (apply Forall_forall; intros x Hx;
        apply (proj1 (Forall_forall _ calls) Hok), (firstn_incl _ _ _ Hx)).
  destruct (document_all dir_path dir_id s (firstn j calls) Hdir Hnone Hpre)
    as (Hres & Hsel & Hver).
  assert (Hlen : List.length (firstn j calls) = j)
    by (apply firstn_length_le; lia).
  rewrite Hlen in Hres, Hver.
  assert (Htitle : dc_title c <> None)
    by (apply (proj1 (Forall_forall _ calls) Hok), (nth_error_In _ _ Hnth)).
  destruct (dc_title c) as [title|] eqn:Et; [clear Htitle|congruence].
  subst results s_k.
  rewrite (firstn_snoc calls j c Hnth), document_app, Et. cbn zeta.
  destruct (documentation_step dir_path dir_id _ _ Hsel Hver title
              (dc_description c) (dc_purpose c) (dc_guidelines c)
              (dc_created_by c) (dc_now c) [])
    as (Hr & Hs & Hv & Ht & (row & Hrow & Hid & Hstamp) & _).
  cbn [fst snd]. rewrite Hr, Hres.
  split; [rewrite <- repeat_cons; reflexivity|].
  split.
  { transitivity (List.length (versions_of dir_id
       (db_after (run (add_directory_documentation dir_path (Some title)
                         (dc_description c) (dc_purpose c) (dc_guidelines c)
                         (dc_created_by c) (dc_now c)) None
                      (snd (document dir_path (firstn j calls) s)) [])))).
    - unfold versions_of. rewrite length_map. reflexivity.
    - rewrite Hv. unfold versions_upto. rewrite length_map, length_seq.
      reflexivity. }
  split; [exact Hv|].
  split.
  { unfold current_titles in Ht.
    apply (f_equal (@List.length string)) in Ht.
    rewrite length_map in Ht. exact Ht. }
  exists c, title, row. rewrite Nat.sub_succ, Nat.sub_0_r.
  repeat (split; [assumption|]). exact Hstamp.
Qed.


Lemma C2_documentation_versions_witness :
  let s_2 := snd (document "/data/docs" (firstn 2 demo_calls)
                           (rs_db demo_run1)) in
  versions_of 1 s_2 = versions_upto 2
  /\ List.length (filter dd_is_current (Sql.docs_of 1 s_2)) = 1
  /\ current_titles 1 s_2 = ["Second"].
Proof.
  assert (Hs : Sql.select_directory_id "/data/docs" (rs_db demo_run1) = Some 1)
    by (vm_compute; reflexivity).
  assert (Hn : Sql.docs_of 1 (rs_db demo_run1) = [])
    by (vm_compute; reflexivity).
  assert (Hok : Forall (fun c => dc_title c <> None) demo_calls)
    by (repeat constructor; discriminate).
  assert (Hk : 1 <= 2 <= List.length demo_calls) by (simpl; lia).
  destruct (C2_documentation_versions "/data/docs" 1 (rs_db demo_run1)
              demo_calls 2 Hs Hn Hok Hk)
    as (_ & _ & Hv & Hc & (c & title & row & Hnth & Ht & Hcur & _)).
  intros s_2. split; [exact Hv|]. split; [exact Hc|].
  simpl in Hnth. inversion Hnth; subst c. simpl in Ht.
  inversion Ht; subst title. exact Hcur.
Defined.

(* --------------------------------------------------------------------- *)
(** *** One row per path *)

Section ReplaceRow.

Context {A : Type} (key : A -> string).

Lemma in_keys_filter (p q : string) (rows : list A) :
  In q (map key (filter (fun r => negb (String.eqb (key r) p)) rows)) <->
  In q (map key rows) /\ q <> p.
Proof.
  induction rows as [|r rows IH]; simpl; [tauto|].
  destruct (String.eqb_spec (key r) p) as [E|E]; simpl.
  - rewrite IH. split; [tauto|]. intros [[H|H] Hq]; [congruence|tauto].
  - rewrite IH. split; [|tauto]. intros [H|H]; [|tauto].
    split; [tauto|congruence].
Qed.

Lemma in_keys_replace (p q : string) (new : A) (rows : list A) :
  key new = p ->
  (In q (map key (replace_row key p new rows)) <->
   In q (map key rows) \/ q = p).
Proof.
  intros Hnew. unfold replace_row. rewrite map_app, in_app_iff, in_keys_filter.
  simpl. rewrite Hnew.
  destruct (String.eqb_spec q p) as [E|E]; intuition congruence.
Qed.

Lemma NoDup_keys_filter (p : string) (rows : list A) :
  NoDup (map key rows) ->
  NoDup (map key (filter (fun r => negb (String.eqb (key r) p)) rows)).
Proof.
  induction rows as [|r rows IH]; simpl; intros H; [constructor|].
  inversion H as [|? ? Hnot Hrest]; subst.
  destruct (String.eqb (key r) p); simpl; [exact (IH Hrest)|].
  constructor; [|exact (IH Hrest)].
  rewrite in_keys_filter. tauto.
Qed.

Lemma NoDup_snoc {B : Type} (l : list B) (x : B) :
  NoDup l -> ~ In x l -> NoDup (l ++ [x]).
Proof.
  induction l as [|y l IH]; simpl; intros H Hx.
  - constructor; [simpl; tauto|constructor].
  - inversion H as [|? ? Hy Hl]; subst.
    constructor; [|apply IH; tauto].
    rewrite in_app_iff. simpl. intros [Hin|[E|[]]]; [tauto|].
    apply Hx. left. congruence.
Qed.

Lemma NoDup_keys_replace (p : string) (new : A) (rows : list A) :
  key new = p ->
  NoDup (map key rows) ->
  NoDup (map key (replace_row key p new rows)).
Proof.
  intros Hnew H. unfold replace_row. rewrite map_app. simpl.
  apply NoDup_snoc; [apply NoDup_keys_filter, H|].
  rewrite in_keys_filter. rewrite Hnew. tauto.
Qed.

Lemma filter_absent (p : string) (rows : list A) :
  ~ In p (map key rows) ->
  filter (fun r => negb (String.eqb (key r) p)) rows = rows.
Proof.
  induction rows as [|r rows IH]; simpl; intros H; [reflexivity|].
  destruct (String.eqb_spec (key r) p) as [E|E]; simpl; [tauto|].
  rewrite IH; tauto.
Qed.

Lemma length_filter_present (p : string) (rows : list A) :
  NoDup (map key rows) ->
  In p (map key rows) ->
  S (List.length (filter (fun r => negb (String.eqb (key r) p)) rows))
  = List.length rows.
Proof.
  induction rows as [|r rows IH]; simpl; intros H Hin; [tauto|].
  inversion H as [|? ? Hnot Hrest]; subst.
  destruct (String.eqb_spec (key r) p) as [E|E]; simpl.
  - rewrite filter_absent; [reflexivity|congruence].
  - rewrite IH; [reflexivity|exact Hrest|]. destruct Hin; [congruence|assumption].
Qed.

(** Replacing the row of a path that has one keeps the number of rows. *)
Lemma length_replace_present (p : string) (new : A) (rows : list A) :
  NoDup (map key rows) ->
  In p (map key rows) ->
  List.length (replace_row key p new rows) = List.length rows.
Proof.
  intros H Hin. unfold replace_row. rewrite length_app. simpl.
  rewrite <- (length_filter_present p rows H Hin). lia.
Qed.

End ReplaceRow.

Section KeyedSteps.

Context {A B : Type} (key : A -> string) (attr : A -> B).
Variables (touch : string -> bool) (val : string -> B).
Variable step : string -> time -> list A -> list A.

Hypothesis step_touch :
  forall p t rows,
    touch p = true ->
    exists new,
      key new = p /\ attr new = val p
      /\ step p t rows = replace_row key p new rows.

Hypothesis step_skip :
  forall p t rows, touch p = false -> step p t rows = rows.


Lemma steps_keys (L : list string) :
  forall t rows q,
    In q (map key (steps step L t rows)) <->
    In q (map key rows) \/ (In q L /\ touch q = true).
Proof.
  induction L as [|p L IH]; intros t rows q; simpl; [tauto|].
  rewrite IH. destruct (touch p) eqn:E.
  - destruct (step_touch p t rows E) as (new & Hk & _ & ->).
    rewrite (in_keys_replace key p q new rows Hk).
    split; [|intuition (subst; auto)].
    intros [[H|H]|H]; [tauto|subst; tauto|tauto].
  - rewrite step_skip by exact E.
    split; [tauto|]. intros [H|[[H|H] Ht]]; [tauto|congruence|tauto].
Qed.

Lemma steps_length (L : list string) :
  forall t rows,
    NoDup (map key rows) ->
    (forall p, In p L -> touch p = true -> In p (map key rows)) ->
    List.length (steps step L t rows) = List.length rows.
Proof.
  induction L as [|p L IH]; intros t rows H Hpresent; simpl; [reflexivity|].
  destruct (touch p) eqn:E.
  - destruct (step_touch p t rows E) as (new & Hk & _ & Hs).
    rewrite Hs, IH.
    + apply length_replace_present; [exact H|].
      apply Hpresent; [left; reflexivity|exact E].
    + apply NoDup_keys_replace; assumption.
    + intros p' Hin Ht. rewrite (in_keys_replace key p p' new rows Hk).
      left. apply Hpresent; [right; exact Hin|exact Ht].
  - rewrite step_skip by exact E.
    apply IH; [exact H|]. intros p' Hin Ht.
    apply Hpresent; [right; exact Hin|exact Ht].
Qed.

Lemma steps_attr (L : list string) :
  forall t rows q,
    option_map attr (find (fun r => String.eqb (key r) q) (steps step L t rows))
    = if existsb (fun p => andb (String.eqb p q) (touch p)) L
      then Some (val q)
      else option_map attr (find (fun r => String.eqb (key r) q) rows).
Proof.
  induction L as [|p L IH]; intros t rows q; simpl; [reflexivity|].
  rewrite IH.
  destruct (existsb _ L); [rewrite orb_true_r; reflexivity|].
  rewrite orb_false_r.
  destruct (touch p) eqn:E.
  - destruct (step_touch p t rows E) as (new & Hk & Ha & ->).
    destruct (String.eqb_spec p q) as [Epq|Epq]; simpl.
    + subst q. rewrite (find_replace_same key p rows new Hk). simpl.
      congruence.
    + rewrite (find_replace_other key p q rows new Hk); [reflexivity|].
      congruence.
  - rewrite step_skip by exact E. rewrite andb_false_r. reflexivity.
Qed.

End KeyedSteps.


Lemma unique_frame (s s' : db) :
  files s' = files s ->
  map d_dir_path (directories s') = map d_dir_path (directories s) ->
  directory_tags s' = directory_tags s ->
  paths_unique s /\ tags_unique s ->
  paths_unique s' /\ tags_unique s'.
Proof.
  unfold paths_unique, tags_unique, count_tag.
  intros -> -> ->. trivial.
Qed.

Lemma insert_directory_doc_frame (dir_id version : nat)
    (title description purpose guidelines created_by : option string)
    (now : time) (s s1 : db) :
  Sql.insert_directory_doc dir_id version title description purpose guidelines
    now created_by s = inl s1 ->
  files s1 = files s /\ directories s1 = directories s
  /\ directory_tags s1 = directory_tags s.
Proof.
  unfold Sql.insert_directory_doc.
  destruct title; [|discriminate]. destruct (existsb _ _); [discriminate|].
  intros H. inversion H; subst. auto.
Qed.

Lemma insert_select_relation_frame (relation_type description : option string)
    (now : time) (source_path target_path : string) (s s1 : db) :
  Sql.insert_select_relation relation_type description now source_path
    target_path s = inl s1 ->
  files s1 = files s /\ directories s1 = directories s
  /\ directory_tags s1 = directory_tags s.
Proof.
  unfold Sql.insert_select_relation.
  destruct (Sql.select_endpoints _ _ _); [|destruct relation_type];
    intros H; inversion H; subst; auto.
Qed.

Lemma stamped_paths (now : time) (dir_id : nat)
    (rows : list directories_row) :
  map d_dir_path
      (map (fun r => if Nat.eqb (d_id r) dir_id then Sql.stamp now r else r)
           rows)
  = map d_dir_path rows.
Proof.
  rewrite map_map. apply map_ext. intros r.
  destruct (Nat.eqb (d_id r) dir_id); reflexivity.
Qed.

Lemma files_tagged (dir_id : nat) (tags : list string) (now : time)
    (created_by : option string) (s : db) :
  files (tagged dir_id tags now created_by s) = files s.
Proof.
  revert s. unfold tagged.
  induction tags as [|t tags IH]; intros s; simpl; [reflexivity|].
  rewrite IH. unfold Sql.insert_or_ignore_tag.
  destruct (existsb _ _); reflexivity.
Qed.

(** The database of a fresh catalog and every write of the program keep one
    row per file path, one row per directory path and one row per
    (directory, tag) pair. *)
Lemma reachable_unique (s : db) :
  reachable s -> paths_unique s /\ tags_unique s.
Proof.
  induction 1 as [|fi now fault s l Hs IH|fs dir_path now fault s l Hs IH
                  |dir_path title description purpose guidelines created_by
                     now fault s l Hs IH
                  |dir_path tags created_by now fault s l Hs IH
                  |source_path target_path relation_type description now
                     fault s l Hs IH].
  - split; [split; constructor|]. intros d t. unfold count_tag. simpl. lia.
  - destruct (save_to_db_outcome fi now fault s l) as (_ & [H|H] & _);
      rewrite H; [|exact IH].
    destruct IH as [[Hf Hd] Ht]. split; [split|].
    + rewrite files_saved. simpl.
      apply (NoDup_keys_replace f_file_path); [reflexivity|exact Hf].
    + unfold saved.
      destruct (processing_status_eqb _ _); simpl; exact Hd.
    + unfold tags_unique, count_tag, saved.
      destruct (processing_status_eqb _ _); simpl; exact Ht.
  - pose proof (process_directory_outcome fs dir_path now fault s l) as H.
    destruct H as (_ & H).
    destruct (os_stat fs dir_path) as [dir_stat|]; [|rewrite H; exact IH].
    destruct H as ([H|H] & _); rewrite H; [|exact IH].
    destruct IH as [[Hf Hd] Ht]. split; [split|].
    + exact Hf.
    + simpl. apply (NoDup_keys_replace d_dir_path); [reflexivity|exact Hd].
    + exact Ht.
  - pose proof (add_directory_documentation_outcome dir_path title description
                  purpose guidelines created_by now fault s l) as H.
    destruct (Sql.select_directory_id dir_path s) as [dir_id|];
      [|destruct H as [_ H]; rewrite H; exact IH].
    destruct (Sql.insert_directory_doc _ _ _ _ _ _ _ _ _) as [s1|e] eqn:E;
      [|destruct H as [_ H]; rewrite H; exact IH].
    destruct H as ([[_ H]|[_ H]] & _); rewrite H; [|exact IH].
    apply insert_directory_doc_frame in E. simpl in E.
    destruct E as (E1 & E2 & E3).
    apply (unique_frame s); simpl; auto.
    rewrite E2. apply stamped_paths.
  - pose proof (add_directory_tags_outcome dir_path tags created_by now fault
                  s l) as H.
    destruct (Sql.select_directory_id dir_path s) as [dir_id|];
      [|destruct H as [_ H]; rewrite H; exact IH].
    destruct H as ([[_ H]|[_ H]] & _); rewrite H; [|exact IH].
    destruct IH as [[Hf Hd] Ht]. split; [split|].
    + rewrite files_tagged. exact Hf.
    + rewrite directories_tagged. exact Hd.
    + apply tags_unique_tagged, Ht.
  - pose proof (add_directory_relation_outcome source_path target_path
                  relation_type description now fault s l) as H.
    destruct (Sql.insert_select_relation _ _ _ _ _ _) as [s1|e] eqn:E;
      [|destruct H as [_ H]; rewrite H; exact IH].
    destruct H as ([[_ H]|[_ H]] & _); rewrite H; [|exact IH].
    apply insert_select_relation_frame in E. destruct E as (E1 & E2 & E3).
    apply (unique_frame s); auto. rewrite E2. reflexivity.
Qed.

(* --------------------------------------------------------------------- *)
(** *** A run, table by table *)

Lemma rs_db_count_status (status : processing_status_t) (r : run_state)
    (s : db) (l : log_t) :
  rs_db (count_status status r s l) = s.
Proof. destruct status; reflexivity. Qed.

(** A run leads from a reachable catalog to a reachable catalog, whether or
    not SQLite raises on the way. *)
Lemma index_entry_reachable (fs : filesystem) (self : FileIndexer)
    (faults : string -> option nat) (path : string) (now : time)
    (r : run_state) :
  reachable (rs_db r) ->
  reachable (rs_db (snd (index_entry fs self faults path now r))).
Proof.
  intros H. unfold index_entry.
  destruct (is_file fs path).
  - destruct (_process_file fs self path now) as [[fi|] l]; simpl; [|exact H].
    destruct (result (run (_save_to_db fi now) (faults path) (rs_db r)
                          (rs_log r ++ l)));
      rewrite ?rs_db_count_status; simpl; apply reach_save_to_db, H.
  - destruct (is_dir fs path); simpl; [|exact H].
    apply reach_process_directory, H.
Qed.

Lemma index_loop_reachable (fs : filesystem) (self : FileIndexer)
    (faults : string -> option nat) (paths : list string) :
  forall now r,
    reachable (rs_db r) ->
    reachable (rs_db (snd (index_loop fs self faults paths now r))).
Proof.
  induction paths as [|path paths IH]; intros now r H; simpl; [exact H|].
  pose proof (index_entry_reachable fs self faults path now r H) as H1.
  destruct (index_entry fs self faults path now r) as [[[]|e] r1];
    simpl in *; [apply IH|]; exact H1.
Qed.

Lemma index_directory_reachable (fs : filesystem) (self : FileIndexer)
    (faults : string -> option nat) (root_path : string) (now : time)
    (s : db) (l : log_t) :
  reachable s ->
  reachable (rs_db (snd (index_directory fs self faults root_path now s l))).
Proof.
  intros H. unfold index_directory.
  destruct (path_exists fs root_path); simpl; [|exact H].
  match goal with
  | |- context [index_loop fs self faults ?L now ?r0] =>
      pose proof (index_loop_reachable fs self faults L now r0 H) as H1;
      destruct (index_loop fs self faults L now r0) as [[[]|e] r1]
  end; simpl in *; exact H1.
Qed.


Lemma index_entry_tables (fs : filesystem) (self : FileIndexer)
    (path : string) (now : time) (r : run_state) :
  let e := index_entry fs self no_faults path now r in
  fst e = inl tt
  /\ files (rs_db (snd e)) = file_step fs self path now (files (rs_db r))
  /\ directories (rs_db (snd e))
     = dir_step fs path now (directories (rs_db r)).
Proof.
  unfold file_step, dir_step.
  destruct (is_file fs path) eqn:Hfile.
  - rewrite index_entry_file by exact Hfile.
    destruct (_process_file fs self path now) as [[fi|] l]; simpl; auto.
    rewrite rs_db_count_status, files_saved.
    split; [reflexivity|]. split; [reflexivity|].
    unfold saved. destruct (processing_status_eqb _ _); reflexivity.
  - unfold index_entry. rewrite Hfile.
    destruct (is_dir fs path); simpl; auto.
    pose proof (process_directory_outcome fs path now None (rs_db r)
                  (rs_log r)) as H.
    unfold no_faults. destruct H as (Hr & H). rewrite Hr.
    split; [reflexivity|].
    destruct (os_stat fs path) as [dir_stat|].
    + destruct H as (_ & H). destruct (H eq_refl) as [Hdb _].
      rewrite Hdb. split; reflexivity.
    + rewrite H. split; reflexivity.
Qed.

Lemma index_loop_tables (fs : filesystem) (self : FileIndexer)
    (paths : list string) :
  forall now r,
    let e := index_loop fs self no_faults paths now r in
    fst e = inl tt
    /\ files (rs_db (snd e))
       = steps (file_step fs self) paths now (files (rs_db r))
    /\ directories (rs_db (snd e))
       = steps (dir_step fs) paths now (directories (rs_db r)).
Proof.
  induction paths as [|path paths IH]; intros now r; simpl; auto.
  destruct (index_entry_tables fs self path now r) as (Hr & Hf & Hd).
  destruct (index_entry fs self no_faults path now r) as [[[]|e] r1];
    simpl in *; [|discriminate].
  rewrite <- Hf, <- Hd. apply IH.
Qed.

Lemma index_directory_tables (fs : filesystem) (self : FileIndexer)
    (root_path : string) (now : time) (s : db) (l : log_t) :
  let e := index_directory fs self no_faults root_path now s l in
  fst e = inl tt
  /\ files (rs_db (snd e))
     = (if path_exists fs root_path
        then steps (file_step fs self) (rglob fs root_path) now (files s)
        else files s)
  /\ directories (rs_db (snd e))
     = (if path_exists fs root_path
        then steps (dir_step fs) (rglob fs root_path) now (directories s)
        else directories s).
Proof.
  unfold index_directory.
  destruct (path_exists fs root_path); simpl; auto.
  match goal with
  | |- context [index_loop fs self no_faults ?L now ?r0] =>
      destruct (index_loop_tables fs self L now r0) as (Hr & Hf & Hd);
      destruct (index_loop fs self no_faults L now r0) as [[[]|e] r1]
  end; simpl in *; [auto|discriminate].
Qed.

Lemma file_step_touch (fs : filesystem) (self : FileIndexer) (p : string)
    (t : time) (rows : list files_row) :
  file_touch fs self p = true ->
  exists new,
    f_file_path new = p /\ f_checksum new = md5_hexdigest fs p
    /\ file_step fs self p t rows = replace_row f_file_path p new rows.
Proof.
  unfold file_touch, file_step. intros H.
  apply andb_prop in H. destruct H as [Hfile H].
  apply andb_prop in H. destruct H as [Hstat Hconv]. rewrite Hfile.
  assert (Hne : os_stat fs p <> None)
    by (destruct (os_stat fs p); [discriminate|discriminate Hstat]).
  destruct (proj1 (process_file_some fs self p t) (conj Hne Hconv))
    as (fi & l & Hp).
  rewrite Hp. simpl.
  destruct (process_file_path _ _ _ _ _ _ Hp) as (Hpath & Hsum & _).
  exists (Sql.files_values (new_rowid f_id rows) fi). simpl.
  rewrite Hpath. auto.
Qed.

Lemma file_step_skip (fs : filesystem) (self : FileIndexer) (p : string)
    (t : time) (rows : list files_row) :
  file_touch fs self p = false -> file_step fs self p t rows = rows.
Proof.
  unfold file_touch, file_step. intros H.
  destruct (is_file fs p); [|reflexivity]. simpl in H.
  apply andb_false_iff in H.
  assert (Hn : os_stat fs p = None \/ convertible fs self p = false).
  { destruct H as [H|H]; [left|right; exact H].
    destruct (os_stat fs p); [discriminate|reflexivity]. }
  destruct (process_file_none fs self p t Hn) as (l & Hp & _).
  rewrite Hp. reflexivity.
Qed.

Lemma dir_step_touch (fs : filesystem) (p : string) (t : time)
    (rows : list directories_row) :
  dir_touch fs p = true ->
  exists new,
    d_dir_path new = p /\ d_dir_path new = p
    /\ dir_step fs p t rows = replace_row d_dir_path p new rows.
Proof.
  unfold dir_touch, dir_step. intros H.
  destruct (is_file fs p); [discriminate|].
  destruct (is_dir fs p); [|discriminate].
  destruct (os_stat fs p) as [dir_stat|]; [|discriminate].
  eexists. split; [|split; [|reflexivity]]; reflexivity.
Qed.

Lemma dir_step_skip (fs : filesystem) (p : string) (t : time)
    (rows : list directories_row) :
  dir_touch fs p = false -> dir_step fs p t rows = rows.
Proof.
  unfold dir_touch, dir_step. intros H.
  destruct (is_file fs p); [reflexivity|].
  destruct (is_dir fs p); [|reflexivity].
  destruct (os_stat fs p); [discriminate|reflexivity].
Qed.

(** C4.  In every catalog the program can reach no two rows of [files] and
    no two rows of [directories] share a path.  Indexing a tree and then
    indexing it again, the file system answering as before and SQLite never
    raising, gives after the second run the same number of rows in [files]
    and in [directories] and, for every path, the same stored checksum as
    after the first run; both catalogs are reachable, so the paths stay
    unique throughout. *)
Theorem C4_reindex_idempotent :
  (forall s, reachable s -> paths_unique s)
  /\ (forall (fs : filesystem) (self : FileIndexer) (root_path : string)
             (t1 t2 : time) (s0 : db) (l0 : log_t),
         reachable s0 ->
         let r1 := snd (index_directory fs self no_faults root_path t1 s0 l0) in
         let r2 := snd (index_directory fs self no_faults root_path t2
                                        (rs_db r1) (rs_log r1)) in
         reachable (rs_db r1) /\ reachable (rs_db r2)
         /\ List.length (files (rs_db r2)) = List.length (files (rs_db r1))
         /\ List.length (directories (rs_db r2))
            = List.length (directories (rs_db r1))
         /\ forall path,
             checksum_of path (rs_db r2) = checksum_of path (rs_db r1)).
Proof.
  split; [intros s H; apply (reachable_unique s H)|].
  intros fs self root_path t1 t2 s0 l0 H0 r1 r2.
  assert (H1 : reachable (rs_db r1)) by (apply index_directory_reachable, H0).
  assert (H2 : reachable (rs_db r2)) by (apply index_directory_reachable, H1).
  split; [exact H1|]. split; [exact H2|].
  destruct (index_directory_tables fs self root_path t1 s0 l0)
    as (_ & Hf1 & Hd1).
  destruct (index_directory_tables fs self root_path t2 (rs_db r1) (rs_log r1))
    as (_ & Hf2 & Hd2).
  fold r1 in Hf1, Hd1. fold r2 in Hf2, Hd2.
  destruct (reachable_unique _ H0) as [[Hu0 Hv0] _].
  destruct (reachable_unique _ H1) as [[Hu1 Hv1] _].
  unfold checksum_of, Sql.select_file. rewrite Hf2, Hd2.
  destruct (path_exists fs root_path); [|auto].
  split; [|split].
  - apply (steps_length f_file_path f_checksum (file_touch fs self)
             (md5_hexdigest fs) (file_step fs self)
             (file_step_touch fs self) (file_step_skip fs self));
      [exact Hu1|].
    intros p Hin Ht. rewrite Hf1.
    apply (steps_keys f_file_path f_checksum (file_touch fs self)
             (md5_hexdigest fs) (file_step fs self)
             (file_step_touch fs self) (file_step_skip fs self)).
    right. split; assumption.
  - apply (steps_length d_dir_path d_dir_path (dir_touch fs) (fun p => p)
             (dir_step fs) (dir_step_touch fs) (dir_step_skip fs));
      [exact Hv1|].
    intros p Hin Ht. rewrite Hd1.
    apply (steps_keys d_dir_path d_dir_path (dir_touch fs) (fun p => p)
             (dir_step fs) (dir_step_touch fs) (dir_step_skip fs)).
    right. split; assumption.
  - intros path.
    rewrite (steps_attr f_file_path f_checksum (file_touch fs self)
               (md5_hexdigest fs) (file_step fs self)
               (file_step_touch fs self) (file_step_skip fs self)).
    destruct (existsb _ (rglob fs root_path)) eqn:E; [|reflexivity].
    rewrite Hf1.
    rewrite (steps_attr f_file_path f_checksum (file_touch fs self)
               (md5_hexdigest fs) (file_step fs self)
               (file_step_touch fs self) (file_step_skip fs self)).
    rewrite E. reflexivity.
Qed.

Lemma C4_reindex_idempotent_witness :
  reachable (rs_db demo_run2)
  /\ List.length (files (rs_db demo_run2))
     = List.length (files (rs_db demo_run1))
  /\ List.length (directories (rs_db demo_run2))
     = List.length (directories (rs_db demo_run1))
  /\ checksum_of "/data/a.txt" (rs_db demo_run2)
     = checksum_of "/data/a.txt" (rs_db demo_run1).
Proof.
  destruct (proj2 C4_reindex_idempotent demo_fs demo_indexer "/data" 100 200
              init_database [] reach_init)
    as (_ & H2 & Hf & Hd & Hc).
  split; [exact H2|]. split; [exact Hf|]. split; [exact Hd|].
  exact (Hc "/data/a.txt").
Defined.

(* ===================================================================== *)
(** ** Further properties of the code *)
(* ===================================================================== *)

(* --------------------------------------------------------------------- *)
(** *** The format registry and [init_database] *)

Arguments seeded : simpl never.
Arguments Schema.seed_format : simpl never.

(** A loop of statements that cannot violate a constraint touches only the
    working copy, and completes unless SQLite raises. *)
Lemma for_each_total {X : Type} (f : X -> db -> db) (l : list X) :
  forall (c c' : session) (r : unit + exn),
    for_each l (fun x => execute (fun s => inl (f x s))) c = (r, c') ->
    committed c' = committed c /\ log c' = log c
    /\ raises_at c' = raises_at c
    /\ (r = inl tt -> working c' = fold_left (fun w x => f x w) l (working c))
    /\ (raises_at c = None -> r = inl tt).
Proof.
  induction l as [|x l IH]; intros c c' r H.
  - cbv [for_each ret] in H. inversion H; subst. simpl. auto.
  - cbn [for_each] in H. unfold bind in H. rewrite execute_total in H.
    destruct (raises_at c) as [k|] eqn:Hk.
    + destruct (Nat.eqb k (executed c)).
      * inversion H; subst; simpl. repeat split; auto; discriminate.
      * apply IH in H. simpl in H.
        destruct H as (H1 & H2 & H3 & H4 & H5).
        repeat split; auto; congruence.
    + apply IH in H. simpl in H.
      destruct H as (H1 & H2 & H3 & H4 & H5).
      repeat split; auto; congruence.
Qed.

Lemma registered_insert (fmt : string * string * string) (ext : string)
    (rows : list file_formats_row) :
  registered ext (insert_or_ignore_format fmt rows)
  = orb (registered ext rows) (String.eqb (fst (fst fmt)) ext).
Proof.
  destruct fmt as [[e c] d]. unfold insert_or_ignore_format, registered. simpl.
  destruct (existsb (fun r => String.eqb (ff_extension r) e) rows) eqn:E.
  - destruct (String.eqb_spec e ext) as [->|Hne]; [|rewrite orb_false_r; reflexivity].
    rewrite E. reflexivity.
  - rewrite existsb_app. simpl. rewrite orb_false_r. reflexivity.
Qed.

Lemma insert_registered (fmt : string * string * string)
    (rows : list file_formats_row) :
  registered (fst (fst fmt)) rows = true ->
  insert_or_ignore_format fmt rows = rows.
Proof.
  destruct fmt as [[e c] d]. unfold insert_or_ignore_format, registered. simpl.
  intros ->. reflexivity.
Qed.

Lemma file_formats_seed_fold (fmts : list (string * string * string)) :
  forall s,
    file_formats (fold_left (fun w fmt => Schema.seed_format fmt w) fmts s)
    = fold_left (fun rows fmt => insert_or_ignore_format fmt rows) fmts
                (file_formats s).
Proof.
  induction fmts as [|fmt fmts IH]; intros s; simpl; [reflexivity|].
  rewrite IH. reflexivity.
Qed.

Lemma seed_fold_frame (fmts : list (string * string * string)) :
  forall s,
    fold_left (fun w fmt => Schema.seed_format fmt w) fmts s
    = set_file_formats
        (file_formats (fold_left (fun w fmt => Schema.seed_format fmt w) fmts s))
        s.
Proof.
  induction fmts as [|fmt fmts IH]; intros s; simpl.
  - destruct s; reflexivity.
  - rewrite IH at 1. reflexivity.
Qed.

Lemma registered_fold (fmts : list (string * string * string)) (ext : string) :
  forall rows,
    registered ext
      (fold_left (fun rows fmt => insert_or_ignore_format fmt rows) fmts rows)
    = orb (registered ext rows)
          (existsb (fun fmt => String.eqb (fst (fst fmt)) ext) fmts).
Proof.
  induction fmts as [|fmt fmts IH]; intros rows; simpl.
  - rewrite orb_false_r. reflexivity.
  - rewrite IH, registered_insert, orb_assoc. reflexivity.
Qed.

(** Seeding a registry that already holds every format of the list changes
    nothing. *)
Lemma fold_registered (fmts : list (string * string * string)) :
  forall rows,
    (forall fmt, In fmt fmts -> registered (fst (fst fmt)) rows = true) ->
    fold_left (fun rows fmt => insert_or_ignore_format fmt rows) fmts rows
    = rows.
Proof.
  induction fmts as [|fmt fmts IH]; intros rows H; simpl; [reflexivity|].
  rewrite insert_registered by (apply H; left; reflexivity).
  apply IH. intros f Hf. apply H. right. exact Hf.
Qed.

(** The rows a registry held before the seeding are kept, in place and
    unchanged; the rows added are enabled and take the rowids that follow. *)
Lemma fold_keeps_rows (fmts : list (string * string * string)) :
  forall rows,
    exists extra,
      fold_left (fun rows fmt => insert_or_ignore_format fmt rows) fmts rows
      = rows ++ extra
      /\ Forall (fun r => ff_is_enabled r = true
                          /\ registered (ff_extension r) rows = false
                          /\ In (ff_extension r)
                                (map (fun fmt => fst (fst fmt)) fmts)) extra.
Proof.
  induction fmts as [|fmt fmts IH]; intros rows; simpl.
  - exists []. rewrite app_nil_r. auto.
  - destruct (IH (insert_or_ignore_format fmt rows)) as (extra & He & Hall).
    destruct fmt as [[e c] d]. unfold insert_or_ignore_format in *.
    destruct (existsb (fun r => String.eqb (ff_extension r) e) rows) eqn:E.
    + exists extra. split; [exact He|].
      eapply Forall_impl; [|exact Hall]. simpl. intros r (H1 & H2 & H3). auto.
    + eexists. split; [rewrite He, <- app_assoc; reflexivity|].
      simpl. constructor; [simpl; auto|].
      eapply Forall_impl; [|exact Hall]. simpl. intros r (H1 & H2 & H3).
      split; [exact H1|]. split; [|auto].
      unfold registered in *. rewrite existsb_app in H2.
      apply orb_false_elim in H2. tauto.
Qed.

Lemma seeded_eq (s : db) :
  seeded s
  = set_file_formats
      (fold_left (fun rows fmt => insert_or_ignore_format fmt rows)
                 get_supported_formats (file_formats s))
      s.
Proof.
  unfold seeded. rewrite seed_fold_frame, file_formats_seed_fold. reflexivity.
Qed.

Lemma seeded_seeded (s : db) : seeded (seeded s) = seeded s.
Proof.
  rewrite (seeded_eq (seeded s)).
  rewrite fold_registered.
  - rewrite seeded_eq. reflexivity.
  - intros fmt Hfmt. rewrite seeded_eq. cbn [file_formats set_file_formats].
    rewrite registered_fold. apply orb_true_iff. right.
    apply existsb_exists. exists fmt. split; [exact Hfmt|].
    apply String.eqb_refl.
Qed.


(** What [init_database] leaves behind, whatever SQLite does. *)
Lemma init_database_session (c c' : session) (r : bool + exn) :
  Schema.init_database c = (r, c') ->
  committed c = working c ->
  log c' = log c
  /\ ((r = inl true /\ committed c' = seeded (working c))
      \/ (r = inl false
          /\ (committed c' = committed c
              \/ committed c' = seeded (working c))))
  /\ (raises_at c = None ->
      r = inl true /\ committed c' = seeded (working c)).
Proof.
  intros H Hcw.
  unfold Schema.init_database, try_except, bind in H.
  destruct (for_each Schema.schema_ddl Schema.execute_ddl c) as [r1 c1]
    eqn:H1.
  apply (for_each_total (fun (_ : Schema.ddl) (s : db) => s)) in H1.
  destruct H1 as (A1 & A2 & A3 & A4 & A5).
  destruct r1 as [[]|e1].
  - specialize (A4 eq_refl). simpl in A4.
    destruct (for_each get_supported_formats _ c1) as [r2 c2] eqn:H2.
    apply (for_each_total Schema.seed_format) in H2.
    destruct H2 as (B1 & B2 & B3 & B4 & B5).
    destruct r2 as [[]|e2].
    + specialize (B4 eq_refl). fold (seeded (working c1)) in B4.
      rewrite commit_total, B3, A3 in H.
      destruct (raises_at c) as [k|] eqn:Hf.
      * destruct (Nat.eqb k (executed c2)).
        { cbv [ret after_statement] in H. inversion H; subst.
          cbn [committed log]. rewrite B1, B2, A1, A2.
          split; [reflexivity|]. split; [auto|discriminate]. }
        cbn beta iota in H. rewrite query_total in H.
        cbn [raises_at executed working] in H. rewrite ?B3, ?A3, ?Hf in H.
        destruct (Nat.eqb k (S (executed c2)));
          cbv [ret after_statement] in H; inversion H; subst;
          cbn [committed log working]; rewrite B2, A2, B4, A4;
          (split; [reflexivity|]); (split; [auto|discriminate]).
      * cbn beta iota in H. rewrite query_total in H.
        cbn [raises_at executed working] in H. rewrite ?B3, ?A3, ?Hf in H.
        cbv [ret after_statement] in H; inversion H; subst.
        cbn [committed log working]. rewrite B2, A2, B4, A4. auto.
    + cbv [ret] in H; inversion H; subst.
      rewrite B1, B2, A1, A2.
      split; [reflexivity|]. split; [auto|].
      intros Hn. rewrite A3 in B5. specialize (B5 Hn). discriminate.
  - cbv [ret] in H; inversion H; subst.
    rewrite A1, A2. split; [reflexivity|]. split; [auto|].
    intros Hn. specialize (A5 Hn). discriminate.
Qed.

(** Where a loop of statements stops when SQLite raises at statement [k]. *)
Lemma for_each_fault {X : Type} (f : X -> db -> db) (l : list X) :
  forall (c c' : session) (r : unit + exn) (k : nat),
    raises_at c = Some k ->
    for_each l (fun x => execute (fun s => inl (f x s))) c = (r, c') ->
    (executed c <= k < executed c + List.length l -> r = inr OperationalError)
    /\ (k < executed c \/ executed c + List.length l <= k ->
        r = inl tt /\ executed c' = executed c + List.length l).
Proof.
  induction l as [|x l IH]; intros c c' r k Hk H.
  - cbv [for_each ret] in H. inversion H; subst. simpl.
    split; [lia|]. intros _. split; [reflexivity|lia].
  - cbn [for_each] in H. unfold bind in H. rewrite execute_total, Hk in H.
    destruct (Nat.eqb_spec k (executed c)) as [E|E].
    + inversion H; subst. simpl. split; [reflexivity|lia].
    + apply (IH _ _ _ k) in H; [|exact Hk]. simpl in H.
      destruct H as [H1 H2]. simpl. split.
      * intros Hr. apply H1. lia.
      * intros Hr. destruct H2 as [H2 H3]; [lia|]. split; [exact H2|lia].
Qed.

(** X1.  [init_database] may be run on any database file, again and again:
    when SQLite does not raise it returns [True], and a second run leaves
    the database exactly as the first one left it.  On a file that did not
    exist it leaves the seeded catalog a fresh indexer starts from. *)
Theorem X1_init_database_idempotent (s : db) (l : log_t) :
  let o1 := run Schema.init_database None s l in
  let o2 := run Schema.init_database None (db_after o1) (log_after o1) in
  result o1 = inl true /\ result o2 = inl true
  /\ db_after o2 = db_after o1
  /\ db_after (run Schema.init_database None empty_db l) = init_database.
Proof.
  assert (Hrun : forall s0 l0,
             result (run Schema.init_database None s0 l0) = inl true
             /\ db_after (run Schema.init_database None s0 l0) = seeded s0).
  { intros s0 l0. unfold run.
    destruct (Schema.init_database (connect s0 None l0)) as [r c'] eqn:H.
    apply init_database_session in H; [|reflexivity].
    destruct H as (_ & _ & H). exact (H eq_refl). }
  intros o1 o2.
  destruct (Hrun s l) as [R1 D1]. fold o1 in R1, D1.
  destruct (Hrun (db_after o1) (log_after o1)) as [R2 D2]. fold o2 in R2, D2.
  split; [exact R1|]. split; [exact R2|]. split.
  - rewrite D2, D1. apply seeded_seeded.
  - rewrite (proj2 (Hrun empty_db l)). reflexivity.
Qed.

(** X2.  [init_database] never raises, and the seeding is all or nothing.
    The call issues 36 statements: if SQLite raises at one of the first 35
    (schema, the twenty inserts, the commit) the call returns [False] and the
    registry is as before; if it raises at the last one, the count read back
    after the commit, the call still returns [False] although every format
    has been stored; otherwise it returns [True] with the registry seeded. *)
Theorem X2_init_database_all_or_nothing (s : db) (l : log_t) (k : nat) :
  let o := run Schema.init_database (Some k) s l in
  (k <= 34 -> result o = inl false /\ db_after o = s)
  /\ (k = 35 -> result o = inl false /\ db_after o = seeded s)
  /\ (36 <= k -> result o = inl true /\ db_after o = seeded s).
Proof.
  unfold run.
  destruct (Schema.init_database (connect s (Some k) l)) as [r c'] eqn:H.
  cbn [result db_after].
  unfold Schema.init_database, try_except, bind in H.
  destruct (for_each Schema.schema_ddl Schema.execute_ddl _) as [r1 c1]
    eqn:H1.
  pose proof H1 as F1.
  apply (for_each_total (fun (_ : Schema.ddl) (s : db) => s)) in H1.
  apply (for_each_fault (fun (_ : Schema.ddl) (s : db) => s) _ _ _ _ k) in F1;
    [|reflexivity].
  cbn [executed connect List.length Schema.schema_ddl] in F1.
  destruct H1 as (A1 & A2 & A3 & A4 & A5). cbn [committed connect] in A1.
  destruct F1 as [F1 F1'].
  destruct (Nat.lt_ge_cases k 14) as [Hlt|Hge].
  { rewrite F1 in H by lia. cbv [ret] in H. injection H as <- <-.
    rewrite A1. repeat split; try lia; reflexivity. }
  destruct F1' as [-> E1]; [lia|].
  specialize (A4 eq_refl). simpl in A4, E1.
  destruct (for_each get_supported_formats _ c1) as [r2 c2] eqn:H2.
  pose proof H2 as F2.
  apply (for_each_total Schema.seed_format) in H2.
  apply (for_each_fault Schema.seed_format _ _ _ _ k) in F2;
    [|rewrite A3; reflexivity].
  rewrite E1 in F2. cbn [List.length get_supported_formats] in F2.
  destruct H2 as (B1 & B2 & B3 & B4 & B5).
  destruct F2 as [F2 F2'].
  destruct (Nat.lt_ge_cases k 34) as [Hlt|Hge'].
  { rewrite F2 in H by lia. cbv [ret] in H. injection H as <- <-.
    rewrite B1, A1. repeat split; try lia; reflexivity. }
  destruct F2' as [-> E2]; [lia|].
  specialize (B4 eq_refl). fold (seeded (working c1)) in B4.
  rewrite A4 in B4. cbn [working connect] in B4. simpl in E2.
  rewrite commit_total, B3, A3 in H. cbn [raises_at connect] in H.
  rewrite E2 in H.
  destruct (Nat.eqb_spec k 34) as [E34|N34].
  { cbv [ret after_statement] in H. injection H as <- <-.
    cbn [committed]. rewrite B1, A1.
    repeat split; try lia; reflexivity. }
  cbn beta iota in H. rewrite query_total in H.
  cbn [raises_at executed working] in H.
  rewrite ?B3, ?A3, ?E2 in H. cbn [raises_at connect] in H.
  destruct (Nat.eqb_spec k 35) as [E35|N35];
    cbv [ret after_statement] in H; injection H as <- <-;
    cbn [committed]; rewrite B4;
    repeat split; try lia; reflexivity.
Qed.


Lemma mem_extensions (ext : string) (rows : list file_formats_row) :
  Py.mem ext (map ff_extension rows) = registered ext rows.
Proof.
  unfold Py.mem, registered.
  induction rows as [|r rows IH]; simpl; [reflexivity|].
  rewrite IH, (String.eqb_sym ext). reflexivity.
Qed.

Lemma mem_map {X : Type} (g : X -> string) (ext : string) (l : list X) :
  Py.mem ext (map g l) = existsb (fun x => String.eqb (g x) ext) l.
Proof.
  unfold Py.mem.
  induction l as [|x l IH]; simpl; [reflexivity|].
  rewrite IH, (String.eqb_sym ext). reflexivity.
Qed.

Lemma registered_filter_enabled (ext : string) (rows : list file_formats_row) :
  registered ext (filter ff_is_enabled rows) = true ->
  registered ext rows = true.
Proof.
  unfold registered. intros H. apply existsb_exists in H.
  destruct H as (r & Hin & Hr). apply filter_In in Hin.
  apply existsb_exists. exists r. tauto.
Qed.

(** X3.  Running [init_database] on a database that already has a registry
    keeps every row of it in place, so a format that was switched off stays
    off: for an extension that had a row, being supported is unchanged; an
    extension that had none is supported afterwards exactly when it is in the
    built-in list. *)
Theorem X3_init_database_keeps_registry (s : db) (l : log_t) (ext : string) :
  let o := run Schema.init_database None s l in
  (exists extra, file_formats (db_after o) = file_formats s ++ extra)
  /\ (registered ext (file_formats s) = true ->
      Py.mem ext (_get_supported_formats (db_after o))
      = Py.mem ext (_get_supported_formats s))
  /\ (registered ext (file_formats s) = false ->
      Py.mem ext (_get_supported_formats (db_after o))
      = Py.mem ext builtin_extensions).
Proof.
  intros o.
  assert (Hdb : db_after o = seeded s).
  { subst o. unfold run.
    destruct (Schema.init_database (connect s None l)) as [r c'] eqn:H.
    apply init_database_session in H; [|reflexivity].
    destruct H as (_ & _ & H). exact (proj2 (H eq_refl)). }
  rewrite Hdb, seeded_eq. cbn [file_formats set_file_formats].
  destruct (fold_keeps_rows get_supported_formats (file_formats s))
    as (extra & Hfold & Hextra).
  pose proof (registered_fold get_supported_formats ext (file_formats s))
    as Hreg.
  unfold _get_supported_formats, Sql.select_enabled_extensions.
  cbn [file_formats set_file_formats].
  rewrite Hfold in *. clear Hfold.
  split; [exists extra; reflexivity|].
  rewrite filter_app, map_app. unfold Py.mem at 1 3. rewrite existsb_app.
  fold (Py.mem ext (map ff_extension (filter ff_is_enabled (file_formats s)))).
  fold (Py.mem ext (map ff_extension (filter ff_is_enabled extra))).
  rewrite !mem_extensions.
  assert (Hall : filter ff_is_enabled extra = extra).
  { clear Hreg. induction Hextra as [|r rs (He & _) _ IH]; simpl;
      [reflexivity|]. rewrite He, IH. reflexivity. }
  rewrite Hall. split.
  - intros Hin.
    assert (Hno : registered ext extra = false).
    { apply not_true_is_false. intros H. unfold registered in H.
      apply existsb_exists in H. destruct H as (r & Hr & He).
      apply String.eqb_eq in He. subst ext.
      apply (proj1 (Forall_forall _ _) Hextra) in Hr.
      destruct Hr as (_ & Hr & _). congruence. }
    rewrite Hno, orb_false_r. reflexivity.
  - intros Hout.
    assert (Hno : registered ext (filter ff_is_enabled (file_formats s))
                  = false).
    { apply not_true_is_false. intros H.
      apply registered_filter_enabled in H. congruence. }
    rewrite Hno, orb_false_l.
    unfold registered in Hreg at 1. rewrite existsb_app in Hreg.
    fold (registered ext (file_formats s)) in Hreg.
    fold (registered ext extra) in Hreg.
    rewrite Hout, !orb_false_l in Hreg. rewrite Hreg.
    unfold builtin_extensions. rewrite mem_map. reflexivity.
Qed.


Lemma X2_init_database_all_or_nothing_witness :
  let o := run Schema.init_database (Some 20) demo_registry_off [] in
  result o = inl false /\ db_after o = demo_registry_off.
Proof.
  apply (proj1 (X2_init_database_all_or_nothing demo_registry_off [] 20)).
  lia.
Defined.

Lemma X3_init_database_keeps_registry_witness :
  Py.mem "pdf"
    (_get_supported_formats
       (db_after (run Schema.init_database None demo_registry_off [])))
  = Py.mem "pdf" (_get_supported_formats demo_registry_off).
Proof.
  apply (proj1 (proj2 (X3_init_database_keeps_registry demo_registry_off []
                         "pdf"))).
  reflexivity.
Defined.

(* --------------------------------------------------------------------- *)
(** *** Names and extensions *)

Lemma length_append (a b : string) :
  String.length (String.append a b) = String.length a + String.length b.
Proof.
  induction a as [|c a IH]; simpl; [reflexivity|]. rewrite IH. reflexivity.
Qed.

Lemma substring_all (t : string) : substring 0 (String.length t) t = t.
Proof.
  induction t as [|c t IH]; simpl; [reflexivity|]. rewrite IH. reflexivity.
Qed.

Lemma substring_skip (pre t : string) (m : nat) :
  substring (String.length pre) m (String.append pre t) = substring 0 m t.
Proof.
  induction pre as [|c pre IH]; simpl; [reflexivity|]. exact IH.
Qed.

(** [(pre + t)[len(pre):] == t] *)
Lemma slice_from_append (pre t : string) :
  Py.slice_from (String.length pre) (String.append pre t) = t.
Proof.
  unfold Py.slice_from. rewrite length_append, substring_skip.
  replace (String.length pre + String.length t - String.length pre)
    with (String.length t) by lia.
  apply substring_all.
Qed.

Lemma rfind_from_absent (c : ascii) (s : string) :
  forall k last,
    has_char c s = false -> Py.rfind_from c s k last = last.
Proof.
  induction s as [|a s IH]; intros k last H; simpl in *; [reflexivity|].
  apply orb_false_elim in H. destruct H as [Ha Hs].
  rewrite Ha. apply IH, Hs.
Qed.

(** [rfind] finds the last occurrence. *)
Lemma rfind_from_last (c : ascii) (pre post : string) :
  forall k last,
    has_char c post = false ->
    Py.rfind_from c (String.append pre (String c post)) k last
    = Some (k + String.length pre).
Proof.
  induction pre as [|a pre IH]; intros k last H; simpl.
  - rewrite Ascii.eqb_refl, rfind_from_absent by exact H.
    f_equal. lia.
  - rewrite IH by exact H. f_equal. lia.
Qed.

Lemma rfind_from_found (c : ascii) (s : string) :
  forall k last i,
    Py.rfind_from c s k last = Some i ->
    (last = Some i /\ has_char c s = false)
    \/ exists pre post,
         s = String.append pre (String c post)
         /\ i = k + String.length pre
         /\ has_char c post = false.
Proof.
  induction s as [|a s IH]; intros k last i H; simpl in *; [auto|].
  apply IH in H. destruct H as [[Hl Hs]|(pre & post & -> & -> & Hp)].
  - destruct (Ascii.eqb_spec a c) as [->|Hne].
    + right. exists EmptyString, s. simpl.
      inversion Hl; subst. repeat split; [f_equal; lia|exact Hs].
    + left. simpl. auto.
  - right. exists (String a pre), post. simpl.
    repeat split; [lia|exact Hp].
Qed.


Lemma lower_ascii_dot (c : ascii) :
  Ascii.eqb (Py.lower_ascii c) "."%char = Ascii.eqb c "."%char.
Proof. destruct c as [[] [] [] [] [] [] [] []]; reflexivity. Qed.

Lemma lower_ascii_idempotent (c : ascii) :
  Py.lower_ascii (Py.lower_ascii c) = Py.lower_ascii c.
Proof. destruct c as [[] [] [] [] [] [] [] []]; reflexivity. Qed.

Lemma lower_idempotent (s : string) : Py.lower (Py.lower s) = Py.lower s.
Proof.
  induction s as [|c s IH]; simpl; [reflexivity|].
  rewrite lower_ascii_idempotent, IH. reflexivity.
Qed.

Lemma has_dot_lower (s : string) :
  has_char "."%char (Py.lower s) = has_char "."%char s.
Proof.
  induction s as [|c s IH]; simpl; [reflexivity|].
  rewrite lower_ascii_dot, IH. reflexivity.
Qed.

Lemma lstrip_dot_no_dot (s : string) :
  has_char "."%char s = false -> Py.lstrip_dot s = s.
Proof.
  destruct s as [|c s]; [reflexivity|]. simpl. intros H.
  apply orb_false_elim in H. destruct H as [Hc _].
  destruct c as [[] [] [] [] [] [] [] []]; try reflexivity. discriminate.
Qed.

Lemma lstrip_dot_cons (s : string) :
  Py.lstrip_dot (String "."%char s) = Py.lstrip_dot s.
Proof. reflexivity. Qed.

(** [PurePath.suffix] is empty, or it is the last dot of the name and what
    follows it, neither the stem before the dot nor that rest being empty. *)
Lemma suffix_found (p : string) :
  Py.suffix p = EmptyString
  \/ exists pre post,
       Py.name p = String.append pre (String "."%char post)
       /\ pre <> EmptyString /\ post <> EmptyString
       /\ has_char "."%char post = false
       /\ Py.suffix p = String "."%char post.
Proof.
  unfold Py.suffix, Py.rfind.
  destruct (Py.rfind_from "."%char (Py.name p) 0 None) as [i|] eqn:E; [|auto].
  apply rfind_from_found in E.
  destruct E as [[E _]|(pre & post & Hn & -> & Hp)]; [discriminate|].
  rewrite Hn. simpl. rewrite length_append. simpl.
  destruct (andb _ _) eqn:Hc; [|auto]. right.
  apply andb_prop in Hc. destruct Hc as [H0 H1].
  apply Nat.ltb_lt in H0. apply Nat.ltb_lt in H1.
  exists pre, post. rewrite slice_from_append.
  repeat split; auto.
  - intros ->. simpl in H0. lia.
  - intros ->. simpl in H1. lia.
Qed.

Lemma suffix_of_name (p pre post : string) :
  Py.name p = String.append pre (String "."%char post) ->
  pre <> EmptyString -> post <> EmptyString ->
  has_char "."%char post = false ->
  Py.suffix p = String "."%char post.
Proof.
  intros Hn Hpre Hpost Hp. unfold Py.suffix, Py.rfind.
  rewrite Hn, rfind_from_last by exact Hp. simpl.
  rewrite length_append. simpl.
  assert (H0 : Nat.ltb 0 (String.length pre) = true).
  { apply Nat.ltb_lt. destruct pre; [congruence|simpl; lia]. }
  assert (H1 : Nat.ltb (String.length pre)
                 (String.length pre + S (String.length post) - 1) = true).
  { apply Nat.ltb_lt. destruct post; [congruence|simpl; lia]. }
  rewrite H0, H1. simpl. apply slice_from_append.
Qed.



(** **** Paths as pathlib parses them *)

Lemma split_sep_nonempty (s : string) : Py.split_sep s <> [].
Proof.
  destruct s as [|c r]; simpl; [discriminate|].
  destruct (Ascii.eqb c "/"%char); [discriminate|].
  destruct (Py.split_sep r); discriminate.
Qed.

(** [(a + '/' + b).split('/') == a.split('/') + b.split('/')] *)
Lemma split_sep_append (a b : string) :
  Py.split_sep (String.append a (String "/"%char b))
  = Py.split_sep a ++ Py.split_sep b.
Proof.
  induction a as [|c a IH]; [reflexivity|].
  cbn [String.append Py.split_sep]. rewrite IH.
  destruct (Ascii.eqb c "/"%char); [reflexivity|].
  destruct (Py.split_sep a) as [|x xs] eqn:E; [|reflexivity].
  exfalso. exact (split_sep_nonempty a E).
Qed.

Lemma split_sep_part (x : string) :
  has_char "/"%char x = false -> Py.split_sep x = [x].
Proof.
  induction x as [|c x IH]; intros H; [reflexivity|].
  simpl in H. apply orb_false_elim in H. destruct H as [Hc Hx].
  cbn [Py.split_sep]. rewrite Hc, (IH Hx). reflexivity.
Qed.

Lemma split_sep_no_separator (s x : string) :
  In x (Py.split_sep s) -> has_char "/"%char x = false.
Proof.
  revert x. induction s as [|c r IH]; intros x Hin.
  - destruct Hin as [<-|[]]. reflexivity.
  - cbn [Py.split_sep] in Hin.
    destruct (Ascii.eqb c "/"%char) eqn:Hc.
    + destruct Hin as [<-|Hin]; [reflexivity|exact (IH x Hin)].
    + destruct (Py.split_sep r) as [|y ys].
      * destruct Hin as [<-|[]]. simpl. rewrite Hc. reflexivity.
      * destruct Hin as [<-|Hin].
        -- simpl. rewrite Hc. apply IH. left. reflexivity.
        -- apply IH. right. exact Hin.
Qed.

Lemma components_are_components (p x : string) :
  In x (Py.components p) -> component x.
Proof.
  unfold Py.components. intros H. apply filter_In in H. destruct H as [H K].
  split; [exact (split_sep_no_separator p x H)|exact K].
Qed.

Lemma components_append (a b : string) :
  Py.components (String.append a (String "/"%char b))
  = Py.components a ++ Py.components b.
Proof.
  unfold Py.components. rewrite split_sep_append. apply filter_app.
Qed.

Lemma components_one (x : string) : component x -> Py.components x = [x].
Proof.
  intros [Hs Hk]. unfold Py.components.
  rewrite (split_sep_part x Hs). simpl. rewrite Hk. reflexivity.
Qed.

Lemma filter_all {A : Type} (f : A -> bool) (l : list A) :
  (forall x, In x l -> f x = true) -> filter f l = l.
Proof.
  induction l as [|a l IH]; intros H; simpl; [reflexivity|].
  rewrite (H a (or_introl eq_refl)), IH; [reflexivity|].
  intros x Hx. apply H. right. exact Hx.
Qed.

Lemma concat_cons (x y : string) (t : list string) :
  String.concat "/" (x :: y :: t)
  = String.append x (String "/"%char (String.concat "/" (y :: t))).
Proof. reflexivity. Qed.

Lemma split_sep_concat (cs : list string) :
  cs <> [] -> (forall x, In x cs -> component x) ->
  Py.split_sep (String.concat "/" cs) = cs.
Proof.
  induction cs as [|x t IH]; intros Hne H; [congruence|].
  destruct t as [|y t].
  - simpl. apply split_sep_part. apply (H x). left. reflexivity.
  - rewrite concat_cons, split_sep_append, IH.
    + rewrite split_sep_part; [reflexivity|]. apply (H x). left. reflexivity.
    + discriminate.
    + intros z Hz. apply H. right. exact Hz.
Qed.

Lemma components_concat (cs : list string) :
  (forall x, In x cs -> component x) ->
  Py.components (String.concat "/" cs) = cs.
Proof.
  intros H. destruct cs as [|x t]; [reflexivity|].
  unfold Py.components. rewrite split_sep_concat by (discriminate || exact H).
  apply filter_all. intros z Hz. apply (H z Hz).
Qed.

Lemma root_relative (c : ascii) (r : string) :
  Ascii.eqb c "/"%char = false -> Py.root (String c r) = EmptyString.
Proof.
  intros H. destruct c as [[] [] [] [] [] [] [] []]; try reflexivity.
  discriminate H.
Qed.

Lemma root_one (c : ascii) (r : string) :
  Ascii.eqb c "/"%char = false ->
  Py.root (String "/"%char (String c r)) = "/".
Proof.
  intros H. destruct c as [[] [] [] [] [] [] [] []]; try reflexivity.
  discriminate H.
Qed.

Lemma root_two (c : ascii) (r : string) :
  Ascii.eqb c "/"%char = false ->
  Py.root (String "/"%char (String "/"%char (String c r))) = "//".
Proof.
  intros H. destruct c as [[] [] [] [] [] [] [] []]; try reflexivity.
  discriminate H.
Qed.

(** The three roots of a POSIX path. *)
Lemma root_cases (p : string) :
  Py.root p = EmptyString \/ Py.root p = "/" \/ Py.root p = "//".
Proof.
  destruct p as [|c1 p]; [left; reflexivity|].
  destruct (Ascii.eqb c1 "/"%char) eqn:H1;
    [|left; apply root_relative; exact H1].
  apply Ascii.eqb_eq in H1. subst c1. right.
  destruct p as [|c2 p]; [left; reflexivity|].
  destruct (Ascii.eqb c2 "/"%char) eqn:H2;
    [|left; apply root_one; exact H2].
  apply Ascii.eqb_eq in H2. subst c2.
  destruct p as [|c3 p]; [right; reflexivity|].
  destruct (Ascii.eqb c3 "/"%char) eqn:H3;
    [|right; apply root_two; exact H3].
  apply Ascii.eqb_eq in H3. subst c3. left. reflexivity.
Qed.

(** The text of a non-empty list of components starts with a character that
    is not the separator. *)
Lemma concat_head (x : string) (t : list string) :
  component x ->
  exists c r, String.concat "/" (x :: t) = String c r
              /\ Ascii.eqb c "/"%char = false.
Proof.
  intros [Hs Hk]. destruct x as [|c x]; [discriminate Hk|].
  simpl in Hs. apply orb_false_elim in Hs. destruct Hs as [Hc _].
  exists c. destruct t as [|y t]; eexists; (split; [reflexivity|exact Hc]).
Qed.

(** Parsing the text of a path gives back its root and its components. *)
Lemma parse_format (r : string) (cs : list string) :
  r = EmptyString \/ r = "/" \/ r = "//" ->
  (forall x, In x cs -> component x) ->
  Py.root (Py.format r cs) = r /\ Py.components (Py.format r cs) = cs.
Proof.
  intros Hr H.
  assert (Hhead : cs = [] \/ exists c s, String.concat "/" cs = String c s
                                   /\ Ascii.eqb c "/"%char = false).
  { destruct cs as [|x t]; [left; reflexivity|right].
    apply concat_head. apply H. left. reflexivity. }
  pose proof (components_concat cs H) as Hc.
  destruct Hr as [->|[->| ->]]; unfold Py.format; cbn [String.eqb Ascii.eqb].
  - destruct cs as [|x t]; [split; reflexivity|].
    destruct Hhead as [Hh|(c & s & Hh & Hn)]; [discriminate|].
    split; [|exact Hc]. rewrite Hh. apply root_relative. exact Hn.
  - cbn [String.append]. split.
    + destruct Hhead as [->|(c & s & -> & Hn)]; [reflexivity|].
      apply root_one. exact Hn.
    + unfold Py.components in *. cbn [Py.split_sep Ascii.eqb Bool.eqb].
      cbn [filter Py.kept_part String.eqb orb negb]. exact Hc.
  - cbn [String.append]. split.
    + destruct Hhead as [->|(c & s & -> & Hn)]; [reflexivity|].
      apply root_two. exact Hn.
    + unfold Py.components in *. cbn [Py.split_sep Ascii.eqb Bool.eqb].
      cbn [filter Py.kept_part String.eqb orb negb]. exact Hc.
Qed.

(** The entry [name] of the directory [dir]: same root, one more
    component. *)
Lemma make_child_relpath_parts (dir name : string) :
  component name ->
  Py.root (Py.make_child_relpath dir name) = Py.root dir
  /\ Py.components (Py.make_child_relpath dir name)
     = Py.components dir ++ [name].
Proof.
  intros Hn. unfold Py.make_child_relpath.
  apply parse_format; [apply root_cases|].
  intros x Hx. apply in_app_or in Hx. destruct Hx as [Hx|[<-|[]]].
  - exact (components_are_components dir x Hx).
  - exact Hn.
Qed.

(** [PurePosixPath(p).name] holds no separator and is never ["."]; it is the
    last component of the text. *)
Lemma name_component (p : string) :
  has_char "/"%char (Py.name p) = false /\ Py.name p <> ".".
Proof.
  unfold Py.name.
  destruct (Py.components p) as [|x t] eqn:E using rev_ind.
  - split; [reflexivity|discriminate].
  - rewrite last_last.
    assert (H : component x).
    { apply (components_are_components p). rewrite E.
      apply in_or_app. right. left. reflexivity. }
    destruct H as [Hs Hk]. split; [exact Hs|]. intros ->. discriminate Hk.
Qed.

Lemma name_of_entry (p name : string) :
  component name ->
  p = name
  \/ (exists dir, p = String.append dir (String "/"%char name))
  \/ (exists dir, p = Py.make_child_relpath dir name) ->
  Py.name p = name.
Proof.
  intros Hn [->|[[dir ->]|[dir ->]]]; unfold Py.name.
  - rewrite (components_one name Hn). reflexivity.
  - rewrite components_append, (components_one name Hn). apply last_last.
  - rewrite (proj2 (make_child_relpath_parts dir name Hn)). apply last_last.
Qed.

(** X4.  For a file whose suffix is ASCII text, the extension in the record
    that [_process_file] returns is what follows the last dot of the file
    name, lower-cased: it holds no dot, lower-casing it again changes nothing,
    and it is empty exactly in the cases [PurePath.suffix] gives no suffix.
    Conversely a name [stem.rest] with a non-empty stem and a non-empty,
    dot-free rest always gets the extension [rest.lower()]. *)
Theorem X4_stored_extension (fs : filesystem) (self : FileIndexer)
    (path : string) (now : time) (fi : file_info.t) (l : log_t) :
  _process_file fs self path now = (Some fi, l) ->
  Py.isascii (Py.suffix path) = true ->
  has_char "."%char (file_info.file_extension fi) = false
  /\ Py.lower (file_info.file_extension fi) = file_info.file_extension fi
  /\ (file_info.file_extension fi = EmptyString
      \/ exists stem rest,
           file_info.file_name fi
           = String.append stem (String "."%char rest)
           /\ stem <> EmptyString /\ rest <> EmptyString
           /\ file_info.file_extension fi = Py.lower rest)
  /\ (forall stem rest,
         file_info.file_name fi = String.append stem (String "."%char rest) ->
         stem <> EmptyString -> rest <> EmptyString ->
         has_char "."%char rest = false ->
         file_info.file_extension fi = Py.lower rest).
Proof.
  intros Hp _.
  destruct (process_file_path _ _ _ _ _ _ Hp) as (_ & _ & Hname & Hext & _).
  rewrite Hext, Hname. clear Hp Hext Hname.
  assert (Hconv : forall stem rest,
             Py.name path = String.append stem (String "."%char rest) ->
             stem <> EmptyString -> rest <> EmptyString ->
             has_char "."%char rest = false ->
             Py.lstrip_dot (Py.lower (Py.suffix path)) = Py.lower rest).
  { intros stem rest Hn Hs Hr Hd.
    rewrite (suffix_of_name path stem rest Hn Hs Hr Hd).
    cbn [Py.lower]. change (Py.lower_ascii "."%char) with "."%char.
    rewrite lstrip_dot_cons. apply lstrip_dot_no_dot.
    rewrite has_dot_lower. exact Hd. }
  destruct (suffix_found path)
    as [Hs|(stem & rest & Hn & Hstem & Hrest & Hd & Hs)].
  - rewrite Hs. simpl. repeat split; auto.
    intros stem rest Hn Hstem Hrest Hd.
    rewrite <- (Hconv stem rest Hn Hstem Hrest Hd), Hs. reflexivity.
  - rewrite (Hconv stem rest Hn Hstem Hrest Hd).
    split; [rewrite has_dot_lower; exact Hd|].
    split; [apply lower_idempotent|].
    split; [right; exists stem, rest; auto|].
    intros stem' rest' Hn' Hs' Hr' Hd'.
    rewrite <- (Hconv stem' rest' Hn' Hs' Hr' Hd').
    symmetry. apply (Hconv stem rest Hn Hstem Hrest Hd).
Qed.

Lemma X4_stored_extension_witness :
  exists fi,
    fst (_process_file demo_fs demo_indexer "/data/B.XYZ" 7) = Some fi
    /\ file_info.file_extension fi = "xyz"
    /\ has_char "."%char (file_info.file_extension fi) = false.
Proof.
  destruct (_process_file demo_fs demo_indexer "/data/B.XYZ" 7) as [[fi|] l]
    eqn:Hp; [|vm_compute in Hp; discriminate Hp].
  destruct (X4_stored_extension demo_fs demo_indexer "/data/B.XYZ" 7 fi l Hp
              eq_refl)
    as (H1 & _ & _ & H4).
  exists fi. split; [reflexivity|]. split; [|exact H1].
  apply (H4 "B" "XYZ"); [|discriminate|discriminate|reflexivity].
  destruct (process_file_path _ _ _ _ _ _ Hp) as (_ & _ & Hname & _).
  exact Hname.
Defined.

(** X5.  In the record that [_process_file] returns the path is the text it
    was given, and the name holds no path separator and is never ["."].  For
    the entry [name] of a directory, written [name], [dir/name] or as
    [Path.rglob] builds it, the stored name is [name]. *)
Theorem X5_stored_name (fs : filesystem) (self : FileIndexer)
    (path : string) (now : time) (fi : file_info.t) (l : log_t) :
  _process_file fs self path now = (Some fi, l) ->
  file_info.file_path fi = path
  /\ has_char "/"%char (file_info.file_name fi) = false
  /\ file_info.file_name fi <> "."
  /\ (forall name,
         has_char "/"%char name = false -> Py.kept_part name = true ->
         path = name
         \/ (exists dir, path = String.append dir (String "/"%char name))
         \/ (exists dir, path = Py.make_child_relpath dir name) ->
         file_info.file_name fi = name).
Proof.
  intros Hp.
  destruct (process_file_path _ _ _ _ _ _ Hp) as (Hpath & _ & Hname & _).
  rewrite Hname. split; [exact Hpath|].
  destruct (name_component path) as [H1 H2].
  split; [exact H1|]. split; [exact H2|].
  intros name Hs Hk H. apply name_of_entry; [split; assumption|exact H].
Qed.

Lemma X5_stored_name_witness :
  exists fi,
    fst (_process_file demo_fs demo_indexer "/data/b.xyz" 7) = Some fi
    /\ file_info.file_path fi = "/data/b.xyz"
    /\ file_info.file_name fi = "b.xyz".
Proof.
  destruct (_process_file demo_fs demo_indexer "/data/b.xyz" 7) as [[fi|] l]
    eqn:Hp; [|vm_compute in Hp; discriminate Hp].
  destruct (X5_stored_name demo_fs demo_indexer "/data/b.xyz" 7 fi l Hp)
    as (H1 & _ & _ & H4).
  exists fi. split; [reflexivity|]. split; [exact H1|].
  apply (H4 "b.xyz"); [reflexivity|reflexivity|].
  right. left. exists "/data". reflexivity.
Defined.


(* --------------------------------------------------------------------- *)
(** *** The record of a file *)




(* --------------------------------------------------------------------- *)
(** *** [_save_to_db] *)

(** X7.  [_save_to_db] never raises.  It issues two statements for a record
    that is not ['processed'] and three for one that is (the insert into
    [files], the insert into the queue, the commit): when SQLite raises at
    one of them the error is logged and the database is exactly as before
    the call, the replaced row included; a failure later on the connection
    does not concern the call. *)
Theorem X7_save_rolls_back (fi : file_info.t) (now : time) (k : nat) (s : db)
    (l : log_t) :
  let n := if processing_status_eqb (file_info.processing_status fi) processed
           then 3 else 2 in
  let o := run (_save_to_db fi now) (Some k) s l in
  result o = inl tt
  /\ (k < n ->
      db_after o = s
      /\ log_after o = l ++ [(ERROR, SaveError OperationalError)])
  /\ (n <= k ->
      db_after o = db_after (run (_save_to_db fi now) None s l)
      /\ log_after o = l).
Proof.
  unfold _save_to_db.
  destruct (processing_status_eqb (file_info.processing_status fi) processed).
  - do 3 (destruct k as [|k];
          [run_conn; unfold Sql.insert_queue;
           rewrite ?select_file_id_replaced; simpl;
           repeat split; auto; intros; lia|]).
    run_conn; unfold Sql.insert_queue; rewrite ?select_file_id_replaced; simpl.
    repeat split; auto; intros; lia.
  - do 2 (destruct k as [|k];
          [run_conn; repeat split; auto; intros; lia|]).
    run_conn. repeat split; auto; intros; lia.
Qed.

Lemma X7_save_rolls_back_witness :
  let o := run (_save_to_db demo_info 300) (Some 2) init_database [] in
  db_after o = init_database
  /\ log_after o = [(ERROR, SaveError OperationalError)].
Proof.
  apply (proj1 (proj2 (X7_save_rolls_back demo_info 300 2 init_database []))).
  simpl. lia.
Defined.

(** X8.  After a [_save_to_db] that commits, looking the path up gives the
    row that was written, with every field of the record, under a rowid
    larger than every rowid [files] held; the rows of all other paths are
    what they were; the queue is untouched unless the record is
    ['processed']; and no table of directories, annotations or formats is
    touched. *)
Theorem X8_save_then_lookup (fi : file_info.t) (now : time) (s : db)
    (l : log_t) :
  let o := run (_save_to_db fi now) None s l in
  Sql.select_file (file_info.file_path fi) (db_after o)
  = Some (Sql.files_values (new_rowid f_id (files s)) fi)
  /\ (forall r, In r (files s) -> f_id r < new_rowid f_id (files s))
  /\ (forall q, q <> file_info.file_path fi ->
                Sql.select_file q (db_after o) = Sql.select_file q s)
  /\ (file_info.processing_status fi <> processed ->
      processing_queue (db_after o) = processing_queue s)
  /\ directories (db_after o) = directories s
  /\ directory_docs (db_after o) = directory_docs s
  /\ directory_tags (db_after o) = directory_tags s
  /\ directory_relations (db_after o) = directory_relations s
  /\ file_formats (db_after o) = file_formats s.
Proof.
  intros o.
  destruct (save_to_db_outcome fi now None s l) as (_ & _ & H).
  destruct (H eq_refl) as [Hdb _]. fold o in Hdb. rewrite Hdb.
  split; [apply select_file_saved|].
  split.
  { intros r Hr. unfold new_rowid.
    pose proof (max_rowid_ge f_id (files s) r Hr). lia. }
  split; [intros q Hq; apply select_file_saved_other, Hq|].
  unfold saved.
  destruct (file_info.processing_status fi); simpl;
    repeat split; auto; congruence.
Qed.

Lemma X8_save_then_lookup_witness :
  Sql.select_file "/data/a.txt"
    (db_after (run (_save_to_db demo_info 300) None (rs_db demo_run1) []))
  = Sql.select_file "/data/a.txt" (rs_db demo_run1).
Proof.
  apply (proj1 (proj2 (proj2 (X8_save_then_lookup demo_info 300
                                (rs_db demo_run1) [])))).
  discriminate.
Defined.


(* --------------------------------------------------------------------- *)
(** *** [_process_directory] *)









Lemma stamped_ids (now : time) (dir_id : nat) (rows : list directories_row) :
  map d_id
      (map (fun r => if Nat.eqb (d_id r) dir_id then Sql.stamp now r else r)
           rows)
  = map d_id rows.
Proof.
  rewrite map_map. apply map_ext. intros r.
  destruct (Nat.eqb (d_id r) dir_id); reflexivity.
Qed.







Lemma filter_nothing {A : Type} (f : A -> bool) (l : list A) :
  (forall x, In x l -> f x = false) -> filter f l = [].
Proof.
  induction l as [|x l IH]; simpl; intros H; [reflexivity|].
  rewrite (H x) by auto. apply IH. intros y Hy. apply H. auto.
Qed.




(* --------------------------------------------------------------------- *)
(** *** [index_directory] *)

(** One entry of the loop, whatever SQLite does: nothing is raised, the
    database is as before or holds the write of the entry, and the counters
    move by the status of the record alone. *)
Lemma index_entry_any (fs : filesystem) (self : FileIndexer)
    (faults : string -> option nat) (path : string) (now : time)
    (r : run_state) :
  let e := index_entry fs self faults path now r in
  fst e = inl tt
  /\ (rs_db (snd e) = rs_db r
      \/ (exists fi, rs_db (snd e) = saved fi now (rs_db r))
      \/ (exists dir_stat,
            rs_db (snd e) = directory_saved path dir_stat now (rs_db r)))
  /\ (faults path = Some 0 -> rs_db (snd e) = rs_db r)
  /\ counters (snd e)
     = (if counted_processed fs self path
        then (S (rs_processed r), rs_skipped r, rs_failed r)
        else if counted_skipped fs self path
             then (rs_processed r, S (rs_skipped r), rs_failed r)
             else counters r).
Proof.
  intros e. subst e.
  unfold index_entry, counted_processed, counted_skipped, file_touch.
  destruct (is_file fs path) eqn:Hfile.
  - destruct (_process_file fs self path now) as [[fi|] lp] eqn:Hp.
    + destruct (proj2 (process_file_some fs self path now)
                  (ex_intro _ fi (ex_intro _ lp Hp))) as [Hst Hconv].
      pose proof (process_file_status _ _ _ _ _ _ Hp) as Hstatus.
      destruct (os_stat fs path) as [st|]; [|congruence].
      rewrite Hconv.
      destruct (save_to_db_outcome fi now (faults path) (rs_db r)
                  (rs_log r ++ lp)) as (Hr & Hdb & _).
      rewrite Hr. cbn [fst snd andb negb].
      rewrite rs_db_count_status.
      split; [reflexivity|]. split.
      { destruct Hdb as [Hdb|Hdb]; rewrite Hdb; eauto. }
      split.
      { intros Hf. rewrite Hf. unfold _save_to_db.
        destruct (processing_status_eqb _ _); run_conn; reflexivity. }
      rewrite Hstatus.
      destruct (enabled_format self path); reflexivity.
    + cbn [fst snd]. split; [reflexivity|]. split; [left; reflexivity|].
      split; [reflexivity|].
      assert (Hn : (match os_stat fs path with Some _ => true | None => false end
                    && convertible fs self path)%bool = false).
      { destruct (os_stat fs path) as [st|] eqn:Hst; [|reflexivity].
        destruct (convertible fs self path) eqn:Hconv; [|reflexivity].
        exfalso.
        destruct (proj1 (process_file_some fs self path now))
          as (fi & l' & H); [split; congruence|congruence]. }
      rewrite Hn. reflexivity.
  - cbn [andb].
    destruct (is_dir fs path); cbn [fst snd]; [|auto 6].
    pose proof (process_directory_outcome fs path now (faults path) (rs_db r)
                  (rs_log r)) as H.
    destruct H as (Hr & H). rewrite Hr.
    split; [reflexivity|]. split.
    { destruct (os_stat fs path) as [st|]; [|left; exact H].
      destruct H as ([H|H] & _); rewrite H;
        [right; right; exists st; reflexivity|left; reflexivity]. }
    split; [|reflexivity].
    intros Hf. rewrite Hf. unfold _process_directory.
    destruct (os_stat fs path); run_conn; reflexivity.
Qed.

Lemma index_loop_ok (fs : filesystem) (self : FileIndexer)
    (faults : string -> option nat) (paths : list string) :
  forall now r, fst (index_loop fs self faults paths now r) = inl tt.
Proof.
  induction paths as [|path paths IH]; intros now r; simpl; [reflexivity|].
  destruct (index_entry_any fs self faults path now r) as (Hr & _).
  destruct (index_entry fs self faults path now r) as [[[]|e] r1];
    simpl in Hr; [apply IH|discriminate].
Qed.

Lemma index_loop_cons (fs : filesystem) (self : FileIndexer)
    (faults : string -> option nat) (path : string) (paths : list string)
    (now : time) (r : run_state) :
  index_loop fs self faults (path :: paths) now r
  = index_loop fs self faults paths (S now)
               (snd (index_entry fs self faults path now r)).
Proof.
  simpl.
  destruct (index_entry_any fs self faults path now r) as (Hr & _).
  destruct (index_entry fs self faults path now r) as [[[]|e] r1];
    simpl in Hr; [reflexivity|discriminate].
Qed.

Lemma index_directory_eq (fs : filesystem) (self : FileIndexer)
    (faults : string -> option nat) (root_path : string) (now : time)
    (s : db) (l : log_t) :
  path_exists fs root_path = true ->
  let total := List.length (filter (is_file fs) (rglob fs root_path)) in
  let r := snd (index_loop fs self faults (rglob fs root_path) now
                  {| rs_db := s;
                     rs_log := l ++ [(INFO, StartingIndexing root_path);
                                     (INFO, TotalFilesFound total)];
                     rs_processed := 0; rs_skipped := 0; rs_failed := 0 |}) in
  index_directory fs self faults root_path now s l
  = (inl tt,
     with_db_log r (rs_db r)
       (rs_log r ++ [(INFO, IndexingCompleted);
                     (INFO, Summary total (rs_processed r) (rs_skipped r)
                                    (rs_failed r))])).
Proof.
  intros Hex total r. unfold index_directory. rewrite Hex. simpl.
  fold total. unfold with_db_log at 1. simpl.
  pose proof (index_loop_ok fs self faults (rglob fs root_path) now
                {| rs_db := s;
                   rs_log := l ++ [(INFO, StartingIndexing root_path);
                                   (INFO, TotalFilesFound total)];
                   rs_processed := 0; rs_skipped := 0; rs_failed := 0 |})
    as Hok.
  subst r.
  destruct (index_loop fs self faults (rglob fs root_path) now _)
    as [[[]|e] r1]; simpl in Hok; [reflexivity|discriminate].
Qed.






Lemma kept_refl (s : db) : kept s s.
Proof.
  unfold kept. repeat split; auto. exists []. rewrite app_nil_r. reflexivity.
Qed.

Lemma kept_trans (s1 s2 s3 : db) : kept s1 s2 -> kept s2 s3 -> kept s1 s3.
Proof.
  unfold kept.
  intros (A1 & A2 & A3 & A4 & A5 & A6 & (x & A7))
         (B1 & B2 & B3 & B4 & B5 & B6 & (y & B7)).
  repeat split; try congruence; auto.
  exists (x ++ y). rewrite B7, A7, app_assoc. reflexivity.
Qed.

Lemma kept_saved (fi : file_info.t) (now : time) (s : db) :
  kept s (saved fi now s).
Proof.
  unfold kept. rewrite files_saved.
  assert (Hpaths : forall q,
             In q (map f_file_path (files s)) ->
             In q (map f_file_path
                     (files (Sql.insert_or_replace_file fi s)))).
  { intros q Hq. unfold Sql.insert_or_replace_file.
    cbn [files set_files].
    apply (in_keys_replace f_file_path); [reflexivity|auto]. }
  unfold saved.
  destruct (processing_status_eqb _ _); simpl; repeat split; auto.
  - eexists. reflexivity.
  - exists []. rewrite app_nil_r. reflexivity.
Qed.

Lemma kept_directory_saved (dir_path : string) (dir_stat : stat_result)
    (now : time) (s : db) :
  kept s (directory_saved dir_path dir_stat now s).
Proof.
  unfold kept, directory_saved, Sql.insert_or_replace_directory. simpl.
  repeat split; auto.
  - intros q Hq.
    apply (in_keys_replace d_dir_path); [reflexivity|auto].
  - exists []. rewrite app_nil_r. reflexivity.
Qed.

Lemma index_loop_kept (fs : filesystem) (self : FileIndexer)
    (faults : string -> option nat) (paths : list string) :
  forall now r,
    kept (rs_db r) (rs_db (snd (index_loop fs self faults paths now r))).
Proof.
  induction paths as [|path paths IH]; intros now r.
  - apply kept_refl.
  - rewrite index_loop_cons.
    apply (kept_trans _ (rs_db (snd (index_entry fs self faults path now r))));
      [|apply IH].
    destruct (index_entry_any fs self faults path now r)
      as (_ & [H|[(fi & H)|(st & H)]] & _); rewrite H.
    + apply kept_refl.
    + apply kept_saved.
    + apply kept_directory_saved.
Qed.

Lemma firstn_all_beyond {A : Type} (i : nat) (l : list A) :
  Nat.leb i (List.length l) = false -> firstn i l = l.
Proof.
  intros H. apply Nat.leb_gt in H. apply firstn_all2. lia.
Qed.

(** X11.  No failure of SQLite leaves [index_directory]: what leaves it is
    the [OSError] of a path probe, and when no probe raises the call returns
    whatever SQLite does.  When [root_path.exists()] or a probe of the
    counting pass raises, nothing has been written or logged.  When a probe
    raises in the loop, the entries before it have been handled as in a run
    over them alone, what they wrote stays committed, no row the catalog
    held is lost and no summary is logged.  For a root that does not exist
    the call writes nothing, logs the error and returns. *)
Theorem X11_only_path_probes_raise (fs : filesystem) (pe : probe_errors)
    (self : FileIndexer) (faults : string -> option nat) (root_path : string)
    (now : time) (s : db) (l : log_t) :
  let o := index_directory_probed fs pe self faults root_path now s l in
  let entries := rglob fs root_path in
  let r0 := {| rs_db := s; rs_log := l; rs_processed := 0; rs_skipped := 0;
               rs_failed := 0 |} in
  let r1 := with_db_log r0 s
              (l ++ [(INFO, StartingIndexing root_path);
                     (INFO, TotalFilesFound
                              (List.length (filter (is_file fs) entries)))]) in
  (exists_raises pe = false ->
   raises_within (counting_raises pe) entries = false ->
   raises_within (loop_raises pe) entries = false ->
   o = index_directory fs self faults root_path now s l /\ fst o = inl tt)
  /\ (forall e,
         fst o = inr e ->
         e = OSError
         /\ (exists_raises pe = true
             \/ raises_within (counting_raises pe) entries = true
             \/ raises_within (loop_raises pe) entries = true))
  /\ (exists_raises pe = true
      \/ (path_exists fs root_path = true
          /\ raises_within (counting_raises pe) entries = true) ->
      o = (inr OSError, r0))
  /\ (exists_raises pe = false ->
      path_exists fs root_path = true ->
      raises_within (counting_raises pe) entries = false ->
      forall i,
        loop_raises pe = Some i -> i <= List.length entries ->
        o = (inr OSError,
             snd (index_loop fs self faults (firstn i entries) now r1))
        /\ kept s (rs_db (snd o)))
  /\ (exists_raises pe = false ->
      path_exists fs root_path = false ->
      o = (inl tt, with_db_log r0 s (l ++ [(ERROR, PathDoesNotExist root_path)]))).
Proof.
  intros o entries r0 r1. subst o. unfold index_directory_probed.
  fold entries. fold r0. fold r1.
  pose proof (index_loop_ok fs self faults
                (visited (loop_raises pe) entries) now r1) as Hok.
  pose proof (index_loop_kept fs self faults
                (visited (loop_raises pe) entries) now r1) as Hkept.
  destruct (exists_raises pe) eqn:Hex.
  { split; [intros H; discriminate H|]. split; [|split; [|split]].
    - intros e H. injection H as <-. auto.
    - reflexivity.
    - intros H; discriminate H.
    - intros H; discriminate H. }
  destruct (path_exists fs root_path) eqn:Hroot; cbn [negb].
  2:{ split; [|split; [|split; [|split]]].
      - intros _ _ _. unfold index_directory. rewrite Hroot. cbn [negb].
        split; reflexivity.
      - intros e H. cbn in H. discriminate H.
      - intros [H|[H _]]; discriminate H.
      - intros _ H; discriminate H.
      - reflexivity. }
  destruct (raises_within (counting_raises pe) entries) eqn:Hcount.
  { split; [intros _ H; discriminate H|]. split; [|split; [|split]].
    - intros e H. injection H as <-. auto.
    - reflexivity.
    - intros _ _ H; discriminate H.
    - intros _ H; discriminate H. }
  destruct (index_loop fs self faults (visited (loop_raises pe) entries) now r1)
    as [[[]|e1] r] eqn:Hloop; cbn [fst snd] in Hok, Hkept; [|discriminate Hok].
  destruct (raises_within (loop_raises pe) entries) eqn:Hwalk.
  - split; [intros _ _ H; discriminate H|].
    split; [|split; [|split]].
    + intros e H. injection H as <-. auto.
    + intros [H|[_ H]]; discriminate H.
    + intros _ _ _ i Hi Hle. rewrite Hi in Hloop. cbn [visited] in Hloop.
      rewrite Hloop. cbn [snd]. split; [reflexivity|exact Hkept].
    + intros _ H; discriminate H.
  - assert (Hv : visited (loop_raises pe) entries = entries).
    { unfold visited. unfold raises_within in Hwalk.
      destruct (loop_raises pe) as [i|]; [|reflexivity].
      apply firstn_all_beyond. exact Hwalk. }
    rewrite Hv in Hloop.
    split; [|split; [|split; [|split]]].
    + intros _ _ _. unfold index_directory. rewrite Hroot. cbn [negb].
      fold entries. fold r0. fold r1. rewrite Hloop. split; reflexivity.
    + intros e H. cbn in H. discriminate H.
    + intros [H|[_ H]]; discriminate H.
    + intros _ _ _ i Hi Hle. exfalso. unfold raises_within in Hwalk.
      rewrite Hi in Hwalk. apply Nat.leb_gt in Hwalk. lia.
    + intros _ H; discriminate H.
Qed.

Lemma X11_only_path_probes_raise_witness :
  let o := index_directory_probed demo_fs demo_probes demo_indexer no_faults
             "/data" 100 init_database [] in
  fst o = inr OSError
  /\ kept init_database (rs_db (snd o))
  /\ index_directory_probed demo_fs quiet demo_indexer no_faults "/data" 100
                            init_database []
     = index_directory demo_fs demo_indexer no_faults "/data" 100
                       init_database [].
Proof.
  destruct (X11_only_path_probes_raise demo_fs demo_probes demo_indexer
              no_faults "/data" 100 init_database [])
    as (_ & _ & _ & H4 & _).
  assert (Hle : 1 <= List.length (rglob demo_fs "/data")) by (simpl; lia).
  destruct (H4 eq_refl eq_refl eq_refl 1 eq_refl Hle) as [Ho Hk].
  split; [rewrite Ho; reflexivity|]. split; [exact Hk|].
  destruct (X11_only_path_probes_raise demo_fs quiet demo_indexer
              no_faults "/data" 100 init_database [])
    as (H1 & _).
  exact (proj1 (H1 eq_refl eq_refl eq_refl)).
Defined.


(** X13.  Whatever SQLite does, a run writes to [files], [directories] and
    the queue only: documentation, tags, relations and the format registry
    are what they were.  It never removes anything: every path that had a
    row in [files] or in [directories] still has one, also when the file has
    vanished from the tree, and the queue keeps all its rows and grows at
    the end only. *)
Theorem X13_run_only_adds (fs : filesystem) (self : FileIndexer)
    (faults : string -> option nat) (root_path : string) (now : time)
    (s : db) (l : log_t) :
  let s' := rs_db (snd (index_directory fs self faults root_path now s l)) in
  directory_docs s' = directory_docs s
  /\ directory_tags s' = directory_tags s
  /\ directory_relations s' = directory_relations s
  /\ file_formats s' = file_formats s
  /\ (forall q, In q (map f_file_path (files s)) ->
                In q (map f_file_path (files s')))
  /\ (forall q, In q (map d_dir_path (directories s)) ->
                In q (map d_dir_path (directories s')))
  /\ exists extra, processing_queue s' = processing_queue s ++ extra.
Proof.
  intros s'. change (kept s s'). subst s'.
  destruct (path_exists fs root_path) eqn:Hex.
  - rewrite (index_directory_eq fs self faults root_path now s l Hex).
    cbn [snd with_db_log rs_db].
    match goal with
    | |- context [index_loop fs self faults ?L now ?r0] =>
        exact (index_loop_kept fs self faults L now r0)
    end.
  - unfold index_directory. rewrite Hex. simpl. apply kept_refl.
Qed.

Lemma index_loop_queue (fs : filesystem) (self : FileIndexer)
    (paths : list string) :
  forall now r,
    let r' := snd (index_loop fs self no_faults paths now r) in
    exists extra,
      processing_queue (rs_db r') = processing_queue (rs_db r) ++ extra
      /\ rs_processed r' = rs_processed r + List.length extra
      /\ Forall (fun q => q_status q = "pending") extra.
Proof.
  induction paths as [|path paths IH]; intros now r.
  - exists []. simpl. rewrite app_nil_r. auto.
  - rewrite index_loop_cons. cbn zeta.
    destruct (IH (S now) (snd (index_entry fs self no_faults path now r)))
      as (extra & Hq & Hn & Hp).
    assert (Hstep : exists first,
               processing_queue
                 (rs_db (snd (index_entry fs self no_faults path now r)))
               = processing_queue (rs_db r) ++ first
               /\ rs_processed (snd (index_entry fs self no_faults path now r))
                  = rs_processed r + List.length first
               /\ Forall (fun q => q_status q = "pending") first).
    { destruct (is_file fs path) eqn:Hfile.
      - rewrite index_entry_file by exact Hfile.
        destruct (_process_file fs self path now) as [[fi|] lp]; cbn [snd].
        + rewrite rs_db_count_status. unfold saved.
          destruct (file_info.processing_status fi); simpl.
          * eexists. split; [reflexivity|]. split; [simpl; lia|].
            constructor; [reflexivity|constructor].
          * exists []. rewrite app_nil_r. simpl. auto.
          * exists []. rewrite app_nil_r. simpl. auto.
        + exists []. rewrite app_nil_r. simpl. auto.
      - unfold index_entry. rewrite Hfile.
        destruct (is_dir fs path); cbn [snd].
        + pose proof (process_directory_outcome fs path now (no_faults path)
                        (rs_db r) (rs_log r)) as H.
          destruct H as (_ & H). simpl.
          exists []. rewrite app_nil_r. simpl.
          split; [|auto].
          destruct (os_stat fs path) as [st|];
            [destruct H as ([H|H] & _)|]; rewrite H; reflexivity.
        + exists []. rewrite app_nil_r. simpl. auto. }
    destruct Hstep as (first & Hq1 & Hn1 & Hp1).
    exists (first ++ extra). rewrite Hq, Hq1, Hn, Hn1, length_app, app_assoc.
    split; [reflexivity|]. split; [lia|]. apply Forall_app. auto.
Qed.

(** X14.  In a run during which SQLite does not raise, the queue grows by
    exactly as many rows as the summary counts as processed, all of them
    pending, and the rows it held are kept. *)
Theorem X14_queue_grows_by_processed (fs : filesystem) (self : FileIndexer)
    (root_path : string) (now : time) (s : db) (l : log_t) :
  let r := snd (index_directory fs self no_faults root_path now s l) in
  exists extra,
    processing_queue (rs_db r) = processing_queue s ++ extra
    /\ List.length extra = rs_processed r
    /\ Forall (fun q => q_status q = "pending") extra.
Proof.
  intros r. subst r.
  destruct (path_exists fs root_path) eqn:Hex.
  - rewrite (index_directory_eq fs self no_faults root_path now s l Hex).
    cbn [snd with_db_log rs_db rs_processed].
    match goal with
    | |- context [index_loop fs self no_faults ?L now ?r0] =>
        destruct (index_loop_queue fs self L now r0) as (extra & Hq & Hn & Hp)
    end.
    exists extra. simpl in Hq, Hn. rewrite Hq, Hn. auto.
  - unfold index_directory. rewrite Hex. simpl.
    exists []. rewrite app_nil_r. auto.
Qed.


Lemma X13_run_only_adds_witness :
  In "/data/a.txt" (map f_file_path (files (rs_db demo_run2))).
Proof.
  apply (proj1 (proj2 (proj2 (proj2 (proj2
           (X13_run_only_adds demo_fs demo_indexer no_faults "/data" 200
              (rs_db demo_run1) (rs_log demo_run1))))))).
  vm_compute. auto.
Defined.

(* --------------------------------------------------------------------- *)
(** *** [add_directory_documentation] on any catalog *)

Lemma docs_of_cleared_other (dir_id d : nat)
    (rows : list directory_docs_row) :
  d <> dir_id ->
  filter (fun r => Nat.eqb (dd_directory_id r) d)
         (map (fun r => if Nat.eqb (dd_directory_id r) dir_id
                        then Sql.clear_current r else r) rows)
  = filter (fun r => Nat.eqb (dd_directory_id r) d) rows.
Proof.
  intros Hd. induction rows as [|r rows IH]; simpl; [reflexivity|].
  rewrite IH.
  destruct (Nat.eqb_spec (dd_directory_id r) dir_id) as [E|E]; simpl;
    [|reflexivity].
  destruct (Nat.eqb_spec (dd_directory_id r) d); [congruence|reflexivity].
Qed.

(** The version number chosen is above every version the directory has, so
    the insert cannot break UNIQUE (directory_id, version). *)
Lemma next_version_free (dir_id : nat) (s : db) :
  (forall r, In r (Sql.docs_of dir_id s) ->
             dd_version r < next_version dir_id s)
  /\ existsb (fun r => andb (Nat.eqb (dd_directory_id r) dir_id)
                            (Nat.eqb (dd_version r) (next_version dir_id s)))
             (directory_docs (Sql.update_not_current dir_id s)) = false.
Proof.
  assert (Hlt : forall r, In r (Sql.docs_of dir_id s) ->
                          dd_version r < next_version dir_id s).
  { intros r Hr. unfold next_version, Sql.select_max_version.
    pose proof (max_rowid_ge dd_version _ r Hr) as Hle.
    destruct (Sql.docs_of dir_id s) as [|r0 rows]; [destruct Hr|]. lia. }
  split; [exact Hlt|].
  apply not_true_is_false. intros H.
  apply existsb_exists in H. destruct H as (r & Hin & Hr).
  apply andb_prop in Hr. destruct Hr as [Hd Hv].
  simpl in Hin. apply in_map_iff in Hin. destruct Hin as (r0 & Hr0 & Hin0).
  assert (Hsame : dd_directory_id r = dd_directory_id r0
                  /\ dd_version r = dd_version r0).
  { subst r. destruct (Nat.eqb (dd_directory_id r0) dir_id); auto. }
  destruct Hsame as [Hsd Hsv]. rewrite Hsd in Hd. rewrite Hsv in Hv.
  assert (Hdoc : In r0 (Sql.docs_of dir_id s)) by (apply filter_In; auto).
  apply Hlt in Hdoc. apply Nat.eqb_eq in Hv. lia.
Qed.

(** X15.  On a cataloged directory a call with a title succeeds whatever
    documentation the directory already has, gaps in the numbering included:
    the new row gets a version above every version of the directory, is the
    only current row of the directory and carries the title; the earlier rows
    of the directory are kept, in order, changed in nothing but the current
    flag; and the rows of every other directory are as they were. *)
Theorem X15_documentation_appends (dir_path title : string)
    (description purpose guidelines created_by : option string) (now : time)
    (s : db) (l : log_t) (dir_id : nat) :
  Sql.select_directory_id dir_path s = Some dir_id ->
  let o := run (add_directory_documentation dir_path (Some title) description
                  purpose guidelines created_by now) None s l in
  result o = inl true
  /\ (exists new,
         Sql.docs_of dir_id (db_after o)
         = map Sql.clear_current (Sql.docs_of dir_id s) ++ [new]
         /\ dd_version new = next_version dir_id s
         /\ (forall r, In r (Sql.docs_of dir_id s) ->
                       dd_version r < dd_version new)
         /\ dd_title new = title
         /\ dd_description new = description
         /\ dd_created_at new = Some now
         /\ filter dd_is_current (Sql.docs_of dir_id (db_after o)) = [new])
  /\ (forall d, d <> dir_id ->
                Sql.docs_of d (db_after o) = Sql.docs_of d s)
  /\ log_after o = l ++ [(INFO, AddedDocumentation (next_version dir_id s)
                                  dir_path)].
Proof.
  intros Hsel o.
  destruct (next_version_free dir_id s) as [Hlt Hfree].
  assert (Hrun : result o = inl true
                 /\ db_after o
                    = Sql.update_last_documented_at now dir_id
                        (set_directory_docs
                           (directory_docs (Sql.update_not_current dir_id s)
                            ++ [ {| dd_id := new_rowid dd_id
                                               (directory_docs
                                                  (Sql.update_not_current
                                                     dir_id s));
                                    dd_directory_id := dir_id;
                                    dd_version := next_version dir_id s;
                                    dd_title := title;
                                    dd_description := description;
                                    dd_purpose := purpose;
                                    dd_guidelines := guidelines;
                                    dd_created_at := Some now;
                                    dd_created_by := created_by;
                                    dd_is_current := true;
                                    dd_metadata := None |} ])
                           (Sql.update_not_current dir_id s))
                 /\ log_after o
                    = l ++ [(INFO, AddedDocumentation (next_version dir_id s)
                                     dir_path)]).
  { subst o. unfold add_directory_documentation. run_conn.
    rewrite Hsel. cbn beta iota.
    fold (next_version dir_id s).
    unfold Sql.insert_directory_doc. rewrite Hfree. auto. }
  destruct Hrun as (Hr & Hdb & Hlog).
  split; [exact Hr|]. rewrite Hdb, Hlog. clear Hr Hdb Hlog o.
  split; [|split; [|reflexivity]].
  - eexists. unfold Sql.docs_of.
    cbn [directory_docs set_directory_docs Sql.update_last_documented_at
         Sql.update_not_current set_directories].
    rewrite filter_app, docs_of_cleared. cbn [filter dd_directory_id].
    rewrite Nat.eqb_refl.
    split; [reflexivity|]. split; [reflexivity|]. split; [exact Hlt|].
    split; [reflexivity|]. split; [reflexivity|]. split; [reflexivity|].
    rewrite filter_app. cbn [filter dd_is_current app].
    assert (Hnone : forall rows,
               filter dd_is_current (map Sql.clear_current rows) = []).
    { induction rows; simpl; auto. }
    rewrite Hnone. reflexivity.
  - intros d Hd. unfold Sql.docs_of.
    cbn [directory_docs set_directory_docs Sql.update_last_documented_at
         Sql.update_not_current set_directories].
    rewrite filter_app, docs_of_cleared_other by exact Hd.
    cbn [filter dd_directory_id].
    destruct (Nat.eqb_spec dir_id d); [congruence|].
    apply app_nil_r.
Qed.

Lemma X15_documentation_appends_witness :
  let o := run (add_directory_documentation "/data/docs" (Some "Title") None
                  None None (Some "system") 300) None (rs_db demo_run1) [] in
  result o = inl true
  /\ log_after o = [(INFO, AddedDocumentation 1 "/data/docs")].
Proof.
  assert (Hs : Sql.select_directory_id "/data/docs" (rs_db demo_run1) = Some 1)
    by (vm_compute; reflexivity).
  destruct (X15_documentation_appends "/data/docs" "Title" None None None
              (Some "system") 300 (rs_db demo_run1) [] 1 Hs)
    as (H1 & _ & _ & H4).
  split; [exact H1|].
  assert (Hv : next_version 1 (rs_db demo_run1) = 1)
    by (vm_compute; reflexivity).
  rewrite Hv in H4. exact H4.
Defined.


Lemma insert_directory_doc_tables (dir_id version : nat)
    (title description purpose guidelines created_by : option string)
    (now : time) (s s1 : db) :
  Sql.insert_directory_doc dir_id version title description purpose guidelines
    now created_by s = inl s1 ->
  files s1 = files s /\ directories s1 = directories s
  /\ directory_tags s1 = directory_tags s
  /\ directory_relations s1 = directory_relations s
  /\ processing_queue s1 = processing_queue s
  /\ file_formats s1 = file_formats s.
Proof.
  unfold Sql.insert_directory_doc.
  destruct title; [|discriminate]. destruct (existsb _ _); [discriminate|].
  intros H. inversion H; subst. repeat split.
Qed.

(** X16.  Whatever its arguments and whatever SQLite does,
    [add_directory_documentation] returns a boolean, and it writes to
    [directory_docs] and to the time stamp of directories only: files, the
    queue, tags, relations and the registry are as before, and so are the
    path and the rowid of every directory. *)
Theorem X16_documentation_touches_docs_only (dir_path : string)
    (title description purpose guidelines created_by : option string)
    (now : time) (fault : option nat) (s : db) (l : log_t) :
  let o := run (add_directory_documentation dir_path title description purpose
                  guidelines created_by now) fault s l in
  (exists b, result o = inl b)
  /\ files (db_after o) = files s
  /\ processing_queue (db_after o) = processing_queue s
  /\ directory_tags (db_after o) = directory_tags s
  /\ directory_relations (db_after o) = directory_relations s
  /\ file_formats (db_after o) = file_formats s
  /\ map d_dir_path (directories (db_after o))
     = map d_dir_path (directories s)
  /\ map d_id (directories (db_after o)) = map d_id (directories s).
Proof.
  intros o.
  pose proof (add_directory_documentation_outcome dir_path title description
                purpose guidelines created_by now fault s l) as H.
  fold o in H.
  destruct (Sql.select_directory_id dir_path s) as [dir_id|];
    [|destruct H as [Hr Hdb]; rewrite Hdb; repeat split; eauto].
  destruct (Sql.insert_directory_doc _ _ _ _ _ _ _ _ _) as [s1|e] eqn:E;
    [|destruct H as [Hr Hdb]; rewrite Hdb; repeat split; eauto].
  destruct H as ([[Hr Hdb]|[Hr Hdb]] & _); rewrite Hdb;
    [|repeat split; eauto].
  apply insert_directory_doc_tables in E.
  destruct E as (E1 & E2 & E3 & E4 & E5 & E6).
  cbn [files processing_queue directory_tags directory_relations file_formats
       directories Sql.update_last_documented_at set_directories
       Sql.update_not_current set_directory_docs] in *.
  rewrite E2, stamped_paths, stamped_ids.
  repeat split; eauto.
Qed.


(* --------------------------------------------------------------------- *)
(** *** [add_directory_tags] on any catalog *)

Lemma count_tag_tagged_full (dir_id d : nat) (now : time)
    (created_by : option string) (t : string) (tags : list string) :
  forall s,
    count_tag d t s <= 1 ->
    count_tag d t (tagged dir_id tags now created_by s)
    = if andb (Nat.eqb d dir_id) (Py.mem t tags) then 1 else count_tag d t s.
Proof.
  unfold tagged, Py.mem.
  induction tags as [|x tags IH]; intros s Hle; simpl.
  - rewrite andb_false_r. reflexivity.
  - rewrite IH; rewrite count_tag_insert.
    + rewrite (Nat.eqb_sym dir_id d), (String.eqb_sym x t).
      destruct (Nat.eqb d dir_id); simpl; [|reflexivity].
      destruct (String.eqb t x); simpl; [|reflexivity].
      destruct (existsb (String.eqb t) tags); [reflexivity|].
      destruct (Nat.eqb_spec (count_tag d t s) 0); cbn iota; lia.
    + match goal with
      | |- (if ?c then _ else _) <= _ => destruct c
      end; lia.
Qed.

Lemma tags_tagged_prefix (dir_id : nat) (now : time)
    (created_by : option string) (tags : list string) :
  forall s,
    (exists extra,
        directory_tags (tagged dir_id tags now created_by s)
        = directory_tags s ++ extra)
    /\ directory_docs (tagged dir_id tags now created_by s) = directory_docs s
    /\ directory_relations (tagged dir_id tags now created_by s)
       = directory_relations s
    /\ processing_queue (tagged dir_id tags now created_by s)
       = processing_queue s
    /\ file_formats (tagged dir_id tags now created_by s) = file_formats s.
Proof.
  unfold tagged.
  induction tags as [|x tags IH]; intros s; simpl.
  - split; [exists []; rewrite app_nil_r; reflexivity|auto].
  - destruct (IH (Sql.insert_or_ignore_tag dir_id x now created_by s))
      as ((extra & He) & -> & -> & -> & ->).
    rewrite He. unfold Sql.insert_or_ignore_tag.
    destruct (existsb _ _); simpl; [eauto 6|].
    split; [|auto]. eexists. rewrite <- app_assoc. reflexivity.
Qed.

(** X17.  In a catalog that meets UNIQUE (directory_id, tag_name), a call of
    [add_directory_tags] on a cataloged directory during which SQLite does
    not raise returns [True] and leaves, for every directory and tag,
    exactly one row if the pair is the directory of the call with a tag of
    the list, and what there was otherwise: the tags are added as a set.
    The rows that existed are kept, and no other table is touched. *)
Theorem X17_tags_added_as_a_set (dir_path : string) (tags : list string)
    (created_by : option string) (now : time) (s : db) (l : log_t)
    (dir_id : nat) :
  tags_unique s ->
  Sql.select_directory_id dir_path s = Some dir_id ->
  let o := run (add_directory_tags dir_path tags created_by now) None s l in
  result o = inl true
  /\ (forall d t,
         count_tag d t (db_after o)
         = if andb (Nat.eqb d dir_id) (Py.mem t tags) then 1
           else count_tag d t s)
  /\ (exists extra,
         directory_tags (db_after o) = directory_tags s ++ extra)
  /\ files (db_after o) = files s
  /\ directories (db_after o) = directories s
  /\ directory_docs (db_after o) = directory_docs s
  /\ directory_relations (db_after o) = directory_relations s
  /\ processing_queue (db_after o) = processing_queue s
  /\ file_formats (db_after o) = file_formats s.
Proof.
  intros Hu Hsel o.
  pose proof (add_directory_tags_outcome dir_path tags created_by now None
                s l) as H.
  fold o in H. rewrite Hsel in H. destruct H as [_ H].
  destruct (H eq_refl) as [Hr Hdb]. rewrite Hdb.
  split; [exact Hr|].
  split; [intros d t; apply count_tag_tagged_full, Hu|].
  destruct (tags_tagged_prefix dir_id now created_by tags s)
    as (Hp & F1 & F2 & F3 & F4).
  split; [exact Hp|].
  rewrite files_tagged, directories_tagged. auto 6.
Qed.

Lemma X17_tags_added_as_a_set_witness :
  let o := run (add_directory_tags "/data/docs" ["a"; "b"; "a"] (Some "system")
                  300) None (rs_db demo_run1) [] in
  count_tag 1 "b" (db_after o) = 1 /\ count_tag 1 "c" (db_after o) = 0.
Proof.
  assert (Ht : directory_tags (rs_db demo_run1) = [])
    by (vm_compute; reflexivity).
  assert (Hu : tags_unique (rs_db demo_run1)).
  { intros d t. unfold count_tag. rewrite Ht. simpl. lia. }
  assert (Hs : Sql.select_directory_id "/data/docs" (rs_db demo_run1) = Some 1)
    by (vm_compute; reflexivity).
  destruct (X17_tags_added_as_a_set "/data/docs" ["a"; "b"; "a"]
              (Some "system") 300 (rs_db demo_run1) [] 1 Hu Hs)
    as (_ & Hc & _).
  split.
  - rewrite (Hc 1 "b"). reflexivity.
  - rewrite (Hc 1 "c"). unfold count_tag. rewrite Ht. reflexivity.
Defined.

(** X18.  [add_directory_tags] never raises.  For a path that is not
    cataloged it returns [False] and writes nothing.  For a cataloged
    directory and a list of [n] tags the call issues [n + 2] statements; if
    SQLite raises at one of them the call returns [False] and no tag of the
    list is stored, not even those whose insert had succeeded; otherwise all
    are. *)
Theorem X18_tags_all_or_none (dir_path : string) (tags : list string)
    (created_by : option string) (now : time) (s : db) (l : log_t) :
  (Sql.select_directory_id dir_path s = None ->
   forall fault,
     let o := run (add_directory_tags dir_path tags created_by now) fault s l in
     result o = inl false /\ db_after o = s)
  /\ (forall dir_id k,
         Sql.select_directory_id dir_path s = Some dir_id ->
         let o := run (add_directory_tags dir_path tags created_by now)
                      (Some k) s l in
         (k <= List.length tags + 1 ->
          result o = inl false /\ db_after o = s
          /\ log_after o = l ++ [(ERROR, TagsError OperationalError)])
         /\ (List.length tags + 2 <= k ->
             result o = inl true
             /\ db_after o = tagged dir_id tags now created_by s)).
Proof.
  split.
  - intros Hnone fault o.
    pose proof (add_directory_tags_outcome dir_path tags created_by now fault
                  s l) as H.
    fold o in H. rewrite Hnone in H. exact H.
  - intros dir_id k Hsel. unfold run.
    destruct (add_directory_tags dir_path tags created_by now
                (connect s (Some k) l)) as [r c'] eqn:H.
    cbn [result db_after log_after].
    unfold add_directory_tags, try_except, bind in H.
    rewrite query_total in H.
    cbn [raises_at executed working connect] in H.
    destruct (Nat.eqb_spec k 0) as [E0|N0].
    { cbv [logging rollback ret after_statement connect committed working
           executed raises_at log] in H.
      injection H as <- <-. cbn [committed log].
      split; [auto|]. intros Hk. lia. }
    rewrite Hsel in H.
    destruct (for_each tags _ _) as [r1 c1] eqn:Hloop in H.
    pose proof Hloop as Hfault.
    apply for_each_insert_tag in Hloop.
    apply (for_each_fault
             (fun tag w => Sql.insert_or_ignore_tag dir_id tag now created_by w)
             _ _ _ _ k) in Hfault; [|reflexivity].
    cbn [after_statement committed working raises_at log executed connect]
      in Hloop, Hfault.
    destruct Hloop as (H1 & H2 & H3 & H4 & _).
    destruct Hfault as [F1 F2].
    destruct (Nat.lt_ge_cases k (1 + List.length tags)) as [Hlt|Hge].
    { rewrite F1 in H by lia.
      cbv [logging rollback ret] in H. injection H as <- <-.
      cbn [committed log]. rewrite H1, H2.
      split; [auto|]. intros Hk. lia. }
    destruct F2 as [-> E1]; [lia|].
    specialize (H4 eq_refl).
    rewrite commit_total, H3 in H.
    rewrite E1 in H.
    destruct (Nat.eqb_spec k (1 + List.length tags)) as [Ek|Nk].
    { cbv [logging rollback ret after_statement] in H.
      injection H as <- <-. cbn [committed log]. rewrite H1, H2.
      split; [auto|]. intros Hk. lia. }
    cbv [logging ret] in H. injection H as <- <-. cbn [committed].
    rewrite H4. split; [intros Hk; lia|auto].
Qed.

Lemma X18_tags_all_or_none_witness :
  let o := run (add_directory_tags "/data/docs" ["a"; "b"] (Some "system") 300)
               (Some 2) (rs_db demo_run1) [] in
  result o = inl false /\ db_after o = rs_db demo_run1.
Proof.
  assert (Hs : Sql.select_directory_id "/data/docs" (rs_db demo_run1) = Some 1)
    by (vm_compute; reflexivity).
  destruct (proj1 (proj2 (X18_tags_all_or_none "/data/docs" ["a"; "b"]
                            (Some "system") 300 (rs_db demo_run1) [])
                         1 2 Hs))
    as (H1 & H2 & _); [simpl; lia|].
  split; [exact H1|exact H2].
Defined.


(* --------------------------------------------------------------------- *)
(** *** [add_directory_relation] between cataloged directories *)

Lemma find_some_filter {A : Type} (f : A -> bool) (l : list A) (r : A) :
  find f l = Some r -> exists rest, filter f l = r :: rest.
Proof.
  induction l as [|x l IH]; simpl; [discriminate|].
  destruct (f x) eqn:E.
  - intros H. inversion H; subst. eauto.
  - exact IH.
Qed.

Lemma filter_unique_path (p : string) (rows : list directories_row)
    (r : directories_row) :
  NoDup (map d_dir_path rows) ->
  find (fun x => String.eqb (d_dir_path x) p) rows = Some r ->
  filter (fun x => String.eqb (d_dir_path x) p) rows = [r].
Proof.
  induction rows as [|x rows IH]; simpl; intros Hn H; [discriminate|].
  inversion Hn as [|? ? Hx Hrest]; subst.
  destruct (String.eqb_spec (d_dir_path x) p) as [E|E].
  - inversion H; subst. f_equal. apply filter_nothing.
    intros y Hy. apply String.eqb_neq. intros Ey.
    apply Hx. rewrite <- Ey. apply in_map, Hy.
  - apply IH; assumption.
Qed.

Lemma select_directory_id_find (path : string) (dir_id : nat) (s : db) :
  Sql.select_directory_id path s = Some dir_id ->
  exists row,
    find (fun r => String.eqb (d_dir_path r) path) (directories s) = Some row
    /\ d_id row = dir_id.
Proof.
  unfold Sql.select_directory_id. intros H.
  destruct (find _ (directories s)) as [row|]; [|discriminate].
  exists row. simpl in H. split; congruence.
Qed.

(** X19.  Between two cataloged directories (the same directory twice
    included) a call with a relation type, during which SQLite does not
    raise, returns [True] and appends exactly one row to
    [directory_relations], carrying the rowids of the two directories, the
    type, the description and the time.  Nothing is checked against the rows
    already there: the same relation declared again is stored again.  No
    other table is touched. *)
Theorem X19_relation_appends_one_row (source_path target_path : string)
    (relation_type : string) (description : option string) (now : time)
    (s : db) (l : log_t) (source_id target_id : nat) :
  NoDup (map d_dir_path (directories s)) ->
  Sql.select_directory_id source_path s = Some source_id ->
  Sql.select_directory_id target_path s = Some target_id ->
  let o := run (add_directory_relation source_path target_path
                  (Some relation_type) description now) None s l in
  result o = inl true
  /\ directory_relations (db_after o)
     = directory_relations s
       ++ [ {| dr_id := new_rowid dr_id (directory_relations s);
               dr_source_dir_id := source_id;
               dr_target_dir_id := target_id;
               dr_relation_type := relation_type;
               dr_description := description;
               dr_created_at := Some now |} ]
  /\ files (db_after o) = files s
  /\ directories (db_after o) = directories s
  /\ directory_docs (db_after o) = directory_docs s
  /\ directory_tags (db_after o) = directory_tags s
  /\ processing_queue (db_after o) = processing_queue s
  /\ file_formats (db_after o) = file_formats s.
Proof.
  intros Hn Hs Ht o.
  apply select_directory_id_find in Hs. destruct Hs as (r1 & F1 & I1).
  apply select_directory_id_find in Ht. destruct Ht as (r2 & F2 & I2).
  assert (Hends : Sql.select_endpoints source_path target_path s
                  = [(source_id, target_id)]).
  { unfold Sql.select_endpoints.
    rewrite (filter_unique_path _ _ _ Hn F1), (filter_unique_path _ _ _ Hn F2).
    simpl. rewrite I1, I2. reflexivity. }
  pose proof (add_directory_relation_outcome source_path target_path
                (Some relation_type) description now None s l) as H.
  fold o in H. unfold Sql.insert_select_relation in H. rewrite Hends in H.
  destruct H as [_ H]. destruct (H eq_refl) as [Hr Hdb].
  rewrite Hdb. split; [exact Hr|]. simpl. repeat split.
Qed.

Lemma X19_relation_appends_one_row_witness :
  let o := run (add_directory_relation "/data/docs" "/data/docs" (Some "self")
                  None 300) None (rs_db demo_run1) [] in
  result o = inl true
  /\ List.length (directory_relations (db_after o)) = 1.
Proof.
  assert (Hn : NoDup (map d_dir_path (directories (rs_db demo_run1)))).
  { apply (reachable_unique (rs_db demo_run1)).
    apply index_directory_reachable, reach_init. }
  assert (Hs : Sql.select_directory_id "/data/docs" (rs_db demo_run1) = Some 1)
    by (vm_compute; reflexivity).
  assert (Hrel : directory_relations (rs_db demo_run1) = [])
    by (vm_compute; reflexivity).
  destruct (X19_relation_appends_one_row "/data/docs" "/data/docs" "self" None
              300 (rs_db demo_run1) [] 1 1 Hn Hs Hs)
    as (H1 & H2 & _).
  split; [exact H1|]. rewrite H2, Hrel. reflexivity.
Defined.

(** X20.  A relation without a type between two cataloged directories is
    refused by the NOT NULL constraint: the call returns [False], logs the
    error and stores nothing.  (When an endpoint is missing there is no row
    to refuse, and the same call returns [True].) *)
Theorem X20_relation_needs_a_type (source_path target_path : string)
    (description : option string) (now : time) (s : db) (l : log_t)
    (source_id target_id : nat) :
  Sql.select_directory_id source_path s = Some source_id ->
  Sql.select_directory_id target_path s = Some target_id ->
  (forall fault,
      let o := run (add_directory_relation source_path target_path None
                      description now) fault s l in
      result o = inl false /\ db_after o = s)
  /\ log_after (run (add_directory_relation source_path target_path None
                       description now) None s l)
     = l ++ [(ERROR,
              RelationError
                (IntegrityError
                   "NOT NULL constraint failed: directory_relations.relation_type"))].
Proof.
  intros Hs Ht.
  apply select_directory_id_find in Hs. destruct Hs as (r1 & F1 & I1).
  apply select_directory_id_find in Ht. destruct Ht as (r2 & F2 & I2).
  apply find_some_filter in F1. destruct F1 as (rest1 & F1).
  apply find_some_filter in F2. destruct F2 as (rest2 & F2).
  assert (Hends : exists e ends,
             Sql.select_endpoints source_path target_path s = e :: ends).
  { unfold Sql.select_endpoints. rewrite F1, F2. simpl. eauto. }
  destruct Hends as (e & ends & Hends).
  split.
  - intros fault o.
    pose proof (add_directory_relation_outcome source_path target_path None
                  description now fault s l) as H.
    fold o in H. unfold Sql.insert_select_relation in H.
    rewrite Hends in H. exact H.
  - unfold add_directory_relation. run_conn.
    unfold Sql.insert_select_relation. rewrite Hends. reflexivity.
Qed.

Lemma X20_relation_needs_a_type_witness :
  let o := run (add_directory_relation "/data/docs" "/data/docs" None None 300)
               None (rs_db demo_run1) [] in
  result o = inl false /\ db_after o = rs_db demo_run1.
Proof.
  assert (Hs : Sql.select_directory_id "/data/docs" (rs_db demo_run1) = Some 1)
    by (vm_compute; reflexivity).
  exact (proj1 (X20_relation_needs_a_type "/data/docs" "/data/docs" None 300
                  (rs_db demo_run1) [] 1 1 Hs Hs) None).
Defined.


(* --------------------------------------------------------------------- *)
(** *** What a run leaves for the entries it visited *)









(* --------------------------------------------------------------------- *)
(** *** Parent and depth of a directory *)


